(** * Evalya interview session: a shallow embedding

    This development models the session orchestration logic of
    [src/components/InterviewSession.tsx] and the completion handler of
    [src/App.tsx] as pure functions over an explicit component state, and
    proves properties of the termination latch, the silence protocol, the
    transcript accumulator, the voice activity detector, the playback
    scheduler, the proctoring monitor, the mute toggle and the evaluation
    step. It then follows the component along all its runs (counters,
    teardown, countdown, tool calls, turn taking, the shape of the
    transcript, the audio sources), and models the navigation of [App]
    with the screens around it: the profile form, the instructions screen
    and the result screen.

    Conventions.
    - A JavaScript string is the list of its UTF-16 code units.
    - Counters and millisecond timestamps ([Date.now()]) are integers.
    - The microphone signal and the noise floor are IEEE 754 binary64
      values, computed with the kernel's primitive floats.
    - In the session component the audio-clock times (seconds) are exact
      rationals, which is enough where they are compared or reset. The
      arithmetic of the playback scheduler is followed on IEEE 754
      doubles in [Scheduler].
    - React state setters and ref assignments become updates of one record;
      [setTimeout] callbacks are kept in a queue ordered by due time. *)

From Stdlib Require Import List Bool ZArith QArith Lia Lqa String Ascii.
From Stdlib Require Import Qminmax Floats.PrimFloat.
From Stdlib Require Numbers.Cyclic.Int63.Uint63.
From Stdlib Require Floats.FloatAxioms Floats.SpecFloat Floats.FloatOps.
Import ListNotations.

Set Warnings "-inexact-float,-abstract-large-number,-register-all".
Local Open Scope Z_scope.

(** * The model *)

(** ** JavaScript strings *)

Module JSString.

Definition jsstring : Type := list N.

(** An ASCII literal as a JavaScript string. *)
Definition js (s : string) : jsstring :=
  map N_of_ascii (list_ascii_of_string s).

(** Truthiness of a string: every string but the empty one. *)
Definition truthy (s : jsstring) : bool :=
  match s with [] => false | _ :: _ => true end.

Fixpoint eqb (a b : jsstring) : bool :=
  match a, b with
  | [], [] => true
  | x :: a', y :: b' => N.eqb x y && eqb a' b'
  | _, _ => false
  end.

(** [s.startsWith(p)] *)
Fixpoint startsWith (p s : jsstring) : bool :=
  match p, s with
  | [], _ => true
  | _ :: _, [] => false
  | x :: p', y :: s' => N.eqb x y && startsWith p' s'
  end.

(** [s.includes(p)] *)
Fixpoint includes (p s : jsstring) : bool :=
  startsWith p s ||
  match s with
  | [] => false
  | _ :: s' => includes p s'
  end.

(** ECMAScript WhiteSpace and LineTerminator code points, the ones
    [String.prototype.trim] strips. *)
Definition isWhiteSpace (c : N) : bool :=
  let c := Z.of_N c in
  ((9 <=? c) && (c <=? 13)) || (c =? 32) || (c =? 160) || (c =? 5760)
  || ((8192 <=? c) && (c <=? 8202)) || (c =? 8232) || (c =? 8233)
  || (c =? 8239) || (c =? 8287) || (c =? 12288) || (c =? 65279).

Fixpoint trimStart (s : jsstring) : jsstring :=
  match s with
  | [] => []
  | c :: s' => if isWhiteSpace c then trimStart s' else s
  end.

Definition trimEnd (s : jsstring) : jsstring := rev (trimStart (rev s)).

Definition trim (s : jsstring) : jsstring := trimEnd (trimStart s).

(** [l.join(sep)] *)
Fixpoint join (sep : jsstring) (l : list jsstring) : jsstring :=
  match l with
  | [] => []
  | [x] => x
  | x :: l' => x ++ sep ++ join sep l'
  end.

End JSString.
Import JSString.

(** * The interview session component *)

Module InterviewSession.

(** ** The component state *)

Inductive Status : Type := connecting | connected | error.

Inductive Speaker : Type := user | ai.

Record TranscriptLine : Type := mkLine { speaker : Speaker; text : jsstring }.

Inductive AudioContextState : Type := ctx_suspended | ctx_running | ctx_closed.

(** The capture node, and whether its [onaudioprocess] callback is installed. *)
Record ScriptProcessor : Type := mkProcessor { callbackInstalled : bool }.

(** A scheduled [AudioBufferSourceNode]: when it starts and how long it plays. *)
Record AudioSource : Type :=
  mkSource { source_id : nat; startTime : Q; duration : Q }.

(** The handle of the duplex session. Its calls are best effort; the two flags
    say whether [sendRealtimeInput] and [close] raise on this handle. *)
Record LiveSession : Type := mkSession { sendThrows : bool; closeThrows : bool }.

Inductive TrackKind : Type := audio | video.

Record MediaTrack : Type := mkTrack { kind : TrackKind; enabled : bool }.

(** The callbacks the component hands to [setTimeout]. *)
Inductive TimeoutCallback : Type :=
| TerminationTimeout (reason : jsstring)
| ClearViolationMessage
| ClearSilenceTriggered.

Record FunctionCall : Type :=
  mkCall { fc_id : jsstring; fc_name : jsstring; fc_reason : option jsstring }.

(** What the handlers modelled here pass to the session: a text directive
    ([sendRealtimeInput] with a [text]) or the acknowledgement of a batch of
    tool calls ([sendToolResponse], by id and name). The microphone frames,
    which the capture callback streams to the session one by one
    ([sendRealtimeInput] with a [media] blob), are not part of this log. *)
Inductive Outgoing : Type :=
| RealtimeText (t : jsstring)
| ToolResponse (calls : list (jsstring * jsstring)).

Record State : Type := mkState {
  (* React state *)
  status : Status;
  isMuted : bool;
  transcriptLines : list TranscriptLine;
  isUserSpeaking : bool;
  silenceTriggered : bool;
  systemMessageStatus : option jsstring;
  timeLeft : Z;
  warningCount : Z;
  violationMessage : option jsstring;
  (* refs *)
  isMountedRef : bool;
  audioContextRef : option AudioContextState;
  inputAudioContextRef : option AudioContextState;
  scriptProcessorRef : option ScriptProcessor;
  sourcesRef : list AudioSource;
  nextAudioStartTimeRef : Q;
  sessionRef : option LiveSession;
  streamRef : option (list MediaTrack);
  terminationTriggeredRef : bool;
  isConnectedRef : bool;
  isAiSpeakingRef : bool;
  lastUserSpeechTimeRef : Z;
  noiseFloorRef : float;
  fullTranscriptHistory : list jsstring;
  isWaitingForResponseRef : bool;
  lastAiTurnEndTimeRef : Z;
  isProcessingTimeoutRef : bool;
  silenceWarningCountRef : Z;
  (* the environment: the clock, pending timeouts, and a log of the effects *)
  nowMs : Z;
  timeouts : list (Z * TimeoutCallback);
  countdownInterval : bool;
  sent : list Outgoing;
  completed : list (jsstring * option jsstring);
  disconnectCalls : nat;
  stoppedSources : list nat;
  scheduled : list AudioSource;
  nextSourceId : nat;
  preventedDefaults : nat
}.

Definition eta (s : State) : State :=
  mkState (status s) (isMuted s) (transcriptLines s) (isUserSpeaking s)
    (silenceTriggered s) (systemMessageStatus s) (timeLeft s) (warningCount s)
    (violationMessage s) (isMountedRef s) (audioContextRef s)
    (inputAudioContextRef s) (scriptProcessorRef s) (sourcesRef s)
    (nextAudioStartTimeRef s) (sessionRef s) (streamRef s)
    (terminationTriggeredRef s) (isConnectedRef s) (isAiSpeakingRef s)
    (lastUserSpeechTimeRef s) (noiseFloorRef s) (fullTranscriptHistory s)
    (isWaitingForResponseRef s) (lastAiTurnEndTimeRef s)
    (isProcessingTimeoutRef s) (silenceWarningCountRef s) (nowMs s)
    (timeouts s) (countdownInterval s) (sent s) (completed s)
    (disconnectCalls s) (stoppedSources s) (scheduled s) (nextSourceId s)
    (preventedDefaults s).

(** [update s (f s) v] is [s] with field [f] replaced by [v]. *)
Ltac update s old v :=
  let t := eval cbv delta [eta] beta in (eta s) in
  match eval pattern old in t with
  | ?f _ => let r := eval cbv beta in (f v) in exact r
  end.

Definition set_status (v : Status) (s : State) : State :=
  ltac:(update s (status s) v).
Definition set_isMuted (v : bool) (s : State) : State :=
  ltac:(update s (isMuted s) v).
Definition set_transcriptLines (v : list TranscriptLine) (s : State) : State :=
  ltac:(update s (transcriptLines s) v).
Definition set_isUserSpeaking (v : bool) (s : State) : State :=
  ltac:(update s (isUserSpeaking s) v).
Definition set_silenceTriggered (v : bool) (s : State) : State :=
  ltac:(update s (silenceTriggered s) v).
Definition set_systemMessageStatus (v : option jsstring) (s : State) : State :=
  ltac:(update s (systemMessageStatus s) v).
Definition set_timeLeft (v : Z) (s : State) : State :=
  ltac:(update s (timeLeft s) v).
Definition set_warningCount (v : Z) (s : State) : State :=
  ltac:(update s (warningCount s) v).
Definition set_violationMessage (v : option jsstring) (s : State) : State :=
  ltac:(update s (violationMessage s) v).
Definition set_isMountedRef (v : bool) (s : State) : State :=
  ltac:(update s (isMountedRef s) v).
Definition set_audioContextRef (v : option AudioContextState) (s : State) : State :=
  ltac:(update s (audioContextRef s) v).
Definition set_inputAudioContextRef (v : option AudioContextState) (s : State) : State :=
  ltac:(update s (inputAudioContextRef s) v).
Definition set_scriptProcessorRef (v : option ScriptProcessor) (s : State) : State :=
  ltac:(update s (scriptProcessorRef s) v).
Definition set_sourcesRef (v : list AudioSource) (s : State) : State :=
  ltac:(update s (sourcesRef s) v).
Definition set_nextAudioStartTimeRef (v : Q) (s : State) : State :=
  ltac:(update s (nextAudioStartTimeRef s) v).
Definition set_sessionRef (v : option LiveSession) (s : State) : State :=
  ltac:(update s (sessionRef s) v).
Definition set_streamRef (v : option (list MediaTrack)) (s : State) : State :=
  ltac:(update s (streamRef s) v).
Definition set_terminationTriggeredRef (v : bool) (s : State) : State :=
  ltac:(update s (terminationTriggeredRef s) v).
Definition set_isConnectedRef (v : bool) (s : State) : State :=
  ltac:(update s (isConnectedRef s) v).
Definition set_isAiSpeakingRef (v : bool) (s : State) : State :=
  ltac:(update s (isAiSpeakingRef s) v).
Definition set_lastUserSpeechTimeRef (v : Z) (s : State) : State :=
  ltac:(update s (lastUserSpeechTimeRef s) v).
Definition set_noiseFloorRef (v : float) (s : State) : State :=
  ltac:(update s (noiseFloorRef s) v).
Definition set_fullTranscriptHistory (v : list jsstring) (s : State) : State :=
  ltac:(update s (fullTranscriptHistory s) v).
Definition set_isWaitingForResponseRef (v : bool) (s : State) : State :=
  ltac:(update s (isWaitingForResponseRef s) v).
Definition set_lastAiTurnEndTimeRef (v : Z) (s : State) : State :=
  ltac:(update s (lastAiTurnEndTimeRef s) v).
Definition set_isProcessingTimeoutRef (v : bool) (s : State) : State :=
  ltac:(update s (isProcessingTimeoutRef s) v).
Definition set_silenceWarningCountRef (v : Z) (s : State) : State :=
  ltac:(update s (silenceWarningCountRef s) v).
Definition set_nowMs (v : Z) (s : State) : State :=
  ltac:(update s (nowMs s) v).
Definition set_timeouts (v : list (Z * TimeoutCallback)) (s : State) : State :=
  ltac:(update s (timeouts s) v).
Definition set_countdownInterval (v : bool) (s : State) : State :=
  ltac:(update s (countdownInterval s) v).
Definition set_sent (v : list Outgoing) (s : State) : State :=
  ltac:(update s (sent s) v).
Definition set_completed (v : list (jsstring * option jsstring)) (s : State) : State :=
  ltac:(update s (completed s) v).
Definition set_disconnectCalls (v : nat) (s : State) : State :=
  ltac:(update s (disconnectCalls s) v).
Definition set_stoppedSources (v : list nat) (s : State) : State :=
  ltac:(update s (stoppedSources s) v).
Definition set_scheduled (v : list AudioSource) (s : State) : State :=
  ltac:(update s (scheduled s) v).
Definition set_nextSourceId (v : nat) (s : State) : State :=
  ltac:(update s (nextSourceId s) v).
Definition set_preventedDefaults (v : nat) (s : State) : State :=
  ltac:(update s (preventedDefaults s) v).

(** ** Timeouts *)

(** The queue of pending [setTimeout] callbacks is kept ordered by due time;
    callbacks due at the same instant run in the order they were registered. *)
Fixpoint insertTimeout (t : Z * TimeoutCallback) (q : list (Z * TimeoutCallback))
  : list (Z * TimeoutCallback) :=
  match q with
  | [] => [t]
  | u :: q' => if fst t <? fst u then t :: q else u :: insertTimeout t q'
  end.

Definition setTimeout (cb : TimeoutCallback) (delay : Z) (s : State) : State :=
  set_timeouts (insertTimeout (nowMs s + delay, cb) (timeouts s)) s.

(** ** Helpers on arrays *)

Fixpoint lastOf {A : Type} (l : list A) : option A :=
  match l with
  | [] => None
  | [x] => Some x
  | _ :: l' => lastOf l'
  end.

Definition newline : jsstring := [10%N].

(** ** Teardown and the termination latch (lines 77-131) *)

Definition closeContext (c : option AudioContextState) : option AudioContextState :=
  match c with
  | Some _ => Some ctx_closed
  | None => None
  end.

Definition disconnect (s : State) : State :=
  let s := set_isConnectedRef false s in
  (* kill the audio processor loop *)
  let s := set_scriptProcessorRef None s in
  let s := match sessionRef s with
           | Some h => if closeThrows h then s else set_sessionRef None s
           | None => s
           end in
  (* every track of the stream is stopped and the stream is dropped *)
  let s := set_streamRef None s in
  let s := set_audioContextRef (closeContext (audioContextRef s)) s in
  let s := set_inputAudioContextRef (closeContext (inputAudioContextRef s)) s in
  let s := set_stoppedSources (stoppedSources s ++ map source_id (sourcesRef s)) s in
  let s := set_sourcesRef [] s in
  let s := set_nextAudioStartTimeRef 0%Q s in
  set_disconnectCalls (S (disconnectCalls s)) s.

(** The [onComplete] prop: the parent's callback, recorded in the log. *)
Definition onComplete (transcript : jsstring) (terminationReason : option jsstring)
  (s : State) : State :=
  set_completed (completed s ++ [(transcript, terminationReason)]) s.

Definition handleTermination (reason : jsstring) (s : State) : State :=
  if terminationTriggeredRef s then s
  else
    let s := set_terminationTriggeredRef true s in
    (* delay slightly to ensure any final audio plays *)
    setTimeout (TerminationTimeout reason) 2000 s.

Definition runTimeout (cb : TimeoutCallback) (s : State) : State :=
  match cb with
  | TerminationTimeout reason =>
      let s := disconnect s in
      onComplete (join newline (fullTranscriptHistory s)) (Some reason) s
  | ClearViolationMessage => set_violationMessage None s
  | ClearSilenceTriggered => set_silenceTriggered false s
  end.

Definition isDue (t : Z) (p : Z * TimeoutCallback) : bool := fst p <=? t.

(** [ms] milliseconds pass: the callbacks that are due run in order, the
    others stay pending. *)
Definition advance (ms : Z) (s : State) : State :=
  let t := nowMs s + ms in
  let q := timeouts s in
  let s := set_nowMs t s in
  let s := set_timeouts (filter (fun p => negb (isDue t p)) q) s in
  fold_left (fun s p => runTimeout (snd p) s) (filter (isDue t) q) s.

(** ** Countdown (lines 133-148) *)

(** The callback of the countdown [timer], run every second while connected. *)
Definition countdownTick (s : State) : State :=
  let prev := timeLeft s in
  if prev <=? 1 then
    let s := set_countdownInterval false s in
    let s := handleTermination (js "Time Limit Exceeded") s in
    set_timeLeft 0 s
  else set_timeLeft (prev - 1) s.

(** ** Proctoring (lines 150-179) *)

Definition securityViolation : jsstring :=
  js "Security Violation: Multiple breaches detected.".

Definition triggerViolation (msg : jsstring) (s : State) : State :=
  let s := set_violationMessage (Some msg) s in
  let newCount := warningCount s + 1 in
  let s := if newCount >=? 3 then handleTermination securityViolation s else s in
  let s := set_warningCount newCount s in
  setTimeout ClearViolationMessage 3000 s.

Definition handleVisibilityChange (hidden : bool) (s : State) : State :=
  if hidden then triggerViolation (js "Tab switch detected.") s else s.

Definition preventContextMenu (s : State) : State :=
  set_preventedDefaults (S (preventedDefaults s)) s.

(** ** Voice activity detection (lines 349-377) *)

(** [Math.max] on two numbers: NaN if either is NaN, and [+0] above [-0]. *)
Definition Math_max (a b : float) : float :=
  match PrimFloat.compare a b with
  | FLt => b
  | FGt => a
  | FEq => if PrimFloat.is_zero a && PrimFloat.get_sign a then b else a
  | FNotComparable => nan
  end.

(** Root mean square of a frame, as the capture callback computes it. *)
Definition rmsOf (inputData : list float) : float :=
  let sum := fold_left (fun sum x => sum + x * x)%float inputData 0%float in
  sqrt (sum / of_uint63 (Uint63.of_Z (Z.of_nat (List.length inputData)))).

Definition noiseFloorUpdate (currentNoise rms : float) : float :=
  let alpha := 0.05%float in
  if (rms <? currentNoise)%float then (currentNoise * 0.90 + rms * 0.10)%float
  else if (rms <? currentNoise * 3)%float
       then (currentNoise * (1 - alpha) + rms * alpha)%float
       else currentNoise.

Definition detectionThreshold (noiseFloor : float) : float :=
  Math_max 0.03%float (noiseFloor * 6)%float.

(** The VAD block of the capture callback, on a frame whose RMS is [rms]. *)
Definition vad (rms : float) (s : State) : State :=
  let s := set_noiseFloorRef (noiseFloorUpdate (noiseFloorRef s) rms) s in
  if (detectionThreshold (noiseFloorRef s) <? rms)%float then
    let s := set_lastUserSpeechTimeRef (nowMs s) s in
    let s := set_isUserSpeaking true s in
    let s := set_isWaitingForResponseRef false s in
    let s := set_systemMessageStatus None s in
    (* the user spoke: reset the silence warning count *)
    set_silenceWarningCountRef 0 s
  else set_isUserSpeaking false s.

(** The capture callback up to the end of the VAD block. What follows it in the
    source (lines 379-392: the frame is resampled and encoded by [utils/audio]
    and streamed to the session as a [media] blob) touches none of the refs
    and none of the React state, and is not recorded in [sent]. *)
Definition onaudioprocess (inputData : list float) (s : State) : State :=
  if negb (isConnectedRef s) || negb (isMountedRef s) then s
  else vad (rmsOf inputData) s.

(** ** Session callbacks (lines 337-534) *)

Record InlineAudio : Type :=
  mkAudio { audioData : jsstring;       (* [inlineData.data], base64 *)
            bufferDuration : Q }.       (* [duration] of the decoded buffer *)

Record ServerContent : Type := mkContent {
  turnComplete : bool;
  interrupted : bool;
  modelTurnText : option jsstring;          (* [modelTurn?.parts?.[0]?.text] *)
  inlineData : option InlineAudio;          (* [modelTurn?.parts?.[0]?.inlineData] *)
  inputTranscriptionText : option jsstring  (* [inputTranscription?.text] *)
}.

Record Message : Type := mkMessage {
  serverContent : option ServerContent;
  toolCall : option (list FunctionCall)     (* [toolCall.functionCalls] *)
}.

Definition onopen (s : State) : State :=
  if negb (isMountedRef s) then s
  else
    let s := set_status connected s in
    let s := set_isConnectedRef true s in
    let s := set_lastUserSpeechTimeRef (nowMs s) s in
    (* reset the audio queue cursor *)
    let s := set_nextAudioStartTimeRef 0%Q s in
    match scriptProcessorRef s with
    | Some _ => set_scriptProcessorRef (Some (mkProcessor true)) s
    | None => s
    end.

Definition handleToolCall (functionCalls : list FunctionCall) (s : State) : State :=
  match find (fun f => JSString.eqb (fc_name f) (js "endInterview")) functionCalls with
  | Some call =>
      (* acknowledge every call of the batch *)
      let s := set_sent (sent s ++
                 [ToolResponse (map (fun fc => (fc_id fc, fc_name fc)) functionCalls)]) s in
      let reason := match fc_reason call with
                    | Some r => if truthy r then r else js "Completed"
                    | None => js "Completed"
                    end in
      handleTermination reason s
  | None => s
  end.

(** The interruption branch: clear the audio queue at once. *)
Definition handleInterrupted (s : State) : State :=
  let s := set_stoppedSources (stoppedSources s ++ map source_id (sourcesRef s)) s in
  let s := set_sourcesRef [] s in
  let s := set_nextAudioStartTimeRef 0%Q s in
  let s := set_isAiSpeakingRef false s in
  let s := set_isWaitingForResponseRef false s in
  let s := set_systemMessageStatus None s in
  set_isProcessingTimeoutRef false s.

Definition handleContent (s : State) : State :=
  let s := set_isAiSpeakingRef true s in
  let s := set_lastAiTurnEndTimeRef 0 s in
  let s := set_isWaitingForResponseRef false s in
  let s := set_systemMessageStatus None s in
  set_isProcessingTimeoutRef false s.

Definition handleTurnComplete (s : State) : State :=
  let s := set_isAiSpeakingRef false s in
  let s := set_lastAiTurnEndTimeRef (nowMs s) s in
  set_isWaitingForResponseRef true s.

(** Replace the last line of the display list by [line]. *)
Definition replaceLast (prev : list TranscriptLine) (line : TranscriptLine)
  : list TranscriptLine := removelast prev ++ [line].

Definition historyEndsWith (prefix : jsstring) (h : list jsstring) : bool :=
  match lastOf h with
  | Some e => startsWith prefix e
  | None => false
  end.

(** [h[h.length - 1] += suffix] *)
Definition appendToLast (h : list jsstring) (suffix : jsstring) : list jsstring :=
  match lastOf h with
  | Some e => removelast h ++ [e ++ suffix]
  | None => h
  end.

(** The agent's text (lines 457-477). *)
Definition handleAiTranscript (t : jsstring) (s : State) : State :=
  if negb (truthy t) then s else
  let displayText := trim t in
  if negb (truthy displayText) then s else
  let prev := transcriptLines s in
  let s := set_transcriptLines
             (match lastOf prev with
              | Some last =>
                  match speaker last with
                  | ai => (* append to the existing AI line *)
                      replaceLast prev
                        (mkLine (speaker last) (text last ++ js " " ++ displayText))
                  | user => prev ++ [mkLine ai displayText]
                  end
              | None => prev ++ [mkLine ai displayText]
              end) s in
  let h := fullTranscriptHistory s in
  set_fullTranscriptHistory
    (if historyEndsWith (js "AI:") h
     then appendToLast h (js " " ++ displayText)
     else h ++ [js "AI: " ++ displayText]) s.

(** The user's input transcription (lines 480-499). *)
Definition handleUserTranscript (t : jsstring) (s : State) : State :=
  if negb (truthy t) then s else
  let prev := transcriptLines s in
  let s := set_transcriptLines
             (match lastOf prev with
              | Some last =>
                  match speaker last with
                  | user => (* append to the existing user line *)
                      replaceLast prev (mkLine (speaker last) (text last ++ t))
                  | ai => prev ++ [mkLine user t]
                  end
              | None => prev ++ [mkLine user t]
              end) s in
  let h := fullTranscriptHistory s in
  set_fullTranscriptHistory
    (if historyEndsWith (js "User:") h
     then appendToLast h t
     else h ++ [js "User: " ++ t]) s.

(** Audio output (lines 502-522): schedule the decoded buffer; [now] is the
    reading of [ctx.currentTime]. *)
Definition enqueueAudio (now : Q) (a : InlineAudio) (s : State) : State :=
  if negb (truthy (audioData a)) then s else
  match audioContextRef s with
  | None => s
  | Some _ =>
      let start := Qmax now (nextAudioStartTimeRef s) in
      let source := mkSource (nextSourceId s) start (bufferDuration a) in
      let s := set_nextSourceId (S (nextSourceId s)) s in
      (* [source.start(startTime)] *)
      let s := set_scheduled (scheduled s ++ [source]) s in
      let s := set_nextAudioStartTimeRef (start + bufferDuration a)%Q s in
      set_sourcesRef (sourcesRef s ++ [source]) s
  end.

(** [source.onended]: the source leaves the active set. *)
Definition onended (id : nat) (s : State) : State :=
  set_sourcesRef (filter (fun src => negb (Nat.eqb (source_id src) id)) (sourcesRef s)) s.

Definition whenSome {A : Type} (o : option A) (f : A -> State -> State) (s : State)
  : State :=
  match o with
  | Some a => f a s
  | None => s
  end.

(** [if (b) { ... }] *)
Definition when (b : bool) (f : State -> State) (s : State) : State :=
  if b then f s else s.

(** Optional chaining: [o?.f] *)
Definition chain {A B : Type} (o : option A) (f : A -> option B) : option B :=
  match o with
  | Some a => f a
  | None => None
  end.

Definition flag (o : option bool) : bool :=
  match o with
  | Some b => b
  | None => false
  end.

Definition onmessage (message : Message) (now : Q) (s : State) : State :=
  let hasContent := match serverContent message with Some _ => true | None => false end in
  let isTurnComplete := flag (option_map turnComplete (serverContent message)) in
  let isInterrupted := flag (option_map interrupted (serverContent message)) in
  let s := whenSome (toolCall message) handleToolCall s in
  let s := when isInterrupted handleInterrupted s in
  let s := when hasContent handleContent s in
  let s := when isTurnComplete handleTurnComplete s in
  let s := whenSome (chain (serverContent message) modelTurnText) handleAiTranscript s in
  let s := whenSome (chain (serverContent message) inputTranscriptionText)
             handleUserTranscript s in
  whenSome (chain (serverContent message) inlineData) (enqueueAudio now) s.

Definition onerror (s : State) : State := set_status error s.

Definition onclose (s : State) : State :=
  if isConnectedRef s then set_status connecting s else s.

(** ** Silence monitor (lines 594-648) *)

Definition sendSystemMessage (t : jsstring) (s : State) : State :=
  match sessionRef s with
  | None => s
  | Some h =>
      if sendThrows h then s
      else
        let s := set_sent (sent s ++ [RealtimeText t]) s in
        let s := set_systemMessageStatus
                   (Some (js "System: Prompting AI (" ++
                          (if includes (js "still") t then js "Skip" else js "Reminder") ++
                          js ")...")) s in
        let s := set_silenceTriggered true s in
        setTimeout ClearSilenceTriggered 3000 s
  end.

Definition silentEntry : jsstring := js "[No Answer - Time Limit Exceeded]".

Definition stillSilentAlert : jsstring :=
  js "System Alert: Candidate is still silent. Treat this as a failed answer. Say exactly: 'I will continue to the next question.' and ask the next question.".

(** The apostrophe of the reminder is U+2019. *)
Definition silentAlert : jsstring :=
  js "System Alert: Candidate is silent. Say exactly: 'Please start answering when you"
  ++ [8217%N] ++ js "re ready.'".

(** The callback of [silenceInterval], run every second. *)
Definition silenceTick (s : State) : State :=
  if negb (isConnectedRef s) then s else
  let now := nowMs s in
  if isWaitingForResponseRef s && negb (isAiSpeakingRef s)
     && negb (isProcessingTimeoutRef s) then
    let timeSinceAiFinished := now - lastAiTurnEndTimeRef s in
    if timeSinceAiFinished >? 10000 then
      (* lock the timer until the AI responds *)
      let s := set_isProcessingTimeoutRef true s in
      (* increment the strike count *)
      let s := set_silenceWarningCountRef (silenceWarningCountRef s + 1) s in
      if silenceWarningCountRef s >? 2 then
        let s := set_transcriptLines (transcriptLines s ++ [mkLine user silentEntry]) s in
        let s := set_fullTranscriptHistory
                   (fullTranscriptHistory s ++ [js "User: " ++ silentEntry]) s in
        (* reset the silence count for the next question *)
        let s := set_silenceWarningCountRef 0 s in
        sendSystemMessage stillSilentAlert s
      else sendSystemMessage silentAlert s
    else s
  else s.

(** ** Mute toggle (lines 657-662) *)

Definition toggleMute (s : State) : State :=
  match streamRef s with
  | Some tracks =>
      let tracks' := map (fun t => match kind t with
                                   | audio => mkTrack audio (negb (isMuted s))
                                   | video => t
                                   end) tracks in
      let s' := set_streamRef (Some tracks') s in
      set_isMuted (negb (isMuted s)) s'
  | None => s
  end.

(** ** The component as a state machine *)

Definition initial (t0 : Z) : State :=
  {| status := connecting; isMuted := false; transcriptLines := [];
     isUserSpeaking := false; silenceTriggered := false;
     systemMessageStatus := None; timeLeft := 600; warningCount := 0;
     violationMessage := None;
     isMountedRef := true; audioContextRef := None; inputAudioContextRef := None;
     scriptProcessorRef := None; sourcesRef := []; nextAudioStartTimeRef := 0%Q;
     sessionRef := None; streamRef := None; terminationTriggeredRef := false;
     isConnectedRef := false; isAiSpeakingRef := false;
     lastUserSpeechTimeRef := t0; noiseFloorRef := 0.002%float;
     fullTranscriptHistory := []; isWaitingForResponseRef := false;
     lastAiTurnEndTimeRef := 0; isProcessingTimeoutRef := false;
     silenceWarningCountRef := 0;
     nowMs := t0; timeouts := []; countdownInterval := false; sent := [];
     completed := []; disconnectCalls := 0%nat; stoppedSources := [];
     scheduled := []; nextSourceId := 0%nat; preventedDefaults := 0%nat |}.

(** [initSession] up to the connection request (lines 283-329): contexts,
    media stream and capture node are in place. The refs are assigned whether
    or not the component is still mounted; the mount is checked only
    afterwards, before the connection is requested. *)
Definition mediaReady (tracks : list MediaTrack) (s : State) : State :=
  let s := set_audioContextRef (Some ctx_running) s in
  let s := set_inputAudioContextRef (Some ctx_running) s in
  let s := set_streamRef (Some tracks) s in
  set_scriptProcessorRef (Some (mkProcessor false)) s.

(** The cleanup of the main effect, on unmount. *)
Definition unmount (s : State) : State :=
  let s := set_isMountedRef false s in
  disconnect s.

Inductive Event : Type :=
| EvMediaReady (tracks : list MediaTrack)
| EvSessionResolved (h : LiveSession)      (* [sessionRef.current = await sessionPromise] *)
| EvOpen
| EvMessage (m : Message) (now : Q)
| EvError
| EvClose
| EvAudioProcess (inputData : list float)
| EvSourceEnded (id : nat)
| EvSilenceTick
| EvCountdownTick
| EvVisibilityChange (hidden : bool)
| EvContextMenu
| EvToggleMute
| EvAdvance (ms : N)                       (* time passes, due timeouts run *)
| EvUnmount.

(** The countdown effect depends on [status]: its interval is created when the
    status becomes [connected] and cleared when the status leaves it. *)
Definition statusEffect (before : Status) (s : State) : State :=
  match before, status s with
  | connected, connected => s
  | _, connected => set_countdownInterval true s
  | _, _ => set_countdownInterval false s
  end.

(** Which callback an event runs. Listeners and intervals of the component
    exist while it is mounted. *)
Definition handle (e : Event) (s : State) : State :=
  match e with
  | EvMediaReady tracks => mediaReady tracks s
  | EvSessionResolved h => set_sessionRef (Some h) s
  | EvOpen => onopen s
  | EvMessage m now => onmessage m now s
  | EvError => onerror s
  | EvClose => onclose s
  | EvAudioProcess inputData =>
      match scriptProcessorRef s with
      | Some p => if callbackInstalled p then onaudioprocess inputData s else s
      | None => s
      end
  | EvSourceEnded id => onended id s
  | EvSilenceTick => if isMountedRef s then silenceTick s else s
  | EvCountdownTick =>
      if isMountedRef s && countdownInterval s then countdownTick s else s
  | EvVisibilityChange hidden =>
      if isMountedRef s then handleVisibilityChange hidden s else s
  | EvContextMenu => if isMountedRef s then preventContextMenu s else s
  | EvToggleMute => if isMountedRef s then toggleMute s else s
  | EvAdvance ms => advance (Z.of_N ms) s
  | EvUnmount => if isMountedRef s then unmount s else s
  end.

Definition step (e : Event) (s : State) : State :=
  statusEffect (status s) (handle e s).

Definition run (es : list Event) (s : State) : State :=
  fold_left (fun s e => step e s) es s.

(** A session just connected: media acquired, handle in place, channel open. *)
Definition listening : State :=
  run [EvMediaReady [mkTrack audio true; mkTrack video true];
       EvSessionResolved (mkSession false false); EvOpen] (initial 0).

(** ** The vocabulary of the properties *)

Section Termination.

(** The termination callbacks of a timeout queue, with their due times. *)
Fixpoint terminations (q : list (Z * TimeoutCallback)) : list (Z * jsstring) :=
  match q with
  | [] => []
  | (due, TerminationTimeout r) :: q' => (due, r) :: terminations q'
  | _ :: q' => terminations q'
  end.

Definition pendingTerminations (s : State) : list (Z * jsstring) :=
  terminations (timeouts s).

(** No termination has been requested yet. *)
Definition fresh (s : State) : Prop :=
  terminationTriggeredRef s = false /\ pendingTerminations s = [] /\
  completed s = [] /\ disconnectCalls s = 0%nat.

(** The latch is set for reason [r]: its callback is pending and will be due
    within two seconds, or it has run, once. [h] is the transcript history. *)
Definition terminating (r : jsstring) (h : list jsstring) (s : State) : Prop :=
  terminationTriggeredRef s = true /\ fullTranscriptHistory s = h /\
  ((exists due, pendingTerminations s = [(due, r)] /\ due <= nowMs s + 2000 /\
                completed s = [] /\ disconnectCalls s = 0%nat) \/
   (pendingTerminations s = [] /\ completed s = [(join newline h, Some r)] /\
    disconnectCalls s = 1%nat)).

(** A history of the termination entry point: invocations, from whatever
    trigger, and time passing in between. *)
Inductive Call : Type :=
| Invoke (reason : jsstring)
| Elapse (ms : N).

Definition call (c : Call) (s : State) : State :=
  match c with
  | Invoke reason => handleTermination reason s
  | Elapse ms => advance (Z.of_N ms) s
  end.

Definition calls (cs : list Call) (s : State) : State :=
  fold_left (fun s c => call c s) cs s.

(** The reason of the first invocation. *)
Fixpoint firstReason (cs : list Call) : option jsstring :=
  match cs with
  | [] => None
  | Invoke r :: _ => Some r
  | Elapse _ :: cs' => firstReason cs'
  end.

End Termination.

Section Silence.

(** The agent completes a turn. *)
Definition agentTurn : Message :=
  mkMessage (Some (mkContent true false None None None)) None.

(** A connected session whose agent finished a turn 11 s ago. *)
Definition awaitingCandidate : State :=
  run [EvMessage agentTurn 0%Q; EvAdvance 11000%N] listening.

End Silence.

Section Transcript.

Definition speakerPrefix (sp : Speaker) : jsstring :=
  match sp with
  | ai => js "AI: "
  | user => js "User: "
  end.

(** The history entry that corresponds to a display line. *)
Definition historyEntry (line : TranscriptLine) : jsstring :=
  speakerPrefix (speaker line) ++ text line.

(** The display list and the flat history tell the same story. *)
Definition consistent (s : State) : Prop :=
  fullTranscriptHistory s = map historyEntry (transcriptLines s).

(** [s'] has the transcript of [s]. *)
Definition sameTranscript (s s' : State) : Prop :=
  transcriptLines s' = transcriptLines s /\
  fullTranscriptHistory s' = fullTranscriptHistory s.

Definition userFragments (ts : list jsstring) (s : State) : State :=
  fold_left (fun s t => handleUserTranscript t s) ts s.

Definition agentFragments (ts : list jsstring) (s : State) : State :=
  fold_left (fun s t => handleAiTranscript t s) ts s.

End Transcript.

Section VAD.

Local Open Scope float_scope.

(** A frame of digital silence, of the size the capture node delivers. *)
Definition silentFrame : list float := repeat 0 4096.

(** The capture callback, frame after frame. *)
Definition capture (frames : list (list float)) (s : State) : State :=
  fold_left (fun s frame => onaudioprocess frame s) frames s.

(** The same update in exact arithmetic. *)
Definition noiseFloorUpdateQ (currentNoise rms : Q) : Q :=
  let alpha := (5 # 100)%Q in
  if Qlt_le_dec rms currentNoise then (currentNoise * (90 # 100) + rms * (10 # 100))%Q
  else if Qlt_le_dec rms (currentNoise * 3)
       then (currentNoise * (1 - alpha) + rms * alpha)%Q
       else currentNoise.

End VAD.

Section Playback.

Local Open Scope Q_scope.

Definition audioMessage (data : jsstring) (seconds : Q) : Message :=
  mkMessage (Some (mkContent false false None (Some (mkAudio data seconds)) None)) None.

Definition interruption : Message :=
  mkMessage (Some (mkContent false true None None None)) None.

(** Two seconds of agent audio, received at audio time 3. *)
Definition playing : State :=
  run [EvMessage (audioMessage (js "UklGRg") 2) 3] listening.

End Playback.

Section Proctoring.

(** The state that the markup of the component reads (lines 664-814); the
    drawer of the transcript also reads its own [showTranscript] toggle. *)
Record Rendered : Type := mkRendered {
  shownStatus : Status;
  shownTimeLeft : Z;
  shownSystemMessage : option jsstring;
  shownSilenceTriggered : bool;
  shownMuted : bool;
  shownTranscript : list TranscriptLine
}.

Definition rendered (s : State) : Rendered :=
  mkRendered (status s) (timeLeft s) (systemMessageStatus s) (silenceTriggered s)
    (isMuted s) (transcriptLines s).

(** The state of [triggerViolation] before its last step, the registration of
    the callback that clears the warning. *)
Definition struck (msg : jsstring) (s : State) : State :=
  let s := set_violationMessage (Some msg) s in
  let newCount := warningCount s + 1 in
  let s := if newCount >=? 3 then handleTermination securityViolation s else s in
  set_warningCount newCount s.

(** [s'] has the termination log of [s]. *)
Definition sameTermination (s s' : State) : Prop :=
  terminationTriggeredRef s' = terminationTriggeredRef s /\
  pendingTerminations s' = pendingTerminations s /\
  completed s' = completed s /\
  disconnectCalls s' = disconnectCalls s /\
  fullTranscriptHistory s' = fullTranscriptHistory s /\
  nowMs s' = nowMs s.

(** What the proctoring monitor observes. *)
Inductive Observation : Type :=
| TabHidden                 (* [visibilitychange] with the document hidden *)
| TabShown                  (* [visibilitychange] with the document visible *)
| ContextMenu               (* [contextmenu], which is only prevented *)
| Pause (ms : N).           (* time passes *)

Definition observe (o : Observation) (s : State) : State :=
  match o with
  | TabHidden => handleVisibilityChange true s
  | TabShown => handleVisibilityChange false s
  | ContextMenu => preventContextMenu s
  | Pause ms => advance (Z.of_N ms) s
  end.

Definition observations (os : list Observation) (s : State) : State :=
  fold_left (fun s o => observe o s) os s.

Fixpoint violations (os : list Observation) : Z :=
  match os with
  | [] => 0
  | TabHidden :: os' => 1 + violations os'
  | _ :: os' => violations os'
  end.

(** The strike count follows the violations, and the termination log is
    that of a single termination from the third strike on. *)
Definition proctored (n : Z) (h : list jsstring) (s : State) : Prop :=
  warningCount s = n /\
  if n <? 3 then fresh s /\ fullTranscriptHistory s = h
  else terminating securityViolation h s.

End Proctoring.

Section Arbitration.

(** At most one termination is in flight or done, and exactly one once the
    latch is set. *)
Definition once (s : State) : Prop :=
  (List.length (pendingTerminations s) + List.length (completed s))%nat =
  if terminationTriggeredRef s then 1%nat else 0%nat.

(** [s'] has the latch, the pending terminations and the completions of [s]. *)
Definition sameLog (s s' : State) : Prop :=
  terminationTriggeredRef s' = terminationTriggeredRef s /\
  pendingTerminations s' = pendingTerminations s /\
  completed s' = completed s.

End Arbitration.

Section Mute.

(** Every audio track of the stream has its [enabled] flag equal to [b]. *)
Definition audioEnabled (b : bool) (s : State) : Prop :=
  exists tracks,
    streamRef s = Some tracks /\
    Forall (fun t => kind t = audio -> enabled t = b) tracks.

End Mute.

Section Monitor.

(** The text directives among what was passed to the session. *)
Fixpoint directives (l : list Outgoing) : list jsstring :=
  match l with
  | [] => []
  | RealtimeText t :: l' => t :: directives l'
  | ToolResponse _ :: l' => directives l'
  end.

Definition isMessage (e : Event) : bool :=
  match e with
  | EvMessage _ _ => true
  | _ => false
  end.

(** A trace during which the agent sends nothing. *)
Definition quiet (es : list Event) : bool := forallb (fun e => negb (isMessage e)) es.

(** The reason a call of [endInterview] carries: [args?.reason || "Completed"]. *)
Definition reasonOf (call : FunctionCall) : jsstring :=
  match fc_reason call with
  | Some r => if truthy r then r else js "Completed"
  | None => js "Completed"
  end.

Definition isEndInterview (f : FunctionCall) : bool :=
  JSString.eqb (fc_name f) (js "endInterview").

(** The counters stay in range, and a clock at zero or a third strike means
    that termination has been requested. *)
Definition counted (s : State) : Prop :=
  0 <= timeLeft s <= 600 /\
  0 <= silenceWarningCountRef s <= 2 /\
  0 <= warningCount s /\
  (timeLeft s = 0 -> terminationTriggeredRef s = true) /\
  (3 <= warningCount s -> terminationTriggeredRef s = true).

(** Two consecutive display lines: the speakers differ, unless the second one
    is a candidate line that begins with the skip marker. *)
Definition follows (a b : TranscriptLine) : bool :=
  match speaker a, speaker b with
  | ai, ai => false
  | user, user => startsWith silentEntry (text b)
  | _, _ => true
  end.

Fixpoint alternating (l : list TranscriptLine) : bool :=
  match l with
  | [] => true
  | a :: l' =>
      match l' with
      | [] => true
      | b :: _ => follows a b && alternating l'
      end
  end.

(** No display line is empty, and the speakers take turns. *)
Definition wellFormed (s : State) : Prop :=
  Forall (fun line => text line <> []) (transcriptLines s) /\
  alternating (transcriptLines s) = true.

(** Every termination, pending or done, carries a reason that is not
    empty. *)
Definition reasoned (s : State) : Prop :=
  Forall (fun p => snd p <> []) (pendingTerminations s) /\
  Forall (fun c => exists r, snd c = Some r /\ r <> []) (completed s).

(** The audio sources are told apart: the stopped and the active ones are
    pairwise distinct and older than the next one, and every active source
    was scheduled. *)
Definition tracked (s : State) : Prop :=
  NoDup (stoppedSources s ++ map source_id (sourcesRef s)) /\
  Forall (fun id => (id < nextSourceId s)%nat)
    (stoppedSources s ++ map source_id (sourcesRef s)) /\
  (forall src, In src (sourcesRef s) -> In src (scheduled s)).

End Monitor.

(** ** Proof steps shared by the frame lemmas *)

(** Handlers that do not touch the transcript. *)
Ltac same_transcript :=
  repeat match goal with
         | |- context [if ?b then _ else _] => destruct b
         | |- context [match ?x with _ => _ end] => destruct x
         end;
  split; reflexivity.

Ltac same_log :=
  repeat match goal with
         | |- context [if ?b then _ else _] => destruct b
         | |- context [match ?x with _ => _ end] => destruct x
         end;
  repeat split.

End InterviewSession.

(** * The playback scheduler on doubles *)

(** The session model above keeps the audio clock in rationals. The scheduler
    computes on doubles: this module follows every assignment of the cursor
    (lines 518, 431, 347 and 117) and the calls of [source.start], with
    [Math.max] and the addition of binary64. An [Enqueue] stands for a
    message whose audio data is present while the audio context is in place,
    an [Opened] for [onopen] on a mounted component. *)

Module Scheduler.

Local Open Scope float_scope.

(** A call of [source.start(startTime)], for a buffer of the given duration. *)
Record Source : Type := mkSource { startTime : float; duration : float }.

Record State : Type := mkState {
  nextAudioStartTimeRef : float;
  started : list Source               (* the calls of [source.start], oldest first *)
}.

Definition initial : State := mkState 0 [].

(** Lines 513-518: [now] is the reading of [ctx.currentTime], [duration] is
    [buffer.duration]. *)
Definition enqueue (now duration : float) (s : State) : State :=
  let startTime := InterviewSession.Math_max now (nextAudioStartTimeRef s) in
  mkState (startTime + duration) (started s ++ [mkSource startTime duration]).

(** [nextAudioStartTimeRef.current = 0] *)
Definition reset (s : State) : State := mkState 0 (started s).

Inductive Operation : Type :=
| Enqueue (now duration : float)    (* a decoded buffer is scheduled *)
| Interrupted                       (* the interruption flush (line 431) *)
| Opened                            (* [onopen] (line 347) *)
| Disconnected.                     (* [disconnect] (line 117) *)

Definition operate (o : Operation) (s : State) : State :=
  match o with
  | Enqueue now duration => enqueue now duration s
  | Interrupted => reset s
  | Opened => reset s
  | Disconnected => reset s
  end.

Definition run (os : list Operation) (s : State) : State :=
  fold_left (fun s o => operate o s) os s.

Definition enqueues (batch : list (float * float)) : list Operation :=
  map (fun p => Enqueue (fst p) (snd p)) batch.

(** The audio clock and the duration of a buffer are numbers at or above 0. *)
Definition sound (o : Operation) : bool :=
  match o with
  | Enqueue now duration => (0 <=? now) && (0 <=? duration)
  | _ => true
  end.

(** The end of a source as the scheduler computes it, which is what it stores
    in the cursor. *)
Definition storedEnd (src : Source) : float := startTime src + duration src.

(** The number a double stands for (0 for the infinities and NaN). *)
Definition exact (x : float) : Q :=
  match FloatOps.Prim2SF x with
  | SpecFloat.S754_finite sign m e =>
      ((if sign then Zneg m else Zpos m) # 1) * Qpower 2 e
  | _ => 0
  end%Q.

(** When a source has played its buffer to the end. *)
Definition exactEnd (src : Source) : Q := (exact (startTime src) + exact (duration src))%Q.

End Scheduler.

(** * The completion handler of [App] *)

Module App.

Inductive AppStep : Type := FORM | INSTRUCTIONS | INTERVIEW | EVALUATING | RESULT.

Record CandidateInfo : Type := mkCandidate {
  name : jsstring;
  field : jsstring;
  jobDescription : jsstring;
  language : jsstring
}.

(** A value produced by [JSON.parse]. *)
Inductive JSValue : Type :=
| JNull
| JBool (b : bool)
| JNumber (x : float)
| JString (s : jsstring)
| JArray (items : list JSValue)
| JObject (fields : list (jsstring * JSValue)).

Record InterviewResult : Type := mkResult {
  rating : JSValue;
  feedback : JSValue;
  passed : bool;
  questions : JSValue;
  terminationReason : option jsstring
}.

(** What the scoring prompt is built from. *)
Record ScoringRequest : Type := mkRequest {
  req_candidate : option CandidateInfo;
  req_transcript : jsstring
}.

(** How the scoring request settles: it raises, or it returns a response
    whose [text] may be undefined. *)
Inductive Outcome : Type :=
| RequestThrows
| Responds (responseText : option jsstring).

Record AppState : Type := mkApp {
  step : AppStep;
  candidate : option CandidateInfo;
  result : option InterviewResult;
  (* the environment *)
  appNow : Z;
  disqualifications : list (Z * jsstring);  (* pending timeouts, with their reason *)
  scoringRequests : list ScoringRequest
}.

Definition set_step (v : AppStep) (a : AppState) : AppState :=
  mkApp v (candidate a) (result a) (appNow a) (disqualifications a) (scoringRequests a).
Definition set_result (v : option InterviewResult) (a : AppState) : AppState :=
  mkApp (step a) (candidate a) v (appNow a) (disqualifications a) (scoringRequests a).
Definition set_appNow (v : Z) (a : AppState) : AppState :=
  mkApp (step a) (candidate a) (result a) v (disqualifications a) (scoringRequests a).
Definition set_disqualifications (v : list (Z * jsstring)) (a : AppState) : AppState :=
  mkApp (step a) (candidate a) (result a) (appNow a) v (scoringRequests a).
Definition set_scoringRequests (v : list ScoringRequest) (a : AppState) : AppState :=
  mkApp (step a) (candidate a) (result a) (appNow a) (disqualifications a) v.

(** Truthiness of a parsed value. *)
Definition truthyValue (v : JSValue) : bool :=
  match v with
  | JNull => false
  | JBool b => b
  | JNumber x => negb (PrimFloat.eqb x 0 || PrimFloat.is_nan x)
  | JString s => truthy s
  | JArray _ | JObject _ => true
  end.

(** [v || d], where [v] may be undefined. *)
Definition orElse (v : option JSValue) (d : JSValue) : JSValue :=
  match v with
  | Some x => if truthyValue x then x else d
  | None => d
  end.

Fixpoint lookup (key : jsstring) (fields : list (jsstring * JSValue)) : option JSValue :=
  match fields with
  | [] => None
  | (k, v) :: fields' => if JSString.eqb k key then Some v else lookup key fields'
  end.

(** Reading one of the properties [rating], [feedback], [questions] of the
    parsed data: a [TypeError] on [null] ([None]); undefined on a value that
    is not an object; the field, if any, on an object. *)
Definition properties (data : JSValue) : option (jsstring -> option JSValue) :=
  match data with
  | JNull => None
  | JObject fields => Some (fun key => lookup key fields)
  | _ => Some (fun _ => None)
  end.

Definition errorResult : InterviewResult :=
  mkResult (JNumber 0)
    (JString (js "An error occurred during evaluation. Please try again."))
    false (JArray []) None.

Definition disqualification (reason : jsstring) : InterviewResult :=
  mkResult (JNumber 0) (JString (js "Interview terminated early.")) false (JArray [])
    (Some reason).

Section Handler.

(** [JSON.parse] ([None] when it raises a [SyntaxError]) and the conversion to
    a number of strings, arrays and objects belong to the engine. *)
Variable JSON_parse : jsstring -> option JSValue.
Variable coerce : JSValue -> float.

Definition toNumber (v : JSValue) : float :=
  match v with
  | JNumber x => x
  | JNull => 0%float
  | JBool b => if b then 1%float else 0%float
  | _ => coerce v
  end.

(** [response.text || '{}'] *)
Definition jsonTextOf (responseText : option jsstring) : jsstring :=
  match responseText with
  | Some t => if truthy t then t else js "{}"
  | None => js "{}"
  end.

(** The body of the [try] once the request has settled, and its [catch]. *)
Definition evaluate (o : Outcome) : InterviewResult :=
  match o with
  | RequestThrows => errorResult
  | Responds responseText =>
      match JSON_parse (jsonTextOf responseText) with
      | None => errorResult
      | Some data =>
          match properties data with
          | None => errorResult
          | Some get =>
              let rating := orElse (get (js "rating")) (JNumber 0) in
              let passed := (6 <? toNumber rating)%float in
              mkResult rating
                (orElse (get (js "feedback")) (JString (js "No feedback provided.")))
                passed
                (orElse (get (js "questions")) (JArray []))
                None
          end
      end
  end.

(** [terminationReason && terminationReason !== "Completed"]: the reason, when
    it disqualifies. *)
Definition disqualifying (terminationReason : option jsstring) : option jsstring :=
  match terminationReason with
  | Some r => if truthy r && negb (JSString.eqb r (js "Completed")) then Some r else None
  | None => None
  end.

(** [handleInterviewComplete]; [o] is how the scoring request settles if it
    is issued. *)
Definition handleInterviewComplete (o : Outcome) (transcript : jsstring)
  (terminationReason : option jsstring) (a : AppState) : AppState :=
  let a := set_step EVALUATING a in
  match disqualifying terminationReason with
  | Some r =>
      (* delay slightly to simulate processing *)
      set_disqualifications (disqualifications a ++ [(appNow a + 1500, r)]) a
  | None =>
      let a := set_scoringRequests
                 (scoringRequests a ++ [mkRequest (candidate a) transcript]) a in
      let a := set_result (Some (evaluate o)) a in
      set_step RESULT a
  end.

Definition showDisqualification (reason : jsstring) (a : AppState) : AppState :=
  set_step RESULT (set_result (Some (disqualification reason)) a).

(** [ms] milliseconds pass in the application. *)
Definition elapse (ms : Z) (a : AppState) : AppState :=
  let t := appNow a + ms in
  let q := disqualifications a in
  let a := set_appNow t a in
  let a := set_disqualifications (filter (fun p => negb (fst p <=? t)) q) a in
  fold_left (fun a p => showDisqualification (snd p) a)
    (filter (fun p => fst p <=? t) q) a.

End Handler.

(** The application showing the interview of [c], nothing pending. *)
Definition interviewing (c : CandidateInfo) : AppState :=
  mkApp INTERVIEW (Some c) None 0 [] [].

Definition quote : jsstring := [34%N].

(** A scoring response: rating 8, feedback "Solid.", no questions. *)
Definition scoreText : jsstring :=
  js "{" ++ quote ++ js "rating" ++ quote ++ js ":8," ++
  quote ++ js "feedback" ++ quote ++ js ":" ++ quote ++ js "Solid." ++ quote ++ js "," ++
  quote ++ js "questions" ++ quote ++ js ":[]}".

(** [JSON.parse] on the three texts used below. *)
Definition parseSample (t : jsstring) : option JSValue :=
  if JSString.eqb t (js "{}") then Some (JObject [])
  else if JSString.eqb t scoreText
       then Some (JObject [(js "rating", JNumber 8);
                           (js "feedback", JString (js "Solid."));
                           (js "questions", JArray [])])
       else if JSString.eqb t (js "null") then Some JNull
            else None.

Definition coerceSample (v : JSValue) : float := nan.

Definition jane : CandidateInfo :=
  mkCandidate (js "Jane Doe") (js "Backend Engineer") (js "Go services") (js "English").

(** ** Navigation (lines 10-21 and 130-147) *)

Definition set_candidate (v : option CandidateInfo) (a : AppState) : AppState :=
  mkApp (step a) v (result a) (appNow a) (disqualifications a) (scoringRequests a).

Definition handleFormSubmit (info : CandidateInfo) (a : AppState) : AppState :=
  let a := set_candidate (Some info) a in
  set_step INSTRUCTIONS a.

Definition startInterview (a : AppState) : AppState := set_step INTERVIEW a.

Definition resetApp (a : AppState) : AppState :=
  let a := set_candidate None a in
  let a := set_result None a in
  set_step FORM a.

(** [x === y] on steps *)
Definition eqStep (x y : AppStep) : bool :=
  match x, y with
  | FORM, FORM | INSTRUCTIONS, INSTRUCTIONS | INTERVIEW, INTERVIEW
  | EVALUATING, EVALUATING | RESULT, RESULT => true
  | _, _ => false
  end.

Definition steps : list (AppStep * jsstring) :=
  [(FORM, js "Profile"); (INSTRUCTIONS, js "Check"); (INTERVIEW, js "Live");
   (EVALUATING, js "Review"); (RESULT, js "Result")].

(** [l.findIndex(f)] *)
Fixpoint findIndex {A : Type} (f : A -> bool) (l : list A) : Z :=
  match l with
  | [] => -1
  | x :: l' =>
      if f x then 0
      else let i := findIndex f l' in if i =? -1 then -1 else i + 1
  end.

Definition currentStepIndex (a : AppState) : Z :=
  findIndex (fun s => eqStep (fst s) (step a)) steps.

Definition showHeader (a : AppState) : bool := negb (eqStep (step a) INTERVIEW).

Definition isLightBackground (a : AppState) : bool := eqStep (step a) RESULT.

(** How the stepper shows the entry at index [idx]. *)
Definition isActive (a : AppState) (idx : Z) : bool := idx =? currentStepIndex a.

Definition isCompleted (a : AppState) (idx : Z) : bool := idx <? currentStepIndex a.

(** The application as it starts. *)
Definition initialApp (t0 : Z) : AppState := mkApp FORM None None t0 [] [].

(** ** What [main] renders (lines 197-241) *)

Inductive Screen : Type :=
| CandidateFormScreen
| InstructionsScreen
| InterviewSessionScreen (c : CandidateInfo)
| EvaluatingScreen
| ResultScreenOf (r : InterviewResult) (candidateName : jsstring).

(** The children of [main] that are rendered, in order. *)
Definition main (a : AppState) : list Screen :=
  (if eqStep (step a) FORM then [CandidateFormScreen] else []) ++
  (if eqStep (step a) INSTRUCTIONS then [InstructionsScreen] else []) ++
  (if eqStep (step a) INTERVIEW
   then match candidate a with
        | Some c => [InterviewSessionScreen c]
        | None => []
        end
   else []) ++
  (if eqStep (step a) EVALUATING then [EvaluatingScreen] else []) ++
  (if eqStep (step a) RESULT
   then match result a, candidate a with
        | Some r, Some c => [ResultScreenOf r (name c)]
        | _, _ => []
        end
   else []).

End App.

(** * The profile form *)

Module CandidateForm.

Record Form : Type := mkForm {
  name : jsstring;
  jobDescription : jsstring;
  field : jsstring;
  language : jsstring
}.

(** The form as it is first shown. *)
Definition initialForm : Form := mkForm [] [] [] (js "English").

(** [handleSubmit]: the default action is prevented, and the profile goes to
    [onSubmit] when none of its fields is empty. *)
Definition handleSubmit {S : Type} (f : Form) (onSubmit : App.CandidateInfo -> S -> S)
  (s : S) : S :=
  if truthy (name f) && truthy (jobDescription f) && truthy (field f)
     && truthy (language f)
  then onSubmit (App.mkCandidate (name f) (field f) (jobDescription f) (language f)) s
  else s.

End CandidateForm.

(** * The instructions screen *)

Module Instructions.

Inductive NetworkQuality : Type := net_checking | excellent | net_fair | poor.

Inductive NoiseStatus : Type := noise_checking | good | noise_fair | bad.

Record State : Type := mkState {
  permissionGranted : option bool;
  networkQuality : NetworkQuality;
  latencyMs : Z;
  noiseStatus : NoiseStatus;
  analyserRef : bool;          (* the analyser is in place *)
  animationRef : bool;         (* a frame of [draw] is requested *)
  frameCountRef : Z
}.

Definition initial : State := mkState None net_checking 0 noise_checking false false 0.

(** [checkNetworkSpeed]: the probe took [duration] milliseconds, or failed. *)
Definition checkNetworkSpeed (probe : option Z) (s : State) : State :=
  match probe with
  | Some duration =>
      mkState (permissionGranted s)
        (if duration <? 150 then excellent
         else if duration <? 400 then net_fair else poor)
        duration (noiseStatus s) (analyserRef s) (animationRef s) (frameCountRef s)
  | None =>
      mkState (permissionGranted s) poor 999 (noiseStatus s) (analyserRef s)
        (animationRef s) (frameCountRef s)
  end.

(** The thresholds on the average of the frequency bins, on the 0-255 scale. *)
Definition noiseOf (averageVolume : float) : NoiseStatus :=
  if (averageVolume <? 10)%float then good
  else if (averageVolume <? 30)%float then noise_fair else bad.

Definition averageOf (dataArray : list Z) : float :=
  let sum := of_uint63 (Uint63.of_Z (fold_left Z.add dataArray 0)) in
  let bufferLength := of_uint63 (Uint63.of_Z (Z.of_nat (List.length dataArray))) in
  (sum / bufferLength)%float.

(** One frame of [draw], on the frequency data of the analyser: the next
    frame is requested, and the status is updated every 30 frames. *)
Definition draw (dataArray : list Z) (s : State) : State :=
  let count := frameCountRef s + 1 in
  mkState (permissionGranted s) (networkQuality s) (latencyMs s)
    (if Z.rem count 30 =? 0 then noiseOf (averageOf dataArray) else noiseStatus s)
    (analyserRef s) true count.

(** How the media request ends: it fails, or the stream is granted and the
    visualizer is set up. [firstFrame] is the frequency data that the first
    frame reads, when the canvas and its 2D context are there. *)
Inductive Media : Type :=
| Denied
| Granted (firstFrame : option (list Z)).

(** [drawVisualizer] gives up without a canvas, an analyser or a 2D context;
    otherwise it runs [draw] once, at once, and [draw] keeps itself going. *)
Definition drawVisualizer (firstFrame : option (list Z)) (s : State) : State :=
  match firstFrame with
  | Some dataArray => if analyserRef s then draw dataArray s else s
  | None => s
  end.

(** [initMedia]: the stream is granted, the analyser is put in place and the
    visualizer started, or the request fails. *)
Definition initMedia (m : Media) (s : State) : State :=
  match m with
  | Granted firstFrame =>
      let s := mkState (Some true) (networkQuality s) (latencyMs s) (noiseStatus s) true
                 (animationRef s) (frameCountRef s) in
      drawVisualizer firstFrame s
  | Denied =>
      mkState (Some false) (networkQuality s) (latencyMs s) (noiseStatus s)
        (analyserRef s) (animationRef s) (frameCountRef s)
  end.

(** [disabled] of the start button: [!permissionGranted || noiseStatus === 'bad'] *)
Definition startDisabled (s : State) : bool :=
  negb (match permissionGranted s with Some b => b | None => false end)
  || match noiseStatus s with bad => true | _ => false end.

Inductive Event : Type :=
| EvMedia (m : Media)
| EvProbe (probe : option Z)
| EvFrame (dataArray : list Z).      (* the animation frame that was requested *)

Definition handle (e : Event) (s : State) : State :=
  match e with
  | EvMedia m => initMedia m s
  | EvProbe probe => checkNetworkSpeed probe s
  | EvFrame dataArray => if animationRef s then draw dataArray s else s
  end.

Definition run (es : list Event) (s : State) : State :=
  fold_left (fun s e => handle e s) es s.

End Instructions.

(** * The result screen *)

Module ResultScreen.

Import App.

Definition isDisqualified (r : InterviewResult) : bool :=
  match terminationReason r with
  | Some t => truthy t
  | None => false
  end.

Inductive Confidence : Type := High | Medium | Low.

Section Labels.

Variable coerce : JSValue -> float.

(** [result.rating >= 8 ? 'High' : result.rating >= 5 ? 'Medium' : 'Low'] *)
Definition confidence (r : InterviewResult) : Confidence :=
  if (8 <=? toNumber coerce (rating r))%float then High
  else if (5 <=? toNumber coerce (rating r))%float then Medium
       else Low.

End Labels.

(** The label under the candidate's name. *)
Definition verdict (r : InterviewResult) : jsstring :=
  if isDisqualified r then js "Disqualified"
  else if passed r then js "Qualified" else js "Not Qualified".

(** The score badge and the tabs are shown unless the candidate was
    disqualified. *)
Definition showsScore (r : InterviewResult) : bool := negb (isDisqualified r).

End ResultScreen.

(** * The application as a state machine *)

Module Screens.

Import App.

Section Machine.

Variable JSON_parse : jsstring -> option JSValue.
Variable coerce : JSValue -> float.

(** What the rendered screens do to the application. *)
Inductive Action : Type :=
| SubmitForm (f : CandidateForm.Form)   (* [CandidateForm]: the form is submitted *)
| Start                                 (* [Instructions]: [onStart] *)
| Complete (o : Outcome) (transcript : jsstring) (reason : option jsstring)
                                        (* [InterviewSession]: [onComplete] *)
| Reset                                 (* [ResultScreen]: [onReset] *)
| Elapse (ms : N).                      (* time passes, due timeouts run *)

Definition isForm (x : Screen) : bool :=
  match x with CandidateFormScreen => true | _ => false end.
Definition isInstructions (x : Screen) : bool :=
  match x with InstructionsScreen => true | _ => false end.
Definition isInterview (x : Screen) : bool :=
  match x with InterviewSessionScreen _ => true | _ => false end.
Definition isResult (x : Screen) : bool :=
  match x with ResultScreenOf _ _ => true | _ => false end.

(** A screen can act only while it is rendered. *)
Definition act (x : Action) (a : AppState) : AppState :=
  match x with
  | SubmitForm f =>
      if existsb isForm (main a) then CandidateForm.handleSubmit f handleFormSubmit a
      else a
  | Start => if existsb isInstructions (main a) then startInterview a else a
  | Complete o transcript reason =>
      if existsb isInterview (main a)
      then handleInterviewComplete JSON_parse coerce o transcript reason a
      else a
  | Reset => if existsb isResult (main a) then resetApp a else a
  | Elapse ms => elapse (Z.of_N ms) a
  end.

Definition acts (xs : list Action) (a : AppState) : AppState :=
  fold_left (fun a x => act x a) xs a.

(** A profile none of whose fields is empty. *)
Definition filled (c : CandidateInfo) : Prop :=
  name c <> [] /\ field c <> [] /\ jobDescription c <> [] /\ language c <> [].

(** A result as [handleInterviewComplete] builds it: that of a
    disqualification, for a reason that is neither empty nor "Completed", or
    that of an evaluation. *)
Definition produced (r : InterviewResult) : Prop :=
  (exists reason, r = disqualification reason /\ reason <> [] /\
                  reason <> js "Completed") \/
  (exists o, r = evaluate JSON_parse coerce o).

(** What holds of the application whatever the screens do. *)
Definition settled (a : AppState) : Prop :=
  (step a = FORM \/ exists c, candidate a = Some c) /\
  (forall c, candidate a = Some c -> filled c) /\
  (step a = RESULT -> exists r, result a = Some r) /\
  (forall r, result a = Some r -> produced r) /\
  (step a <> EVALUATING -> disqualifications a = []) /\
  (List.length (disqualifications a) <= 1)%nat /\
  Forall (fun p => snd p <> [] /\ snd p <> js "Completed") (disqualifications a) /\
  Forall (fun q => exists c, req_candidate q = Some c /\ filled c) (scoringRequests a).

End Machine.

End Screens.

(** * End-to-end scenarios *)

Module Scenarios.

Import InterviewSession.

Definition agentSays (t : jsstring) : Event :=
  EvMessage (mkMessage (Some (mkContent true false (Some t) None None)) None) 0%Q.

Definition candidateSays (t : jsstring) : Event :=
  EvMessage (mkMessage (Some (mkContent false false None None (Some t))) None) 0%Q.

Definition agentEnds (reason : jsstring) : Event :=
  EvMessage (mkMessage None (Some [mkCall (js "call-1") (js "endInterview") (Some reason)]))
    0%Q.

(** What the parent does when [onComplete] is called. *)
Definition report (o : App.Outcome) (s : State) (a : App.AppState) : App.AppState :=
  fold_left (fun a c => App.handleInterviewComplete App.parseSample App.coerceSample o
                          (fst c) (snd c) a)
    (completed s) a.

End Scenarios.

(** * Properties *)

(** ** JavaScript strings *)

Module StringProperties.

Lemma eqb_refl (a : jsstring) : eqb a a = true.
Proof.
  induction a as [|x a IH]; simpl; [reflexivity|].
  now rewrite N.eqb_refl, IH.
Qed.

Lemma eqb_eq (a b : jsstring) : eqb a b = true <-> a = b.
Proof.
  split.
  - revert b; induction a as [|x a IH]; intros [|y b]; simpl; try discriminate; auto.
    intros H. apply andb_true_iff in H as [Hx Hr].
    apply N.eqb_eq in Hx. f_equal; auto.
  - intros ->. apply eqb_refl.
Qed.

Lemma truthy_true (t : jsstring) : t <> [] -> truthy t = true.
Proof. destruct t; [contradiction | reflexivity]. Qed.

End StringProperties.
Import StringProperties.

(** ** Order and addition on doubles *)

Module Binary64.

Import SpecFloat.

Section Format.

Variables prec emax : Z.

Local Abbreviation fexp := (fexp prec emax).
Local Abbreviation emin := (emin prec emax).

Lemma digits2_bounds (p : positive) :
  2 ^ (Zpos (digits2_pos p) - 1) <= Zpos p < 2 ^ Zpos (digits2_pos p).
Proof.
  induction p as [p IH|p IH|]; cbn [digits2_pos]; [| |cbn; lia];
    rewrite Pos2Z.inj_succ;
    replace (Z.succ (Zpos (digits2_pos p)) - 1)
      with (Z.succ (Zpos (digits2_pos p) - 1)) by lia;
    rewrite !Z.pow_succ_r by lia; lia.
Qed.

Lemma digits2_shift (p q : positive) (k : Z) :
  0 <= k -> Zpos p * 2 ^ k <= Zpos q ->
  Zpos (digits2_pos p) + k <= Zpos (digits2_pos q).
Proof.
  intros Hk Hle.
  destruct (digits2_bounds p) as [Lp _]. destruct (digits2_bounds q) as [_ Uq].
  assert (L : 2 ^ (Zpos (digits2_pos p) - 1 + k) < 2 ^ Zpos (digits2_pos q)).
  { rewrite Z.pow_add_r by lia.
    eapply Z.le_lt_trans; [|exact Uq].
    eapply Z.le_trans; [|exact Hle].
    apply Z.mul_le_mono_nonneg_r; [apply Z.pow_nonneg; lia | exact Lp]. }
  apply Z.pow_lt_mono_r_iff in L; lia.
Qed.

Lemma iter_xO (m d : positive) : Zpos (Pos.iter xO m d) = Zpos m * 2 ^ Zpos d.
Proof.
  induction d as [|d IH] using Pos.peano_ind.
  - cbn [Pos.iter]. lia.
  - rewrite Pos.iter_succ, Pos2Z.inj_xO, IH, Pos2Z.inj_succ, Z.pow_succ_r by lia. lia.
Qed.

Lemma shl_align_fst (mx : positive) (ex ez : Z) :
  ez <= ex -> Zpos (fst (shl_align mx ex ez)) = Zpos mx * 2 ^ (ex - ez).
Proof.
  intros H. unfold shl_align. destruct (ez - ex) as [|d|d] eqn:E.
  - replace (ex - ez) with 0 by lia. cbn [fst]. lia.
  - lia.
  - cbn [fst]. rewrite iter_xO. f_equal. f_equal. lia.
Qed.

Lemma shr_1_m (r : shr_record) : 0 <= shr_m r -> shr_m (shr_1 r) = shr_m r / 2.
Proof.
  destruct r as [m r s]. cbn [shr_m]. intros H.
  destruct m as [|[p|p|]|p]; cbn [shr_1 shr_m]; try lia.
  - reflexivity.
  - rewrite Pos2Z.inj_xI. apply (Z.div_unique _ _ _ 1); lia.
  - rewrite Pos2Z.inj_xO. apply (Z.div_unique _ _ _ 0); lia.
  - reflexivity.
Qed.

Lemma iter_shr_1_m (p : positive) (r : shr_record) :
  0 <= shr_m r -> shr_m (iter_pos shr_1 p r) = shr_m r / 2 ^ Zpos p.
Proof.
  assert (D : forall a b, 0 <= a -> 0 < b -> 0 <= a / b)
    by (intros; apply Z.div_pos; lia).
  assert (P : forall q, 0 < 2 ^ Zpos q) by (intros; apply Z.pow_pos_nonneg; lia).
  revert r. induction p as [p IH|p IH|]; intros r H; cbn [iter_pos].
  - assert (H1 : 0 <= shr_m (shr_1 r)) by (rewrite shr_1_m by exact H; apply D; lia).
    assert (H2 : 0 <= shr_m (iter_pos shr_1 p (shr_1 r)))
      by (rewrite IH by exact H1; apply D; [exact H1|apply P]).
    rewrite IH, IH, shr_1_m by assumption.
    rewrite !Z.div_div by (pose proof (P p); lia).
    f_equal. rewrite Pos2Z.inj_xI.
    replace (2 * Z.pos p + 1) with (1 + Z.pos p + Z.pos p) by lia.
    rewrite !Z.pow_add_r by lia. change (2 ^ 1) with 2. lia.
  - assert (H2 : 0 <= shr_m (iter_pos shr_1 p r))
      by (rewrite IH by exact H; apply D; [exact H|apply P]).
    rewrite IH, IH by assumption.
    rewrite !Z.div_div by (pose proof (P p); lia).
    f_equal. rewrite <- Z.pow_add_r by lia. f_equal. lia.
  - rewrite shr_1_m by exact H. reflexivity.
Qed.

Hypothesis prec_pos : 0 < prec.

Lemma fexp_mono (a b : Z) : a <= b -> fexp a <= fexp b.
Proof. unfold SpecFloat.fexp. lia. Qed.

Lemma fexp_emin (a : Z) : emin <= fexp a.
Proof. unfold SpecFloat.fexp. lia. Qed.

(** What [shr_fexp] does to a positive mantissa: the exponent moves up to the
    canonical one, the mantissa is divided accordingly and stays positive. *)
Lemma shr_fexp_pos (m : positive) (e : Z) (l : location) :
  emin <= e ->
  snd (shr_fexp prec emax (Zpos m) e l) = Z.max e (fexp (Zpos (digits2_pos m) + e)) /\
  shr_m (fst (shr_fexp prec emax (Zpos m) e l)) =
    Zpos m / 2 ^ (Z.max e (fexp (Zpos (digits2_pos m) + e)) - e) /\
  0 < shr_m (fst (shr_fexp prec emax (Zpos m) e l)).
Proof.
  intros He.
  assert (M : shr_m (shr_record_of_loc (Zpos m) l) = Zpos m)
    by (destruct l as [|[]]; reflexivity).
  unfold shr_fexp, shr. cbn [Zdigits2].
  set (f := fexp (Zpos (digits2_pos m) + e)).
  destruct (f - e) as [|n|n] eqn:E; cbn [fst snd].
  - replace (Z.max e f - e) with 0 by lia. rewrite M, Z.div_1_r. lia.
  - rewrite iter_shr_1_m by (rewrite M; lia). rewrite M.
    replace (Z.max e f - e) with (Zpos n) by lia.
    split; [lia|]. split; [reflexivity|].
    assert (F : Zpos n = Zpos (digits2_pos m) - prec)
      by (unfold f, SpecFloat.fexp in E; lia).
    destruct (digits2_bounds m) as [L _].
    apply Z.lt_le_trans with 1; [lia|].
    apply Z.div_le_lower_bound; [apply Z.pow_pos_nonneg; lia|].
    rewrite Z.mul_1_r. eapply Z.le_trans; [|exact L].
    apply Z.pow_le_mono_r; lia.
  - replace (Z.max e f - e) with 0 by lia. rewrite M, Z.div_1_r. lia.
Qed.

Lemma round_nearest_even_ge (m : Z) (l : location) : m <= round_nearest_even m l.
Proof. destruct l as [|[]]; cbn [round_nearest_even]; try destruct (Z.even m); lia. Qed.

(** Rounding a positive number: the result is a positive number or [+oo], and
    it is not below a canonical number that the exact value is not below. *)
Lemma binary_round_aux_ge (mx mm : positive) (ex ez : Z) :
  canonical_mantissa prec emax mx ex = true ->
  emin <= ez -> ez <= ex -> Zpos mx * 2 ^ (ex - ez) <= Zpos mm ->
  SFleb (S754_finite false mx ex)
        (binary_round_aux prec emax false (Zpos mm) ez loc_Exact) = true /\
  SFleb (S754_zero false)
        (binary_round_aux prec emax false (Zpos mm) ez loc_Exact) = true.
Proof.
  intros Hc He Hz Hm. unfold canonical_mantissa in Hc. apply Z.eqb_eq in Hc.
  assert (Hf : ex <= fexp (Zpos (digits2_pos mm) + ez)).
  { rewrite <- Hc at 1. apply fexp_mono.
    pose proof (digits2_shift mx mm (ex - ez)). lia. }
  unfold binary_round_aux.
  destruct (shr_fexp_pos mm ez loc_Exact He) as (E1 & M1 & P1).
  destruct (shr_fexp prec emax (Zpos mm) ez loc_Exact) as [mrs1 e1].
  cbn [fst snd] in E1, M1, P1.
  pose proof (round_nearest_even_ge (shr_m mrs1) (loc_of_shr_record mrs1)) as R.
  destruct (round_nearest_even (shr_m mrs1) (loc_of_shr_record mrs1)) as [|m2|m2];
    try lia.
  assert (He1 : emin <= e1) by lia.
  destruct (shr_fexp_pos m2 e1 loc_Exact He1) as (E2 & M2 & P2).
  destruct (shr_fexp prec emax (Zpos m2) e1 loc_Exact) as [mrs2 e2].
  cbn [fst snd] in E2, M2, P2.
  destruct (shr_m mrs2) as [|m|m]; try lia.
  destruct (e2 <=? emax - prec); [|split; reflexivity].
  split; [|reflexivity].
  unfold SFleb, SFcompare.
  destruct (Z.compare_spec ex e2) as [C|C|C]; [|reflexivity|lia].
  assert (A : Zpos mx <= Zpos m).
  { replace (Z.max e1 (fexp (Zpos (digits2_pos m2) + e1)) - e1) with 0 in M2 by lia.
    rewrite Z.div_1_r in M2.
    replace (Z.max ez (fexp (Zpos (digits2_pos mm) + ez)) - ez) with (ex - ez) in M1
      by lia.
    assert (Zpos mx <= shr_m mrs1); [|lia].
    rewrite M1. apply Z.div_le_lower_bound; [apply Z.pow_pos_nonneg|]; lia. }
  change (Pos.compare_cont Eq mx m) with (Pos.compare mx m).
  destruct (Pos.compare_spec mx m); [reflexivity|reflexivity|lia].
Qed.

Lemma binary_round_ge (mx mm : positive) (ex ez : Z) :
  canonical_mantissa prec emax mx ex = true ->
  emin <= ez -> ez <= ex -> Zpos mx * 2 ^ (ex - ez) <= Zpos mm ->
  SFleb (S754_finite false mx ex) (binary_round prec emax false mm ez) = true /\
  SFleb (S754_zero false) (binary_round prec emax false mm ez) = true.
Proof.
  intros Hc He Hz Hm.
  assert (Hf : ex <= fexp (Zpos (digits2_pos mm) + ez)).
  { unfold canonical_mantissa in Hc. apply Z.eqb_eq in Hc.
    rewrite <- Hc at 1. apply fexp_mono.
    pose proof (digits2_shift mx mm (ex - ez)). lia. }
  unfold binary_round, shl_align.
  destruct (fexp (Zpos (digits2_pos mm) + ez) - ez) as [|d|d] eqn:E; try lia;
    now apply binary_round_aux_ge.
Qed.

Lemma SFleb_refl_finite (s : bool) (m : positive) (e : Z) :
  SFleb (S754_finite s m e) (S754_finite s m e) = true.
Proof.
  unfold SFleb, SFcompare.
  rewrite Z.compare_refl. change (Pos.compare_cont Eq m m) with (Pos.compare m m).
  rewrite Pos.compare_refl. destruct s; reflexivity.
Qed.

(** Adding a non-negative number to a non-negative number does not go below
    the latter, nor below zero. *)
Lemma SFadd_ge (x d : spec_float) :
  valid_binary prec emax x = true -> valid_binary prec emax d = true ->
  SFleb (S754_zero false) x = true -> SFleb (S754_zero false) d = true ->
  SFleb x (SFadd prec emax x d) = true /\
  SFleb (S754_zero false) (SFadd prec emax x d) = true.
Proof.
  intros Vx Vd Px Pd.
  destruct x as [sx|[|]| |[|] mx ex]; try discriminate Px;
    destruct d as [sd|[|]| |[|] md ed]; try discriminate Pd;
    try (destruct sx); try (destruct sd); try (split; reflexivity);
    try (split; [apply SFleb_refl_finite|reflexivity]).
  cbn [valid_binary] in Vx, Vd. unfold bounded in Vx, Vd.
  apply andb_prop in Vx, Vd. destruct Vx as [Cx _], Vd as [Cd _].
  assert (Ex : emin <= ex).
  { unfold canonical_mantissa in Cx. apply Z.eqb_eq in Cx. rewrite <- Cx. apply fexp_emin. }
  assert (Ed : emin <= ed).
  { unfold canonical_mantissa in Cd. apply Z.eqb_eq in Cd. rewrite <- Cd. apply fexp_emin. }
  cbn [SFadd cond_Zopp].
  pose proof (shl_align_fst mx ex (Z.min ex ed)) as Ax.
  destruct (fst (shl_align mx ex (Z.min ex ed))) as [a|a|] eqn:Ea;
    destruct (fst (shl_align md ed (Z.min ex ed))) as [b|b|] eqn:Eb;
    cbn [Z.add binary_normalize]; apply binary_round_ge; try assumption; lia.
Qed.

End Format.

Lemma SFcompare_antisym (x y : spec_float) :
  SFcompare y x = option_map CompOpp (SFcompare x y).
Proof.
  destruct x as [[|]|[|]| |[|] mx ex], y as [[|]|[|]| |[|] my ey]; try reflexivity;
    cbn [SFcompare option_map]; rewrite (Z.compare_antisym ex ey);
    destruct (ex ?= ey); cbn [CompOpp]; try reflexivity;
    change (Pos.compare_cont Eq my mx) with (Pos.compare my mx);
    change (Pos.compare_cont Eq mx my) with (Pos.compare mx my);
    rewrite (Pos.compare_antisym mx my); destruct (mx ?= my)%positive; reflexivity.
Qed.

Lemma SFleb_refl (x : spec_float) : x <> S754_nan -> SFleb x x = true.
Proof.
  intros H. destruct x as [[|]|[|]| |s m e]; try reflexivity; [easy|].
  unfold SFleb, SFcompare.
  rewrite Z.compare_refl. change (Pos.compare_cont Eq m m) with (Pos.compare m m).
  rewrite Pos.compare_refl. destruct s; reflexivity.
Qed.

Lemma SFleb_trans (x y z : spec_float) :
  SFleb x y = true -> SFleb y z = true -> SFleb x z = true.
Proof.
  unfold SFleb.
  destruct x as [[|]|[|]| |[|] mx ex], y as [[|]|[|]| |[|] my ey],
           z as [[|]|[|]| |[|] mz ez];
    cbn [SFcompare]; try easy;
    change (Pos.compare_cont Eq) with Pos.compare;
    destruct (Z.compare_spec ex ey); try easy;
    destruct (Z.compare_spec ey ez); try easy;
    destruct (Z.compare_spec ex ez); try easy; try lia;
    destruct (Pos.compare_spec mx my); try easy;
    destruct (Pos.compare_spec my mz); try easy;
    destruct (Pos.compare_spec mx mz); try easy; lia.
Qed.

Local Open Scope float_scope.

Lemma zero_spec : FloatOps.Prim2SF 0 = S754_zero false.
Proof. reflexivity. Qed.

(** In binary64, [x <= x + d] and [0 <= x + d] for [x] and [d] at or above 0. *)
Lemma add_ge (x d : float) :
  (0 <=? x) = true -> (0 <=? d) = true ->
  (x <=? x + d) = true /\ (0 <=? x + d) = true.
Proof.
  rewrite !FloatAxioms.leb_spec, FloatAxioms.add_spec, zero_spec. intros Px Pd.
  apply SFadd_ge; try assumption;
    [reflexivity | apply FloatAxioms.Prim2SF_valid | apply FloatAxioms.Prim2SF_valid].
Qed.

Lemma leb_trans (x y z : float) :
  (x <=? y) = true -> (y <=? z) = true -> (x <=? z) = true.
Proof. rewrite !FloatAxioms.leb_spec. apply SFleb_trans. Qed.

Lemma nonneg_number (x : float) : (0 <=? x) = true -> FloatOps.Prim2SF x <> S754_nan.
Proof.
  rewrite FloatAxioms.leb_spec, zero_spec. intros H E. rewrite E in H. discriminate H.
Qed.

Lemma leb_refl (x : float) : (0 <=? x) = true -> (x <=? x) = true.
Proof.
  intros H. rewrite FloatAxioms.leb_spec. apply SFleb_refl, nonneg_number, H.
Qed.

(** [Math.max] of two numbers is one of them, and is below neither. *)
Lemma Math_max_cases (a b : float) :
  (0 <=? a) = true -> (0 <=? b) = true ->
  (InterviewSession.Math_max a b = a \/ InterviewSession.Math_max a b = b) /\
  (a <=? InterviewSession.Math_max a b) = true /\ (b <=? InterviewSession.Math_max a b) = true.
Proof.
  intros Pa Pb. pose proof (leb_refl a Pa) as Ra. pose proof (leb_refl b Pb) as Rb.
  pose proof (nonneg_number a Pa) as Na. pose proof (nonneg_number b Pb) as Nb.
  assert (L : forall x y c, SFcompare (FloatOps.Prim2SF x) (FloatOps.Prim2SF y) = Some c ->
                c <> Gt -> (x <=? y) = true).
  { intros x y c E G. rewrite FloatAxioms.leb_spec. unfold SFleb. rewrite E.
    destruct c; easy. }
  unfold InterviewSession.Math_max. rewrite FloatAxioms.compare_spec.
  pose proof (SFcompare_antisym (FloatOps.Prim2SF a) (FloatOps.Prim2SF b)) as A.
  destruct (SFcompare (FloatOps.Prim2SF a) (FloatOps.Prim2SF b)) as [[| |]|] eqn:C;
    cbn [FloatAxioms.flatten_cmp_opt option_map CompOpp] in *.
  - destruct (is_zero a && get_sign a).
    + split; [now right|]. split; [exact (L _ _ _ C ltac:(easy))|exact Rb].
    + split; [now left|]. split; [exact Ra|exact (L _ _ _ A ltac:(easy))].
  - split; [now right|]. split; [exact (L _ _ _ C ltac:(easy))|exact Rb].
  - split; [now left|]. split; [exact Ra|exact (L _ _ _ A ltac:(easy))].
  - exfalso. destruct (FloatOps.Prim2SF a) as [[|]|[|]| |[|] ? ?],
                       (FloatOps.Prim2SF b) as [[|]|[|]| |[|] ? ?];
      try discriminate C; easy.
Qed.

(** When the first number is not above the second, [Math.max] is the second,
    up to the sign of zero. *)
Lemma Math_max_r (a b : float) :
  (0 <=? a) = true -> (0 <=? b) = true -> (a <=? b) = true ->
  (InterviewSession.Math_max a b =? b) = true.
Proof.
  intros Pa Pb Hab.
  assert (Rb : (b =? b) = true).
  { rewrite FloatAxioms.eqb_spec. unfold SFeqb.
    pose proof (SFleb_refl _ (nonneg_number b Pb)) as R.
    pose proof (SFcompare_antisym (FloatOps.Prim2SF b) (FloatOps.Prim2SF b)) as A.
    unfold SFleb in R.
    destruct (SFcompare (FloatOps.Prim2SF b) (FloatOps.Prim2SF b)) as [[| |]|];
      try easy. }
  rewrite FloatAxioms.leb_spec in Hab. unfold SFleb in Hab.
  unfold InterviewSession.Math_max. rewrite FloatAxioms.compare_spec.
  destruct (SFcompare (FloatOps.Prim2SF a) (FloatOps.Prim2SF b)) as [[| |]|] eqn:C;
    cbn [FloatAxioms.flatten_cmp_opt]; try discriminate Hab; [|exact Rb].
  destruct (is_zero a && get_sign a); [exact Rb|].
  rewrite FloatAxioms.eqb_spec. unfold SFeqb. now rewrite C.
Qed.

End Binary64.

(** ** The interview session *)

Module SessionProperties.

Import InterviewSession.

(** *** Termination latch *)

Section Termination.

Lemma terminations_insert_other due cb q :
  (forall r, cb <> TerminationTimeout r) ->
  terminations (insertTimeout (due, cb) q) = terminations q.
Proof.
  intros Hcb. induction q as [|[d c] q IH]; simpl.
  - destruct cb; try reflexivity. now exfalso; eapply Hcb.
  - destruct (due <? d); simpl.
    + destruct cb; try reflexivity. now exfalso; eapply Hcb.
    + now rewrite IH.
Qed.

Lemma terminations_insert_first due r q :
  terminations q = [] ->
  terminations (insertTimeout (due, TerminationTimeout r) q) = [(due, r)].
Proof.
  induction q as [|[d c] q IH]; simpl; intros Hq; [reflexivity|].
  destruct (due <? d); simpl.
  - destruct c; simpl in *; try discriminate; now rewrite Hq.
  - destruct c; simpl in *; try discriminate; auto.
Qed.

Lemma terminations_filter (f : Z -> bool) q :
  terminations (filter (fun p => f (fst p)) q) =
  filter (fun p => f (fst p)) (terminations q).
Proof.
  induction q as [|[d c] q IH]; simpl; [reflexivity|].
  destruct (f d) eqn:Hf; destruct c; simpl; rewrite ?Hf; now rewrite IH.
Qed.

(** What a batch of due callbacks does to the termination log. *)
Lemma runTimeouts_log (l : list (Z * TimeoutCallback)) (s : State) :
  let s' := fold_left (fun s p => runTimeout (snd p) s) l s in
  completed s' =
    completed s ++
    map (fun p => (join newline (fullTranscriptHistory s), Some (snd p))) (terminations l) /\
  disconnectCalls s' = (disconnectCalls s + List.length (terminations l))%nat /\
  fullTranscriptHistory s' = fullTranscriptHistory s /\
  terminationTriggeredRef s' = terminationTriggeredRef s /\
  timeouts s' = timeouts s /\ nowMs s' = nowMs s.
Proof.
  revert s. induction l as [|[d c] l IH]; intros s; simpl.
  - rewrite app_nil_r, Nat.add_0_r. repeat split; reflexivity.
  - specialize (IH (runTimeout c s)). simpl in IH.
    destruct IH as (Hc & Hd & Hh & Hl & Hq & Hn).
    rewrite Hc, Hd, Hh, Hl, Hq, Hn.
    destruct c; simpl.
    + unfold disconnect. destruct (sessionRef _) as [h|]; [destruct (closeThrows h)|];
        simpl; rewrite <- app_assoc; simpl; repeat split; try reflexivity; lia.
    + repeat split; reflexivity.
    + repeat split; reflexivity.
Qed.

Lemma advance_log (ms : Z) (s : State) :
  let s' := advance ms s in
  let due := filter (fun p => fst p <=? nowMs s + ms) (pendingTerminations s) in
  completed s' =
    completed s ++ map (fun p => (join newline (fullTranscriptHistory s), Some (snd p))) due /\
  disconnectCalls s' = (disconnectCalls s + List.length due)%nat /\
  fullTranscriptHistory s' = fullTranscriptHistory s /\
  terminationTriggeredRef s' = terminationTriggeredRef s /\
  pendingTerminations s' =
    filter (fun p => negb (fst p <=? nowMs s + ms)) (pendingTerminations s) /\
  nowMs s' = nowMs s + ms.
Proof.
  unfold advance, pendingTerminations.
  match goal with
  | |- context [fold_left ?f ?l ?s1] =>
      pose proof (runTimeouts_log l s1) as H; simpl in H
  end.
  destruct H as (Hc & Hd & Hh & Hl & Hq & Hn).
  simpl. rewrite Hc, Hd, Hh, Hl, Hq, Hn. simpl.
  unfold isDue.
  rewrite (terminations_filter (fun d => d <=? nowMs s + ms)).
  rewrite (terminations_filter (fun d => negb (d <=? nowMs s + ms))).
  repeat split; reflexivity.
Qed.

Lemma handleTermination_latched (r : jsstring) (s : State) :
  terminationTriggeredRef s = true -> handleTermination r s = s.
Proof. unfold handleTermination. now intros ->. Qed.

Lemma handleTermination_fresh (r : jsstring) (s : State) :
  fresh s -> terminating r (fullTranscriptHistory s) (handleTermination r s).
Proof.
  intros (Hl & Hp & Hc & Hd). unfold handleTermination, terminating.
  rewrite Hl. unfold setTimeout, pendingTerminations in *. simpl.
  repeat split. left. exists (nowMs s + 2000).
  rewrite terminations_insert_first by assumption. repeat split; auto; lia.
Qed.

Lemma advance_fresh (ms : Z) (s : State) :
  fresh s ->
  fresh (advance ms s) /\
  fullTranscriptHistory (advance ms s) = fullTranscriptHistory s.
Proof.
  intros (Hl & Hp & Hc & Hd).
  destruct (advance_log ms s) as (Hc' & Hd' & Hh' & Hl' & Hp' & _).
  rewrite Hp in *. simpl in *. unfold fresh.
  rewrite Hc', Hd', Hl', Hp', Hc, Hd, Hl. repeat split; auto.
Qed.

Lemma advance_terminating (ms : Z) (r : jsstring) (h : list jsstring) (s : State) :
  0 <= ms -> terminating r h s -> terminating r h (advance ms s).
Proof.
  intros Hms (Hl & Hh & Hcase).
  destruct (advance_log ms s) as (Hc' & Hd' & Hh' & Hl' & Hp' & Hn').
  unfold terminating. rewrite Hl', Hh', Hl, Hh. repeat split.
  destruct Hcase as [(due & Hp & Hdue & Hc & Hd) | (Hp & Hc & Hd)].
  - rewrite Hp in *. simpl in *.
    destruct (due <=? nowMs s + ms) eqn:E; simpl in *.
    + right. rewrite Hc', Hd', Hp', Hc, Hd, Hh. repeat split.
    + left. exists due. rewrite Hc', Hd', Hp', Hn', Hc, Hd. repeat split; auto; lia.
  - right. rewrite Hp in *. simpl in *.
    rewrite Hc', Hd', Hp', Hc, Hd, app_nil_r. repeat split; auto.
Qed.

Lemma advance_fires (ms : Z) (r : jsstring) (h : list jsstring) (s : State) :
  2000 <= ms -> terminating r h s ->
  let s' := advance ms s in
  completed s' = [(join newline h, Some r)] /\ disconnectCalls s' = 1%nat /\
  pendingTerminations s' = [] /\ terminationTriggeredRef s' = true.
Proof.
  intros Hms (Hl & Hh & Hcase).
  destruct (advance_log ms s) as (Hc' & Hd' & Hh' & Hl' & Hp' & Hn').
  simpl. rewrite Hc', Hd', Hp', Hl', Hl.
  destruct Hcase as [(due & Hp & Hdue & Hc & Hd) | (Hp & Hc & Hd)];
    rewrite Hp, Hc, Hd; simpl.
  - assert (E : (due <=? nowMs s + ms) = true) by (apply Z.leb_le; lia).
    rewrite E, Hh. simpl. repeat split.
  - repeat split.
Qed.

Lemma call_terminating (c : Call) (r : jsstring) (h : list jsstring) (s : State) :
  terminating r h s -> terminating r h (call c s) .
Proof.
  intros H. destruct c as [r'|ms]; simpl.
  - rewrite handleTermination_latched; [assumption | apply H].
  - apply advance_terminating; [lia | assumption].
Qed.

Lemma calls_terminating (cs : list Call) (r : jsstring) (h : list jsstring) (s : State) :
  terminating r h s -> terminating r h (calls cs s).
Proof.
  revert s. induction cs as [|c cs IH]; intros s H; simpl; [assumption|].
  apply IH, call_terminating, H.
Qed.

Lemma calls_fresh (cs : list Call) (s : State) :
  fresh s ->
  match firstReason cs with
  | None => fresh (calls cs s) /\
            fullTranscriptHistory (calls cs s) = fullTranscriptHistory s
  | Some r => terminating r (fullTranscriptHistory s) (calls cs s)
  end.
Proof.
  revert s. induction cs as [|[r|ms] cs IH]; intros s H; simpl.
  - split; [assumption | reflexivity].
  - apply calls_terminating, handleTermination_fresh, H.
  - destruct (advance_fresh (Z.of_N ms) s H) as [Hf Hh].
    specialize (IH _ Hf). rewrite Hh in IH. exact IH.
Qed.

(** C1. Whatever the sequence of invocations of [handleTermination] (and of
    pauses between them) from a state in which no termination was requested,
    the first invocation wins: once its two-second grace delay has elapsed,
    [onComplete] has been called exactly once, with the transcript and the
    reason of the first invocation, [disconnect] has run exactly once, no
    termination callback is left pending, and from then on every further
    history of invocations leaves the termination log as it is. At every point
    of the sequence at most one teardown and one completion have happened, and
    every invocation after the first returns the state unchanged. *)
Theorem handleTermination_exactly_once
  (s0 : State) (cs : list Call) (r : jsstring) :
  fresh s0 -> firstReason cs = Some r ->
  let s := advance 2000 (calls cs s0) in
  completed s = [(join newline (fullTranscriptHistory s0), Some r)] /\
  disconnectCalls s = 1%nat /\
  pendingTerminations s = [] /\
  (forall r', handleTermination r' s = s) /\
  (forall pre post r',
      cs = pre ++ post -> firstReason pre <> None ->
      handleTermination r' (calls pre s0) = calls pre s0) /\
  (forall pre post,
      cs = pre ++ post ->
      (List.length (completed (calls pre s0)) <= 1)%nat /\
      (disconnectCalls (calls pre s0) <= 1)%nat /\
      (List.length (pendingTerminations (calls pre s0)) +
       List.length (completed (calls pre s0)) =
       if terminationTriggeredRef (calls pre s0) then 1 else 0)%nat).
Proof.
  intros Hfresh Hfirst s.
  pose proof (calls_fresh cs s0 Hfresh) as H. rewrite Hfirst in H.
  destruct (advance_fires 2000 r _ _ (Z.le_refl _) H) as (Hc & Hd & Hp & Hl).
  repeat split; try assumption.
  - intros r'. apply handleTermination_latched, Hl.
  - intros pre post r' _ Hpre.
    pose proof (calls_fresh pre s0 Hfresh) as H'.
    destruct (firstReason pre) as [r0|]; [|contradiction].
    apply handleTermination_latched, H'.
  - pose proof (calls_fresh pre s0 Hfresh) as H'.
    destruct (firstReason pre).
    + destruct H' as (_ & _ & [(due & _ & _ & -> & _) | (_ & -> & _)]); simpl; lia.
    + destruct H' as ((_ & _ & -> & _) & _). simpl; lia.
  - pose proof (calls_fresh pre s0 Hfresh) as H'.
    destruct (firstReason pre).
    + destruct H' as (_ & _ & [(due & _ & _ & _ & ->) | (_ & _ & ->)]); lia.
    + destruct H' as ((_ & _ & _ & ->) & _). lia.
  - pose proof (calls_fresh pre s0 Hfresh) as H'.
    destruct (firstReason pre).
    + destruct H' as (-> & _ & [(due & -> & _ & -> & _) | (-> & -> & _)]); reflexivity.
    + destruct H' as ((-> & -> & -> & _) & _). reflexivity.
Qed.

(** A timeout, a third violation and an agent-initiated end within the same
    grace period: the timeout, invoked first, is the one reported. *)
Lemma handleTermination_exactly_once_witness :
  let cs := [Elapse 5000; Invoke (js "Time Limit Exceeded");
             Invoke (js "Security Violation: Multiple breaches detected.");
             Elapse 1000; Invoke (js "Completed")] in
  let s := advance 2000 (calls cs (initial 0)) in
  fresh (initial 0) /\
  completed s = [([], Some (js "Time Limit Exceeded"))] /\
  disconnectCalls s = 1%nat.
Proof.
  intros cs s.
  assert (Hf : fresh (initial 0)) by (repeat split).
  split; [exact Hf|].
  destruct (handleTermination_exactly_once (initial 0) cs
              (js "Time Limit Exceeded") Hf eq_refl) as (Hc & Hd & _).
  split; [exact Hc | exact Hd].
Defined.

End Termination.

(** *** Silence escalation *)

Section Silence.

Lemma silentAlert_kind : includes (js "still") silentAlert = false.
Proof. vm_compute. reflexivity. Qed.

Lemma stillSilentAlert_kind : includes (js "still") stillSilentAlert = true.
Proof. vm_compute. reflexivity. Qed.

(** What a successful [sendSystemMessage] leaves behind. *)
Lemma sendSystemMessage_ok (t : jsstring) (s : State) (h : LiveSession) :
  sessionRef s = Some h -> sendThrows h = false ->
  let s' := sendSystemMessage t s in
  sent s' = sent s ++ [RealtimeText t] /\
  systemMessageStatus s' =
    Some (js "System: Prompting AI (" ++
          (if includes (js "still") t then js "Skip" else js "Reminder") ++ js ")...") /\
  silenceTriggered s' = true /\
  transcriptLines s' = transcriptLines s /\
  fullTranscriptHistory s' = fullTranscriptHistory s /\
  silenceWarningCountRef s' = silenceWarningCountRef s /\
  isProcessingTimeoutRef s' = isProcessingTimeoutRef s.
Proof.
  intros Hs Ht. unfold sendSystemMessage. rewrite Hs, Ht.
  repeat split; reflexivity.
Qed.

(** Whether or not the send succeeds, [sendSystemMessage] leaves the transcript,
    the strike counter and the escalation lock alone. *)
Lemma sendSystemMessage_frame (t : jsstring) (s : State) :
  let s' := sendSystemMessage t s in
  transcriptLines s' = transcriptLines s /\
  fullTranscriptHistory s' = fullTranscriptHistory s /\
  silenceWarningCountRef s' = silenceWarningCountRef s /\
  isProcessingTimeoutRef s' = isProcessingTimeoutRef s.
Proof.
  unfold sendSystemMessage. destruct (sessionRef s) as [h|]; [|repeat split].
  destruct (sendThrows h); repeat split.
Qed.

(** C2. On a tick of the silence monitor, with the session connected, the
    component awaiting a response, the agent not speaking, the escalation
    lock free and more than 10 s elapsed since the agent's last turn end: the
    lock is taken and the strike counter incremented. If the incremented count
    is at most 2 the transcript is untouched; if it exceeds 2 the synthetic
    "no answer" line is appended for the user to the display list and to the
    flat history, and the counter is reset to 0. With the session handle in
    place and its send not raising, the "candidate is silent" directive is
    sent and the reminder status displayed in the first case, the "still
    silent" directive is sent and the skip status displayed in the second. *)
Theorem silenceTick_escalation (s : State) :
  isConnectedRef s = true ->
  isWaitingForResponseRef s = true ->
  isAiSpeakingRef s = false ->
  isProcessingTimeoutRef s = false ->
  nowMs s - lastAiTurnEndTimeRef s > 10000 ->
  let strikes := silenceWarningCountRef s + 1 in
  let s' := silenceTick s in
  isProcessingTimeoutRef s' = true /\
  (strikes <= 2 ->
     silenceWarningCountRef s' = strikes /\
     transcriptLines s' = transcriptLines s /\
     fullTranscriptHistory s' = fullTranscriptHistory s) /\
  (strikes > 2 ->
     transcriptLines s' =
       transcriptLines s ++ [mkLine user (js "[No Answer - Time Limit Exceeded]")] /\
     fullTranscriptHistory s' =
       fullTranscriptHistory s ++ [js "User: [No Answer - Time Limit Exceeded]"] /\
     silenceWarningCountRef s' = 0) /\
  (forall h,
      sessionRef s = Some h -> sendThrows h = false ->
      (strikes <= 2 ->
         sent s' = sent s ++ [RealtimeText silentAlert] /\
         systemMessageStatus s' = Some (js "System: Prompting AI (Reminder)...")) /\
      (strikes > 2 ->
         sent s' = sent s ++ [RealtimeText stillSilentAlert] /\
         systemMessageStatus s' = Some (js "System: Prompting AI (Skip)..."))).
Proof.
  intros Hconn Hwait Hai Hlock Hgt strikes s'.
  assert (E : (nowMs s - lastAiTurnEndTimeRef s >? 10000) = true)
    by (apply Z.gtb_lt; lia).
  subst s'. unfold silenceTick.
  rewrite Hconn, Hwait, Hai, Hlock. cbn [negb andb]. rewrite E.
  cbn [silenceWarningCountRef set_silenceWarningCountRef set_isProcessingTimeoutRef].
  fold strikes.
  destruct (strikes >? 2) eqn:G.
  - apply Z.gtb_lt in G.
    match goal with
    | |- context [sendSystemMessage ?t ?s1] =>
        destruct (sendSystemMessage_frame t s1) as (Htl & Hh & Hc & Hp);
        pose proof (sendSystemMessage_ok t s1) as Hok
    end.
    rewrite Htl, Hh, Hc, Hp.
    split; [reflexivity|]. split; [intros; lia|].
    split; [intros _; repeat split; reflexivity|].
    intros h Hsess Hsend. split; [intros; lia|]. intros _.
    destruct (Hok h Hsess Hsend) as (Hs & Hst & _).
    rewrite Hs, Hst, stillSilentAlert_kind. split; reflexivity.
  - assert (strikes <= 2) by (destruct (Z.gtb_spec strikes 2); [discriminate | lia]).
    match goal with
    | |- context [sendSystemMessage ?t ?s1] =>
        destruct (sendSystemMessage_frame t s1) as (Htl & Hh & Hc & Hp);
        pose proof (sendSystemMessage_ok t s1) as Hok
    end.
    rewrite Htl, Hh, Hc, Hp.
    split; [reflexivity|].
    split; [intros _; repeat split; reflexivity|].
    split; [intros; lia|].
    intros h Hsess Hsend. split; [|intros; lia]. intros _.
    destruct (Hok h Hsess Hsend) as (Hs & Hst & _).
    rewrite Hs, Hst, silentAlert_kind. split; reflexivity.
Qed.

Lemma silenceTick_escalation_witness :
  let s' := silenceTick awaitingCandidate in
  isProcessingTimeoutRef s' = true /\
  silenceWarningCountRef s' = 1 /\
  sent s' = [RealtimeText silentAlert] /\
  systemMessageStatus s' = Some (js "System: Prompting AI (Reminder)...").
Proof.
  destruct (silenceTick_escalation awaitingCandidate
              eq_refl eq_refl eq_refl eq_refl eq_refl)
    as (Hlock & Hlow & _ & Hsent).
  destruct (Hlow ltac:(discriminate)) as (Hc & _).
  destruct (Hsent (mkSession false false) eq_refl eq_refl) as (Hs & _).
  destruct (Hs ltac:(discriminate)) as (Hs1 & Hst).
  repeat split; assumption.
Defined.

(** Two reminders, then the skip: the agent answers each nudge, the candidate
    stays silent, and eleven more seconds pass each time. *)
Example silence_three_strikes :
  let nudge := [EvSilenceTick; EvMessage agentTurn 0%Q; EvAdvance 11000%N] in
  let s := run (nudge ++ nudge ++ [EvSilenceTick]) awaitingCandidate in
  sent s = [RealtimeText silentAlert; RealtimeText silentAlert;
            RealtimeText stillSilentAlert] /\
  transcriptLines s = [mkLine user silentEntry] /\
  fullTranscriptHistory s = [js "User: [No Answer - Time Limit Exceeded]"] /\
  silenceWarningCountRef s = 0 /\
  systemMessageStatus s = Some (js "System: Prompting AI (Skip)...").
Proof. vm_compute. repeat split; reflexivity. Qed.

End Silence.

(** *** Transcript accumulator *)

Section Transcript.

Lemma sameTranscript_refl (s : State) : sameTranscript s s.
Proof. split; reflexivity. Qed.

Lemma sameTranscript_trans (s1 s2 s3 : State) :
  sameTranscript s1 s2 -> sameTranscript s2 s3 -> sameTranscript s1 s3.
Proof. intros [A B] [C D]. split; congruence. Qed.

Lemma sameTranscript_consistent (s s' : State) :
  sameTranscript s s' -> consistent s -> consistent s'.
Proof. unfold consistent. intros [A B] H. now rewrite A, B. Qed.

Lemma lastOf_app_last {A : Type} (l : list A) (x : A) : lastOf (l ++ [x]) = Some x.
Proof.
  induction l as [|y l IH]; simpl; [reflexivity|].
  destruct (l ++ [x]) eqn:E; [destruct l; discriminate | exact IH].
Qed.

Lemma lastOf_map {A B : Type} (f : A -> B) (l : list A) :
  lastOf (map f l) = option_map f (lastOf l).
Proof.
  induction l as [|y l IH]; simpl; [reflexivity|].
  destruct l; [reflexivity | exact IH].
Qed.

Lemma removelast_map {A B : Type} (f : A -> B) (l : list A) :
  removelast (map f l) = map f (removelast l).
Proof.
  induction l as [|y l IH]; simpl; [reflexivity|].
  destruct l; [reflexivity | simpl in *; now rewrite IH].
Qed.

Lemma entry_startsWith_AI (line : TranscriptLine) :
  startsWith (js "AI:") (historyEntry line) =
  match speaker line with ai => true | user => false end.
Proof. destruct line as [[|] t]; reflexivity. Qed.

Lemma entry_startsWith_User (line : TranscriptLine) :
  startsWith (js "User:") (historyEntry line) =
  match speaker line with user => true | ai => false end.
Proof. destruct line as [[|] t]; reflexivity. Qed.

Lemma handleAiTranscript_consistent (t : jsstring) (s : State) :
  consistent s -> consistent (handleAiTranscript t s).
Proof.
  unfold consistent, handleAiTranscript. intros H.
  destruct (truthy t); [|exact H]. cbn [negb].
  destruct (truthy (trim t)); [|exact H]. cbn [negb].
  cbn [fullTranscriptHistory transcriptLines set_transcriptLines set_fullTranscriptHistory].
  rewrite H. unfold historyEndsWith, appendToLast, replaceLast.
  rewrite lastOf_map.
  destruct (lastOf (transcriptLines s)) as [last|] eqn:E; cbn [option_map].
  - rewrite entry_startsWith_AI. destruct (speaker last) eqn:Esp.
    + now rewrite map_app.
    + rewrite map_app, removelast_map. cbn [map]. unfold historyEntry.
      cbn [speaker text]. rewrite Esp. now rewrite <- !app_assoc.
  - now rewrite map_app.
Qed.

Lemma handleUserTranscript_consistent (t : jsstring) (s : State) :
  consistent s -> consistent (handleUserTranscript t s).
Proof.
  unfold consistent, handleUserTranscript. intros H.
  destruct (truthy t); [|exact H]. cbn [negb].
  cbn [fullTranscriptHistory transcriptLines set_transcriptLines set_fullTranscriptHistory].
  rewrite H. unfold historyEndsWith, appendToLast, replaceLast.
  rewrite lastOf_map.
  destruct (lastOf (transcriptLines s)) as [last|] eqn:E; cbn [option_map].
  - rewrite entry_startsWith_User. destruct (speaker last) eqn:Esp.
    + rewrite map_app, removelast_map. cbn [map]. unfold historyEntry.
      cbn [speaker text]. rewrite Esp. now rewrite <- !app_assoc.
    + now rewrite map_app.
  - now rewrite map_app.
Qed.

Lemma handleTermination_sameTranscript (r : jsstring) (s : State) :
  sameTranscript s (handleTermination r s).
Proof. unfold handleTermination. same_transcript. Qed.

Lemma disconnect_sameTranscript (s : State) : sameTranscript s (disconnect s).
Proof. unfold disconnect. same_transcript. Qed.

Lemma runTimeout_sameTranscript (cb : TimeoutCallback) (s : State) :
  sameTranscript s (runTimeout cb s).
Proof.
  destruct cb; unfold runTimeout; try (split; reflexivity).
  eapply sameTranscript_trans; [apply disconnect_sameTranscript|].
  generalize (disconnect s). intros s1. split; reflexivity.
Qed.

Lemma runTimeouts_sameTranscript (l : list (Z * TimeoutCallback)) (s : State) :
  sameTranscript s (fold_left (fun s p => runTimeout (snd p) s) l s).
Proof.
  revert s. induction l as [|p l IH]; intros s; simpl; [apply sameTranscript_refl|].
  eapply sameTranscript_trans; [apply runTimeout_sameTranscript | apply IH].
Qed.

Lemma advance_sameTranscript (ms : Z) (s : State) : sameTranscript s (advance ms s).
Proof.
  unfold advance.
  eapply sameTranscript_trans; [|apply runTimeouts_sameTranscript].
  split; reflexivity.
Qed.

Lemma sendSystemMessage_sameTranscript (t : jsstring) (s : State) :
  sameTranscript s (sendSystemMessage t s).
Proof. unfold sendSystemMessage. same_transcript. Qed.

Lemma silenceTick_consistent (s : State) : consistent s -> consistent (silenceTick s).
Proof.
  intros H. unfold silenceTick.
  repeat match goal with
         | |- context [if ?b then _ else _] => destruct b
         end; try exact H;
  (eapply sameTranscript_consistent; [apply sendSystemMessage_sameTranscript|]).
  - unfold consistent in *. simpl. rewrite H, map_app. reflexivity.
  - exact H.
Qed.

Lemma handleToolCall_sameTranscript (calls : list FunctionCall) (s : State) :
  sameTranscript s (handleToolCall calls s).
Proof.
  unfold handleToolCall. destruct (find _ _); [|apply sameTranscript_refl].
  eapply sameTranscript_trans; [|apply handleTermination_sameTranscript].
  split; reflexivity.
Qed.

Lemma enqueueAudio_sameTranscript (now : Q) (a : InlineAudio) (s : State) :
  sameTranscript s (enqueueAudio now a s).
Proof. unfold enqueueAudio. same_transcript. Qed.

Lemma handleInterrupted_sameTranscript (s : State) :
  sameTranscript s (handleInterrupted s).
Proof. split; reflexivity. Qed.

Lemma handleContent_sameTranscript (s : State) : sameTranscript s (handleContent s).
Proof. split; reflexivity. Qed.

Lemma handleTurnComplete_sameTranscript (s : State) :
  sameTranscript s (handleTurnComplete s).
Proof. split; reflexivity. Qed.

Lemma when_consistent (b : bool) (f : State -> State) (s : State) :
  (forall s, consistent s -> consistent (f s)) ->
  consistent s -> consistent (when b f s).
Proof. intros Hf H. destruct b; simpl; auto. Qed.

Lemma whenSome_consistent {A : Type} (o : option A) (f : A -> State -> State) (s : State) :
  (forall a s, consistent s -> consistent (f a s)) ->
  consistent s -> consistent (whenSome o f s).
Proof. intros Hf H. destruct o; simpl; auto. Qed.

Lemma onmessage_consistent (m : Message) (now : Q) (s : State) :
  consistent s -> consistent (onmessage m now s).
Proof.
  intros H. unfold onmessage.
  apply whenSome_consistent;
    [intros a s0; apply sameTranscript_consistent, enqueueAudio_sameTranscript|].
  apply whenSome_consistent; [intros a s0; apply handleUserTranscript_consistent|].
  apply whenSome_consistent; [intros a s0; apply handleAiTranscript_consistent|].
  apply when_consistent;
    [intros s0; apply sameTranscript_consistent, handleTurnComplete_sameTranscript|].
  apply when_consistent;
    [intros s0; apply sameTranscript_consistent, handleContent_sameTranscript|].
  apply when_consistent;
    [intros s0; apply sameTranscript_consistent, handleInterrupted_sameTranscript|].
  apply whenSome_consistent; [|exact H].
  intros a s0. apply sameTranscript_consistent, handleToolCall_sameTranscript.
Qed.

Lemma triggerViolation_sameTranscript (msg : jsstring) (s : State) :
  sameTranscript s (triggerViolation msg s).
Proof.
  unfold triggerViolation.
  match goal with
  | |- context [if ?b then handleTermination ?r ?s1 else _] =>
      pose proof (handleTermination_sameTranscript r s1) as [A B]; destruct b
  end; split; simpl; try reflexivity.
  - exact A.
  - exact B.
Qed.

Lemma countdownTick_sameTranscript (s : State) : sameTranscript s (countdownTick s).
Proof.
  unfold countdownTick. destruct (timeLeft s <=? 1); [|split; reflexivity].
  match goal with
  | |- context [handleTermination ?r ?s1] =>
      pose proof (handleTermination_sameTranscript r s1) as [A B]
  end.
  split; simpl; [exact A | exact B].
Qed.

Lemma handle_consistent (e : Event) (s : State) :
  consistent s -> consistent (handle e s).
Proof.
  intros H. destruct e; simpl.
  - exact H.
  - exact H.
  - eapply sameTranscript_consistent; [|exact H]. unfold onopen. same_transcript.
  - apply onmessage_consistent, H.
  - exact H.
  - eapply sameTranscript_consistent; [|exact H]. unfold onclose. same_transcript.
  - eapply sameTranscript_consistent; [|exact H].
    unfold onaudioprocess, vad. same_transcript.
  - exact H.
  - destruct (isMountedRef s); [apply silenceTick_consistent|]; exact H.
  - destruct (isMountedRef s && countdownInterval s); [|exact H].
    eapply sameTranscript_consistent; [apply countdownTick_sameTranscript | exact H].
  - destruct (isMountedRef s); [|exact H]. destruct hidden; [|exact H].
    eapply sameTranscript_consistent; [apply triggerViolation_sameTranscript | exact H].
  - destruct (isMountedRef s); exact H.
  - eapply sameTranscript_consistent; [|exact H]. unfold toggleMute. same_transcript.
  - eapply sameTranscript_consistent; [apply advance_sameTranscript | exact H].
  - destruct (isMountedRef s); [|exact H].
    eapply sameTranscript_consistent; [|exact H]. unfold unmount.
    eapply sameTranscript_trans; [|apply disconnect_sameTranscript]. split; reflexivity.
Qed.

Lemma step_consistent (e : Event) (s : State) :
  consistent s -> consistent (step e s).
Proof.
  intros H. unfold step. apply (handle_consistent e) in H.
  eapply sameTranscript_consistent; [|exact H].
  unfold statusEffect. same_transcript.
Qed.

Lemma run_consistent (es : list Event) (s : State) :
  consistent s -> consistent (run es s).
Proof.
  revert s. induction es as [|e es IH]; intros s H; simpl; [exact H|].
  apply IH, step_consistent, H.
Qed.

(** C3, as stated, fails. The fragments "Hel", "lo wor", "ld" from the agent
    merge into "Hel lo wor ld", not "Hello world"; an agent fragment is
    trimmed before it is joined; and an empty fragment from the other speaker
    appends no line. *)
Lemma transcript_merge_counterexample :
  transcriptLines (agentFragments [js "Hel"; js "lo wor"; js "ld"] (initial 0)) =
    [mkLine ai (js "Hel lo wor ld")] /\
  JSString.eqb (js "Hel lo wor ld") (js "Hello world") = false /\
  transcriptLines (agentFragments [js "Hi"; js "  there "] (initial 0)) =
    [mkLine ai (js "Hi there")] /\
  transcriptLines (handleUserTranscript [] (agentFragments [js "Hi"] (initial 0))) =
    [mkLine ai (js "Hi")].
Proof. vm_compute. repeat split; reflexivity. Qed.

(** C3, amended. After every event of the component the flat history and the
    display list agree: each history entry is the speaker prefix ("AI: " or
    "User: ") followed by the text of the corresponding display line. A
    non-empty user fragment is concatenated to the last line when that line
    is the user's, and appended as a new line otherwise; an empty one changes
    nothing. An agent fragment is trimmed first; if nothing is left it changes
    nothing, otherwise it is joined with one space to the last line when that
    line is the agent's, and appended as a new line otherwise. So the user
    fragments "Hel", "lo wor", "ld" merge into "Hello world" and the same
    fragments from the agent into "Hel lo wor ld". *)
Theorem transcript_accumulator :
  (forall t0 es, consistent (run es (initial t0))) /\
  (forall s t last,
      t <> [] -> lastOf (transcriptLines s) = Some last -> speaker last = user ->
      transcriptLines (handleUserTranscript t s) =
        removelast (transcriptLines s) ++ [mkLine user (text last ++ t)]) /\
  (forall s t,
      t <> [] ->
      (forall last, lastOf (transcriptLines s) = Some last -> speaker last = ai) ->
      transcriptLines (handleUserTranscript t s) =
        transcriptLines s ++ [mkLine user t]) /\
  (forall s, handleUserTranscript [] s = s) /\
  (forall s t last,
      trim t <> [] -> lastOf (transcriptLines s) = Some last -> speaker last = ai ->
      transcriptLines (handleAiTranscript t s) =
        removelast (transcriptLines s) ++ [mkLine ai (text last ++ js " " ++ trim t)]) /\
  (forall s t,
      trim t <> [] ->
      (forall last, lastOf (transcriptLines s) = Some last -> speaker last = user) ->
      transcriptLines (handleAiTranscript t s) =
        transcriptLines s ++ [mkLine ai (trim t)]) /\
  (forall s t, trim t = [] -> handleAiTranscript t s = s) /\
  (let s := userFragments [js "Hel"; js "lo wor"; js "ld"] (initial 0) in
   transcriptLines s = [mkLine user (js "Hello world")] /\
   fullTranscriptHistory s = [js "User: Hello world"]) /\
  (let s := agentFragments [js "Hel"; js "lo wor"; js "ld"] (initial 0) in
   transcriptLines s = [mkLine ai (js "Hel lo wor ld")] /\
   fullTranscriptHistory s = [js "AI: Hel lo wor ld"]).
Proof.
  split; [intros t0 es; apply run_consistent; reflexivity|].
  split.
  { intros s t last Ht Hlast Hsp. unfold handleUserTranscript.
    rewrite (truthy_true t Ht). cbn [negb]. simpl.
    rewrite Hlast, Hsp. reflexivity. }
  split.
  { intros s t Ht Hlast. unfold handleUserTranscript.
    rewrite (truthy_true t Ht). cbn [negb]. simpl.
    destruct (lastOf (transcriptLines s)) as [last|]; [|reflexivity].
    now rewrite (Hlast last eq_refl). }
  split; [reflexivity|].
  assert (Htrim : forall t, trim t <> [] -> truthy t = true)
    by (intros [|c t] H; [now exfalso; apply H | reflexivity]).
  split.
  { intros s t last Ht Hlast Hsp. unfold handleAiTranscript.
    rewrite (Htrim t Ht), (truthy_true (trim t) Ht). cbn [negb]. simpl.
    rewrite Hlast, Hsp. reflexivity. }
  split.
  { intros s t Ht Hlast. unfold handleAiTranscript.
    rewrite (Htrim t Ht), (truthy_true (trim t) Ht). cbn [negb]. simpl.
    destruct (lastOf (transcriptLines s)) as [last|]; [|reflexivity].
    now rewrite (Hlast last eq_refl). }
  split.
  { intros s t Ht. unfold handleAiTranscript. rewrite Ht.
    destruct (truthy t); reflexivity. }
  split; vm_compute; split; reflexivity.
Qed.

End Transcript.

(** *** Voice activity detection *)

Section VAD.

Local Open Scope float_scope.

Lemma vad_noiseFloor (rms : float) (s : State) :
  noiseFloorRef (vad rms s) = noiseFloorUpdate (noiseFloorRef s) rms.
Proof. unfold vad. destruct (_ <? rms); reflexivity. Qed.

Lemma vad_speaking (rms : float) (s : State) :
  isUserSpeaking (vad rms s) =
  (detectionThreshold (noiseFloorUpdate (noiseFloorRef s) rms) <? rms).
Proof. unfold vad. cbn [noiseFloorRef set_noiseFloorRef]. destruct (_ <? rms); reflexivity. Qed.

(** In exact arithmetic a frame below the floor lowers the floor strictly, and
    a frame in the band moves the floor towards the frame's RMS. *)
Lemma noiseFloorUpdateQ_below (floor rms : Q) :
  (rms < floor)%Q -> (noiseFloorUpdateQ floor rms < floor)%Q.
Proof.
  intros H. unfold noiseFloorUpdateQ.
  destruct (Qlt_le_dec rms floor) as [_|H']; [lra | lra].
Qed.

Lemma noiseFloorUpdateQ_band (floor rms : Q) :
  (floor <= rms)%Q -> (rms < floor * 3)%Q ->
  (floor <= noiseFloorUpdateQ floor rms <= rms)%Q.
Proof.
  intros H1 H2. unfold noiseFloorUpdateQ.
  destruct (Qlt_le_dec rms floor); [lra|].
  destruct (Qlt_le_dec rms (floor * 3)); lra.
Qed.

(** C4, as stated, fails: a frame whose RMS is below the floor need not lower
    the floor. From the initial floor 0.002 a frame of RMS 0.0004 brings the
    floor to 0.0018400000000000003, and a second frame, whose RMS is the next
    double below that floor, raises it to 0.0018400000000000005. A frame whose
    RMS is the next double below 0.002 leaves the initial floor where it is.
    And after 7000 frames of digital silence the floor rests at 5 * 2^-1074,
    where a further silent frame (RMS 0, below the floor) leaves it. *)
Lemma vad_floor_counterexample :
  (let floor1 := noiseFloorUpdate 0.002 0.0004 in
   let rms2 := next_down floor1 in
   (0.0004 <? 0.002) = true /\
   (rms2 <? floor1) = true /\
   (floor1 <? noiseFloorUpdate floor1 rms2) = true) /\
  ((next_down 0.002 <? 0.002) = true /\
   noiseFloorUpdate 0.002 (next_down 0.002) = 0.002) /\
  (let s := capture (repeat silentFrame 7000) listening in
   (rmsOf silentFrame <? noiseFloorRef s) = true /\
   noiseFloorRef (onaudioprocess silentFrame s) = noiseFloorRef s).
Proof. vm_compute. repeat split; reflexivity. Qed.

(** C4, amended. For every frame processed by the VAD, with all arithmetic in
    IEEE 754 double precision: if the frame's RMS is below the current floor
    the new floor is floor * 0.90 + rms * 0.10; else if it is below 3 times
    the floor the new floor is floor * 0.95 + rms * 0.05; otherwise the floor
    is unchanged (a frame at 10 times the initial floor 0.002 does not move
    it). The frame is classified as speaking exactly when
    rms > max(0.03, floor * 6), for the floor just updated. From the initial
    floor a silent frame lowers the floor, to 0.0018000000000000002; that a
    frame below the floor lowers it is not true of every floor and frame. *)
Theorem vad_frame :
  (forall s rms,
      let floor := noiseFloorRef s in
      let s' := vad rms s in
      ((rms <? floor) = true ->
         noiseFloorRef s' = floor * 0.90 + rms * 0.10) /\
      ((rms <? floor) = false -> (rms <? floor * 3) = true ->
         noiseFloorRef s' = floor * 0.95 + rms * 0.05) /\
      ((rms <? floor) = false -> (rms <? floor * 3) = false ->
         noiseFloorRef s' = floor) /\
      isUserSpeaking s' = (Math_max 0.03 (noiseFloorRef s' * 6) <? rms)) /\
  (forall s inputData,
      isConnectedRef s = true -> isMountedRef s = true ->
      onaudioprocess inputData s = vad (rmsOf inputData) s) /\
  noiseFloorUpdate 0.002 (0.002 * 10) = 0.002 /\
  noiseFloorUpdate 0.002 0 = 0.0018000000000000002.
Proof.
  assert (Halpha : 1 - 0.05 = 0.95) by (vm_compute; reflexivity).
  split.
  { intros s rms floor s'. subst s' floor.
    rewrite vad_speaking, vad_noiseFloor. unfold noiseFloorUpdate, detectionThreshold.
    repeat split.
    - intros ->. reflexivity.
    - intros -> ->. now rewrite Halpha.
    - intros -> ->. reflexivity. }
  split.
  { intros s inputData Hc Hm. unfold onaudioprocess. now rewrite Hc, Hm. }
  split; vm_compute; reflexivity.
Qed.

End VAD.

(** *** Playback scheduler *)

Section Playback.

Local Open Scope Q_scope.

Lemma Qmax_zero (now : Q) : 0 <= now -> Qmax now 0 = now.
Proof.
  intros H. unfold Qmax, GenericMinMax.gmax.
  destruct (now ?= 0) eqn:E; try reflexivity.
  rewrite <- Qlt_alt in E. lra.
Qed.

Lemma enqueueAudio_scheduled (now : Q) (a : InlineAudio) (s : State) :
  truthy (audioData a) = true -> audioContextRef s <> None ->
  let source := mkSource (nextSourceId s) (Qmax now (nextAudioStartTimeRef s))
                  (bufferDuration a) in
  let s' := enqueueAudio now a s in
  scheduled s' = scheduled s ++ [source] /\
  sourcesRef s' = sourcesRef s ++ [source] /\
  nextAudioStartTimeRef s' = Qmax now (nextAudioStartTimeRef s) + bufferDuration a.
Proof.
  intros Hd Hc. unfold enqueueAudio. rewrite Hd. cbn [negb].
  destruct (audioContextRef s); [|contradiction].
  repeat split; reflexivity.
Qed.

(** C5, as stated, fails: on an interruption at audio time 4 the cursor is
    reset to 0, not to the clock. *)
Lemma interruption_flush_counterexample :
  let s := onmessage interruption 4 playing in
  nextAudioStartTimeRef playing = 3 + 2 /\
  nextAudioStartTimeRef s = 0 /\
  Qeq_bool (nextAudioStartTimeRef s) 4 = false.
Proof. vm_compute. repeat split; reflexivity. Qed.

(** C5, amended. On an interruption the flush stops every active playback
    source, clears the active set and resets the next-start cursor to 0, so
    that the next buffer enqueued (its data present, the audio context in
    place, the clock at [now >= 0]) starts at max(now, 0) = now: at once, not
    at a stale future offset. *)
Theorem interruption_flush (s : State) (now : Q) (a : InlineAudio) :
  truthy (audioData a) = true -> audioContextRef s <> None -> 0 <= now ->
  let s1 := handleInterrupted s in
  let s2 := enqueueAudio now a s1 in
  stoppedSources s1 = (stoppedSources s ++ map source_id (sourcesRef s))%list /\
  sourcesRef s1 = [] /\
  nextAudioStartTimeRef s1 = 0 /\
  scheduled s2 =
    (scheduled s ++ [mkSource (nextSourceId s) now (bufferDuration a)])%list /\
  sourcesRef s2 = [mkSource (nextSourceId s) now (bufferDuration a)].
Proof.
  intros Hd Hc Hnow s1 s2.
  destruct (enqueueAudio_scheduled now a s1 Hd Hc) as (Hs & Hsrc & _).
  subst s2. rewrite Hs, Hsrc. subst s1.
  cbn [handleInterrupted]. unfold handleInterrupted.
  cbn [scheduled sourcesRef nextAudioStartTimeRef stoppedSources nextSourceId
       set_stoppedSources set_sourcesRef set_nextAudioStartTimeRef
       set_isAiSpeakingRef set_isWaitingForResponseRef set_systemMessageStatus
       set_isProcessingTimeoutRef].
  rewrite (Qmax_zero now Hnow). repeat split; reflexivity.
Qed.

Lemma interruption_flush_witness :
  let s1 := handleInterrupted playing in
  let s2 := enqueueAudio 4 (mkAudio (js "UklGRg") 1) s1 in
  stoppedSources s1 = [0%nat] /\
  sourcesRef s1 = [] /\
  nextAudioStartTimeRef s1 = 0 /\
  scheduled s2 = [mkSource 0 3 2; mkSource 1 4 1] /\
  sourcesRef s2 = [mkSource 1 4 1].
Proof.
  apply (interruption_flush playing 4 (mkAudio (js "UklGRg") 1)).
  - reflexivity.
  - discriminate.
  - discriminate.
Defined.

End Playback.

(** *** Proctoring monitor *)

Section Proctoring.

Lemma In_insertTimeout (t : Z * TimeoutCallback) (q : list (Z * TimeoutCallback)) :
  In t (insertTimeout t q).
Proof.
  induction q as [|u q IH]; simpl; [now left|].
  destruct (fst t <? fst u); simpl; auto.
Qed.

Lemma handleTermination_nowMs (r : jsstring) (s : State) :
  nowMs (handleTermination r s) = nowMs s.
Proof. unfold handleTermination. destruct (terminationTriggeredRef s); reflexivity. Qed.

Lemma triggerViolation_struck (msg : jsstring) (s : State) :
  triggerViolation msg s = setTimeout ClearViolationMessage 3000 (struck msg s).
Proof. reflexivity. Qed.

Lemma sameTermination_fresh (s s' : State) :
  sameTermination s s' -> fresh s -> fresh s'.
Proof.
  intros (A & B & C & D & _) (Hl & Hp & Hc & Hd).
  unfold fresh. rewrite A, B, C, D. auto.
Qed.

Lemma sameTermination_terminating (r : jsstring) (h : list jsstring) (s s' : State) :
  sameTermination s s' -> terminating r h s -> terminating r h s'.
Proof.
  intros (A & B & C & D & E & F) H.
  unfold terminating. rewrite A, B, C, D, E, F. exact H.
Qed.

Lemma setTimeout_clear_sameTermination (ms : Z) (s : State) :
  sameTermination s (setTimeout ClearViolationMessage ms s).
Proof.
  unfold sameTermination, setTimeout, pendingTerminations. cbn.
  rewrite terminations_insert_other by discriminate. repeat split.
Qed.

Lemma triggerViolation_count (msg : jsstring) (s : State) :
  warningCount (triggerViolation msg s) = warningCount s + 1 /\
  violationMessage (triggerViolation msg s) = Some msg.
Proof.
  rewrite triggerViolation_struck. unfold struck.
  cbn [warningCount violationMessage set_violationMessage set_warningCount setTimeout
       set_timeouts].
  split; [reflexivity|].
  destruct (warningCount s + 1 >=? 3); [|reflexivity].
  unfold handleTermination.
  match goal with |- context [if ?b then _ else _] => destruct b end; reflexivity.
Qed.

(** A violation below the third strike leaves the termination log alone. *)
Lemma triggerViolation_below (msg : jsstring) (s : State) :
  warningCount s + 1 < 3 -> sameTermination s (triggerViolation msg s).
Proof.
  intros H. rewrite triggerViolation_struck.
  assert (E : (warningCount s + 1 >=? 3) = false)
    by (destruct (Z.geb_spec (warningCount s + 1) 3); [lia | reflexivity]).
  destruct (setTimeout_clear_sameTermination 3000 (struck msg s))
    as (A & B & C & D & F & G).
  unfold sameTermination. rewrite A, B, C, D, F, G.
  unfold struck. cbn [warningCount set_violationMessage]. rewrite E.
  repeat split.
Qed.

(** From the third strike on, [handleTermination] is invoked with the fixed
    reason. *)
Lemma triggerViolation_third (msg : jsstring) (s : State) :
  warningCount s + 1 >= 3 ->
  sameTermination
    (handleTermination securityViolation s) (triggerViolation msg s).
Proof.
  intros H. rewrite triggerViolation_struck.
  assert (E : (warningCount s + 1 >=? 3) = true)
    by (destruct (Z.geb_spec (warningCount s + 1) 3); [reflexivity | lia]).
  destruct (setTimeout_clear_sameTermination 3000 (struck msg s))
    as (A & B & C & D & F & G).
  unfold sameTermination. rewrite A, B, C, D, F, G.
  unfold struck. cbn [warningCount set_violationMessage]. rewrite E.
  unfold handleTermination. cbn [terminationTriggeredRef set_violationMessage].
  destruct (terminationTriggeredRef s); repeat split.
Qed.

Lemma advance_warningCount (ms : Z) (s : State) :
  warningCount (advance ms s) = warningCount s.
Proof.
  unfold advance.
  match goal with
  | |- warningCount (fold_left _ _ ?s1) = _ =>
      change (warningCount s) with (warningCount s1); generalize s1
  end.
  intros s1. generalize (filter (isDue (nowMs s + ms)) (timeouts s)).
  intros l. revert s1. induction l as [|[d cb] l IH]; intros s1; simpl;
    [reflexivity|].
  rewrite IH. destruct cb; unfold runTimeout; try reflexivity.
  unfold disconnect. destruct (sessionRef _) as [hd|]; [destruct (closeThrows hd)|];
    reflexivity.
Qed.

Lemma violations_nonneg (os : list Observation) : 0 <= violations os.
Proof. induction os as [|[| | |ms] os IH]; cbn [violations]; lia. Qed.

Lemma observe_proctored (o : Observation) (n : Z) (h : list jsstring) (s : State) :
  0 <= n -> proctored n h s -> proctored (n + violations [o]) h (observe o s).
Proof.
  intros Hn [Hcount Hlog]. destruct o as [| | |ms]; cbn [violations observe];
    unfold handleVisibilityChange.
  - (* a violation *)
    destruct (triggerViolation_count (js "Tab switch detected.") s) as [Hc _].
    split; [rewrite Hc; lia|].
    destruct (n <? 3) eqn:E1; [apply Z.ltb_lt in E1 | apply Z.ltb_ge in E1].
    + destruct Hlog as [Hf Hh].
      destruct (n + (1 + 0) <? 3) eqn:E2;
        [apply Z.ltb_lt in E2 | apply Z.ltb_ge in E2].
      * pose proof (triggerViolation_below (js "Tab switch detected.") s
                      ltac:(lia)) as Hs.
        split; [eapply sameTermination_fresh; eauto|].
        destruct Hs as (_ & _ & _ & _ & -> & _). exact Hh.
      * eapply sameTermination_terminating;
          [apply triggerViolation_third; lia|].
        rewrite <- Hh. apply handleTermination_fresh, Hf.
    + assert (E2 : (n + (1 + 0) <? 3) = false) by (apply Z.ltb_ge; lia).
      rewrite E2.
      eapply sameTermination_terminating;
        [apply triggerViolation_third; lia|].
      rewrite handleTermination_latched; [exact Hlog | apply Hlog].
  - rewrite Z.add_0_r. split; assumption.
  - rewrite Z.add_0_r. split; [exact Hcount|].
    destruct (n <? 3).
    + destruct Hlog as [Hf Hh]. split; [|exact Hh].
      eapply sameTermination_fresh; [|exact Hf]. repeat split.
    + eapply sameTermination_terminating; [|exact Hlog]. repeat split.
  - rewrite Z.add_0_r. split.
    + now rewrite advance_warningCount.
    + destruct (n <? 3).
      * destruct Hlog as [Hf Hh].
        destruct (advance_fresh (Z.of_N ms) s Hf) as [Hf' Hh']. split; congruence.
      * apply advance_terminating; [lia | exact Hlog].
Qed.

Lemma observations_proctored (os : list Observation) (n : Z) (h : list jsstring)
  (s : State) :
  0 <= n -> proctored n h s -> proctored (n + violations os) h (observations os s).
Proof.
  revert n s. induction os as [|o os IH]; intros n s Hn H.
  - cbn [violations]. now rewrite Z.add_0_r.
  - change (observations (o :: os) s) with (observations os (observe o s)).
    pose proof (observe_proctored o n h s Hn H) as H1.
    pose proof (violations_nonneg [o]) as Hv.
    apply IH in H1; [|lia].
    replace (n + violations (o :: os)) with (n + violations [o] + violations os);
      [exact H1|].
    destruct o; cbn [violations]; lia.
Qed.

(** C7, as stated, fails for the context menu: blocking it three times counts
    no strike and requests no termination. *)
Lemma proctoring_counterexample :
  let s := run [EvContextMenu; EvContextMenu; EvContextMenu] listening in
  preventedDefaults s = 3%nat /\
  warningCount s = 0 /\
  terminationTriggeredRef s = false /\
  timeouts s = [] /\
  completed s = [].
Proof. vm_compute. repeat split; reflexivity. Qed.

(** The warning of a violation is kept in [violationMessage], which the markup
    does not read, no more than the strike count: a violation changes nothing
    of what is rendered, nor does the callback that clears the warning. *)
Lemma violation_not_rendered (msg : jsstring) (s : State) :
  rendered (triggerViolation msg s) = rendered s /\
  rendered (runTimeout ClearViolationMessage s) = rendered s.
Proof.
  split; [|reflexivity].
  rewrite triggerViolation_struck. unfold struck.
  cbn [warningCount set_violationMessage].
  destruct (warningCount s + 1 >=? 3); [|reflexivity].
  unfold handleTermination. cbn [terminationTriggeredRef set_violationMessage].
  destruct (terminationTriggeredRef s); reflexivity.
Qed.

(** C7, amended. A violation is a loss of visibility of the tab; a
    context-menu action is only prevented, and neither it nor the tab
    becoming visible again changes the strikes or the termination log. Every
    violation increments the strike counter by exactly one; when the
    incremented count is 3 or more, [handleTermination] is invoked with the
    fixed security-violation reason, and below 3 the termination log is
    untouched. Over any sequence of observations from a state with no strike
    and no termination requested, three or more violations end, once the
    grace delay has elapsed, in exactly one teardown and exactly one
    completion, with that reason; fewer than three leave no termination
    requested. *)
Theorem proctoring_strikes :
  (forall s,
      let s1 := handleVisibilityChange true s in
      warningCount s1 = warningCount s + 1 /\
      (warningCount s + 1 >= 3 ->
         sameTermination (handleTermination securityViolation s) s1) /\
      (warningCount s + 1 < 3 -> sameTermination s s1)) /\
  (forall s, handleVisibilityChange false s = s) /\
  (forall s,
      let s1 := preventContextMenu s in
      warningCount s1 = warningCount s /\
      timeouts s1 = timeouts s /\
      sameTermination s s1) /\
  (forall s0 os,
      fresh s0 -> warningCount s0 = 0 -> violations os >= 3 ->
      let s := advance 2000 (observations os s0) in
      warningCount s = violations os /\
      completed s = [(join newline (fullTranscriptHistory s0), Some securityViolation)] /\
      disconnectCalls s = 1%nat /\
      pendingTerminations s = []) /\
  (forall s0 os,
      fresh s0 -> warningCount s0 = 0 -> violations os < 3 ->
      fresh (observations os s0) /\ warningCount (observations os s0) = violations os).
Proof.
  split.
  { intros s s1. subst s1. unfold handleVisibilityChange.
    destruct (triggerViolation_count (js "Tab switch detected.") s) as [Hc _].
    split; [exact Hc|].
    split; [apply triggerViolation_third | apply triggerViolation_below]. }
  split; [reflexivity|].
  split; [intros s s1; subst s1; unfold sameTermination; repeat split; reflexivity|].
  split.
  { intros s0 os Hf Hw Hv s.
    assert (H0 : proctored 0 (fullTranscriptHistory s0) s0) by (split; [exact Hw | split; [exact Hf | reflexivity]]).
    apply (observations_proctored os) in H0; [|lia].
    destruct H0 as [Hcount Hlog]. rewrite Z.add_0_l in *.
    assert (E : (violations os <? 3) = false) by (apply Z.ltb_ge; lia).
    rewrite E in Hlog.
    destruct (advance_fires 2000 _ _ _ (Z.le_refl _) Hlog) as (Hc & Hd & Hp & _).
    subst s. rewrite advance_warningCount. repeat split; assumption. }
  intros s0 os Hf Hw Hv.
  assert (H0 : proctored 0 (fullTranscriptHistory s0) s0) by (split; [exact Hw | split; [exact Hf | reflexivity]]).
  apply (observations_proctored os) in H0; [|lia].
  destruct H0 as [Hcount Hlog]. rewrite Z.add_0_l in *.
  assert (E : (violations os <? 3) = true) by (apply Z.ltb_lt; lia).
  rewrite E in Hlog. split; [apply Hlog | exact Hcount].
Qed.

(** Five tab switches: the third one terminates the session, once. *)
Example proctoring_five_switches :
  let s := run [EvVisibilityChange true; EvAdvance 500%N; EvVisibilityChange true;
                EvVisibilityChange false; EvVisibilityChange true;
                EvVisibilityChange true; EvAdvance 2500%N; EvVisibilityChange true;
                EvAdvance 3000%N] listening in
  warningCount s = 5 /\
  violationMessage s = None /\
  completed s = [([], Some securityViolation)] /\
  disconnectCalls s = 1%nat /\
  timeouts s = [].
Proof. vm_compute. repeat split; reflexivity. Qed.

End Proctoring.

(** *** The latch over the whole component *)

Section Arbitration.

Lemma sameLog_refl (s : State) : sameLog s s.
Proof. repeat split. Qed.

Lemma sameLog_trans (s1 s2 s3 : State) :
  sameLog s1 s2 -> sameLog s2 s3 -> sameLog s1 s3.
Proof. intros (A & B & C) (D & E & F). repeat split; congruence. Qed.

Lemma sameLog_once (s s' : State) : sameLog s s' -> once s -> once s'.
Proof. unfold once. intros (A & B & C) H. now rewrite A, B, C. Qed.

Lemma handleTermination_once (r : jsstring) (s : State) :
  once s -> once (handleTermination r s).
Proof.
  unfold once, handleTermination. destruct (terminationTriggeredRef s) eqn:E.
  - now rewrite E.
  - intros H. unfold setTimeout, pendingTerminations in *. cbn.
    destruct (terminations (timeouts s)) eqn:Hq; [|discriminate].
    destruct (completed s); [|discriminate].
    now rewrite terminations_insert_first by exact Hq.
Qed.

Lemma filter_split_length {A : Type} (f : A -> bool) (l : list A) :
  (List.length (filter (fun x => negb (f x)) l) + List.length (filter f l))%nat =
  List.length l.
Proof. induction l as [|x l IH]; simpl; [reflexivity|]. destruct (f x); simpl; lia. Qed.

Lemma advance_once (ms : Z) (s : State) : once s -> once (advance ms s).
Proof.
  unfold once. destruct (advance_log ms s) as (Hc & _ & _ & Hl & Hp & _).
  rewrite Hc, Hl, Hp, length_app, length_map. intros <-.
  pose proof (filter_split_length (fun p : Z * jsstring => fst p <=? nowMs s + ms)
                (pendingTerminations s)).
  lia.
Qed.

Lemma disconnect_sameLog (s : State) : sameLog s (disconnect s).
Proof. unfold disconnect. same_log. Qed.

Lemma sendSystemMessage_sameLog (t : jsstring) (s : State) :
  sameLog s (sendSystemMessage t s).
Proof.
  unfold sendSystemMessage. destruct (sessionRef s) as [h|]; [|apply sameLog_refl].
  destruct (sendThrows h); [apply sameLog_refl|].
  unfold sameLog, setTimeout, pendingTerminations. cbn.
  rewrite terminations_insert_other by discriminate. repeat split.
Qed.

Lemma silenceTick_sameLog (s : State) : sameLog s (silenceTick s).
Proof.
  unfold silenceTick.
  repeat match goal with
         | |- context [if ?b then _ else _] => destruct b
         end; try apply sameLog_refl;
  (eapply sameLog_trans; [|apply sendSystemMessage_sameLog]); repeat split.
Qed.

Lemma triggerViolation_once (msg : jsstring) (s : State) :
  once s -> once (triggerViolation msg s).
Proof.
  intros H. rewrite triggerViolation_struck.
  apply (sameLog_once (struck msg s)).
  { destruct (setTimeout_clear_sameTermination 3000 (struck msg s)) as (A & B & C & _).
    repeat split; assumption. }
  unfold struck. cbn [warningCount set_violationMessage].
  assert (H1 : once (set_violationMessage (Some msg) s)) by exact H.
  destruct (warningCount s + 1 >=? 3).
  - eapply sameLog_once; [|apply (handleTermination_once securityViolation), H1].
    repeat split.
  - exact H.
Qed.

Lemma countdownTick_once (s : State) : once s -> once (countdownTick s).
Proof.
  intros H. unfold countdownTick. destruct (timeLeft s <=? 1); [|exact H].
  eapply sameLog_once;
    [|apply (handleTermination_once (js "Time Limit Exceeded")
               (set_countdownInterval false s)), H].
  repeat split.
Qed.

Lemma handleToolCall_once (calls : list FunctionCall) (s : State) :
  once s -> once (handleToolCall calls s).
Proof.
  intros H. unfold handleToolCall. destruct (find _ _); [|exact H].
  apply handleTermination_once. exact H.
Qed.

Lemma when_once (b : bool) (f : State -> State) (s : State) :
  (forall s, once s -> once (f s)) -> once s -> once (when b f s).
Proof. intros Hf H. destruct b; simpl; auto. Qed.

Lemma whenSome_once {A : Type} (o : option A) (f : A -> State -> State) (s : State) :
  (forall a s, once s -> once (f a s)) -> once s -> once (whenSome o f s).
Proof. intros Hf H. destruct o; simpl; auto. Qed.

Lemma onmessage_once (m : Message) (now : Q) (s : State) :
  once s -> once (onmessage m now s).
Proof.
  intros H. unfold onmessage.
  apply whenSome_once;
    [intros a s0; apply sameLog_once; unfold enqueueAudio; same_log|].
  apply whenSome_once;
    [intros a s0; apply sameLog_once; unfold handleUserTranscript; same_log|].
  apply whenSome_once;
    [intros a s0; apply sameLog_once; unfold handleAiTranscript; same_log|].
  apply when_once; [intros s0; apply sameLog_once; repeat split|].
  apply when_once; [intros s0; apply sameLog_once; repeat split|].
  apply when_once; [intros s0; apply sameLog_once; repeat split|].
  apply whenSome_once; [intros a s0; apply handleToolCall_once | exact H].
Qed.

Lemma handle_once (e : Event) (s : State) : once s -> once (handle e s).
Proof.
  intros H. destruct e; cbn [handle].
  - exact H.
  - exact H.
  - eapply sameLog_once; [|exact H]. unfold onopen. same_log.
  - apply onmessage_once, H.
  - exact H.
  - eapply sameLog_once; [|exact H]. unfold onclose. same_log.
  - eapply sameLog_once; [|exact H]. unfold onaudioprocess, vad. same_log.
  - exact H.
  - destruct (isMountedRef s); [|exact H].
    eapply sameLog_once; [apply silenceTick_sameLog | exact H].
  - destruct (isMountedRef s && countdownInterval s);
      [apply countdownTick_once|]; exact H.
  - destruct (isMountedRef s); [|exact H]. destruct hidden; [|exact H].
    apply triggerViolation_once, H.
  - destruct (isMountedRef s); exact H.
  - eapply sameLog_once; [|exact H]. unfold toggleMute. same_log.
  - apply advance_once, H.
  - destruct (isMountedRef s); [|exact H].
    eapply sameLog_once; [|exact H]. unfold unmount.
    eapply sameLog_trans; [|apply disconnect_sameLog]. repeat split.
Qed.

Lemma step_once (e : Event) (s : State) : once s -> once (step e s).
Proof.
  intros H. unfold step. apply (handle_once e) in H.
  eapply sameLog_once; [|exact H]. unfold statusEffect. same_log.
Qed.

(** Whatever happens to the component, from its mounting on: [onComplete] is
    called at most once, and a termination is pending or done exactly when the
    latch is set. *)
Lemma run_once (t0 : Z) (es : list Event) :
  let s := run es (initial t0) in
  once s /\ (List.length (completed s) <= 1)%nat.
Proof.
  assert (H : once (run es (initial t0))).
  { assert (H0 : once (initial t0)) by reflexivity.
    revert H0. generalize (initial t0). induction es as [|e es IH]; intros s H0;
      simpl; [exact H0|].
    apply IH, step_once, H0. }
  split; [exact H|]. unfold once in H.
  destruct (terminationTriggeredRef _); lia.
Qed.

End Arbitration.

(** *** Mute toggle *)

Section Mute.

Lemma toggleMute_step (s : State) (tracks : list MediaTrack) :
  streamRef s = Some tracks ->
  isMuted (toggleMute s) = negb (isMuted s) /\
  audioEnabled (negb (isMuted s)) (toggleMute s) /\
  streamRef (toggleMute s) =
    Some (map (fun t => match kind t with
                        | audio => mkTrack audio (negb (isMuted s))
                        | video => t
                        end) tracks).
Proof.
  intros H. unfold toggleMute, audioEnabled. rewrite H.
  split; [reflexivity|]. split; [|reflexivity].
  eexists. split; [reflexivity|].
  apply Forall_map, Forall_forall. intros [[|] e] _; cbn; [reflexivity | discriminate].
Qed.

(** C9. After every call of [toggleMute] (with the media stream in place),
    [isMuted] is flipped and every microphone audio track has its [enabled]
    flag equal to the new [isMuted]: muted in the interface means tracks left
    enabled, unmuted means tracks disabled. The same holds after any number
    of toggles from the first one on; video tracks are not touched. *)
Theorem toggleMute_tracks (s : State) (tracks : list MediaTrack) :
  streamRef s = Some tracks ->
  (let s' := toggleMute s in
   isMuted s' = negb (isMuted s) /\
   audioEnabled (isMuted s') s' /\
   (isMuted s' = true -> audioEnabled true s') /\
   (isMuted s' = false -> audioEnabled false s') /\
   exists tracks',
     streamRef s' = Some tracks' /\
     filter (fun t => match kind t with video => true | audio => false end) tracks' =
     filter (fun t => match kind t with video => true | audio => false end) tracks) /\
  (forall n, let s' := Nat.iter (S n) toggleMute s in audioEnabled (isMuted s') s').
Proof.
  intros H. split.
  - destruct (toggleMute_step s tracks H) as (Hm & Ha & Hs).
    cbv zeta. rewrite Hm. split; [reflexivity|]. split; [exact Ha|].
    split; [intros <-; exact Ha|]. split; [intros <-; exact Ha|].
    eexists. split; [exact Hs|].
    clear. induction tracks as [|[[|] e] l IH]; cbn; [reflexivity | exact IH | now rewrite IH].
  - intros n. cbv zeta.
    assert (Hn : exists l, streamRef (Nat.iter n toggleMute s) = Some l).
    { induction n as [|n IH]; [eauto|].
      destruct IH as [l Hl].
      change (Nat.iter (S n) toggleMute s) with (toggleMute (Nat.iter n toggleMute s)).
      destruct (toggleMute_step _ l Hl) as (_ & _ & Hs). eauto. }
    destruct Hn as [l Hl].
    change (Nat.iter (S n) toggleMute s) with (toggleMute (Nat.iter n toggleMute s)).
    destruct (toggleMute_step _ l Hl) as (Hm & Ha & _).
    rewrite Hm. exact Ha.
Qed.

Lemma toggleMute_tracks_witness :
  let s' := toggleMute listening in
  isMuted s' = true /\
  streamRef s' = Some [mkTrack audio true; mkTrack video true] /\
  audioEnabled true s'.
Proof.
  destruct (toggleMute_tracks listening [mkTrack audio true; mkTrack video true] eq_refl)
    as ((Hm & Ha & _) & _).
  split; [exact Hm|]. split; [reflexivity | exact Ha].
Defined.

(** Muting and unmuting again disables the microphone while the interface
    shows it live. *)
Example toggleMute_twice :
  let s := run [EvToggleMute; EvToggleMute] listening in
  isMuted s = false /\
  streamRef s = Some [mkTrack audio false; mkTrack video true].
Proof. vm_compute. split; reflexivity. Qed.

End Mute.

(** *** Invariants of the whole component *)

(** A property kept by every callback is kept along every run. *)
Section Invariant.

Variable P : State -> Prop.

Hypothesis P_mediaReady : forall tracks s, P s -> P (mediaReady tracks s).
Hypothesis P_sessionResolved : forall h s, P s -> P (set_sessionRef (Some h) s).
Hypothesis P_onopen : forall s, P s -> P (onopen s).
Hypothesis P_onmessage : forall m now s, P s -> P (onmessage m now s).
Hypothesis P_onerror : forall s, P s -> P (onerror s).
Hypothesis P_onclose : forall s, P s -> P (onclose s).
Hypothesis P_onaudioprocess : forall inputData s, P s -> P (onaudioprocess inputData s).
Hypothesis P_onended : forall id s, P s -> P (onended id s).
Hypothesis P_silenceTick : forall s, isMountedRef s = true -> P s -> P (silenceTick s).
Hypothesis P_countdownTick :
  forall s, isMountedRef s = true -> countdownInterval s = true -> P s ->
            P (countdownTick s).
Hypothesis P_triggerViolation :
  forall msg s, isMountedRef s = true -> P s -> P (triggerViolation msg s).
Hypothesis P_preventContextMenu : forall s, P s -> P (preventContextMenu s).
Hypothesis P_toggleMute : forall s, isMountedRef s = true -> P s -> P (toggleMute s).
Hypothesis P_advance : forall ms s, 0 <= ms -> P s -> P (advance ms s).
Hypothesis P_unmount : forall s, isMountedRef s = true -> P s -> P (unmount s).
Hypothesis P_statusEffect : forall before s, P s -> P (statusEffect before s).

Lemma handle_invariant (e : Event) (s : State) : P s -> P (handle e s).
Proof.
  intros H. destruct e; cbn [handle]; auto.
  - destruct (scriptProcessorRef s) as [p|]; [|exact H].
    destruct (callbackInstalled p); auto.
  - destruct (isMountedRef s) eqn:E; auto.
  - destruct (isMountedRef s) eqn:E; [|exact H].
    destruct (countdownInterval s) eqn:F; cbn [andb]; auto.
  - destruct (isMountedRef s) eqn:E; [|exact H].
    destruct hidden; cbn [handleVisibilityChange]; auto.
  - destruct (isMountedRef s); auto.
  - destruct (isMountedRef s) eqn:E; auto.
  - apply P_advance; [apply N2Z.is_nonneg | exact H].
  - destruct (isMountedRef s) eqn:E; auto.
Qed.

Lemma step_invariant (e : Event) (s : State) : P s -> P (step e s).
Proof. intros H. unfold step. apply P_statusEffect, handle_invariant, H. Qed.

Lemma run_invariant (es : list Event) (s : State) : P s -> P (run es s).
Proof.
  revert s. induction es as [|e es IH]; intros s H; [exact H|].
  apply IH, step_invariant, H.
Qed.

End Invariant.

(** The same for the parts of [onmessage] and of [advance]. *)
Section Parts.

Variable P : State -> Prop.

Lemma when_invariant (b : bool) (f : State -> State) (s : State) :
  (forall s, P s -> P (f s)) -> P s -> P (when b f s).
Proof. intros Hf H. destruct b; simpl; auto. Qed.

Lemma whenSome_invariant {A : Type} (o : option A) (f : A -> State -> State) (s : State) :
  (forall a s, P s -> P (f a s)) -> P s -> P (whenSome o f s).
Proof. intros Hf H. destruct o; simpl; auto. Qed.

Lemma onmessage_invariant (m : Message) (now : Q) (s : State) :
  (forall calls s, P s -> P (handleToolCall calls s)) ->
  (forall s, P s -> P (handleInterrupted s)) ->
  (forall s, P s -> P (handleContent s)) ->
  (forall s, P s -> P (handleTurnComplete s)) ->
  (forall t s, P s -> P (handleAiTranscript t s)) ->
  (forall t s, P s -> P (handleUserTranscript t s)) ->
  (forall now a s, P s -> P (enqueueAudio now a s)) ->
  P s -> P (onmessage m now s).
Proof.
  intros H1 H2 H3 H4 H5 H6 H7 H. unfold onmessage.
  apply whenSome_invariant; [apply H7|].
  apply whenSome_invariant; [apply H6|].
  apply whenSome_invariant; [apply H5|].
  apply when_invariant; [apply H4|].
  apply when_invariant; [apply H3|].
  apply when_invariant; [apply H2|].
  apply whenSome_invariant; [apply H1 | exact H].
Qed.

Lemma runTimeouts_invariant (l : list (Z * TimeoutCallback)) (s : State) :
  (forall cb s, P s -> P (runTimeout cb s)) ->
  P s -> P (fold_left (fun s p => runTimeout (snd p) s) l s).
Proof.
  intros Hr. revert s. induction l as [|p l IH]; intros s H; [exact H|].
  simpl. apply IH, Hr, H.
Qed.

Lemma advance_invariant (ms : Z) (s : State) :
  (forall t q s, P s -> P (set_timeouts q (set_nowMs t s))) ->
  (forall cb s, P s -> P (runTimeout cb s)) ->
  P s -> P (advance ms s).
Proof.
  intros Hc Hr H. unfold advance. apply runTimeouts_invariant; [exact Hr|].
  apply Hc, H.
Qed.

End Parts.

(** *** Counters *)

Section Counters.

(** Each part of [counted], from the facts at hand. *)
Ltac counted_parts :=
  split; [|split; [|split; [|split]]];
  first [ assumption | cbn; lia | intros _; assumption | intros _; reflexivity
        | let F := fresh in intros F; exfalso; cbn in F; lia ].

Lemma handleTermination_counted (r : jsstring) (s : State) :
  counted s -> counted (handleTermination r s) /\
  terminationTriggeredRef (handleTermination r s) = true.
Proof.
  intros H. unfold handleTermination.
  destruct (terminationTriggeredRef s) eqn:E; [split; assumption|].
  split; [|reflexivity].
  destruct H as (A & B & C & _ & _). counted_parts.
Qed.

Lemma runTimeout_counted (cb : TimeoutCallback) (s : State) :
  counted s -> counted (runTimeout cb s).
Proof.
  intros H. destruct cb; [|exact H|exact H].
  unfold runTimeout, disconnect.
  repeat match goal with
         | |- context [if ?b then _ else _] => destruct b
         | |- context [match ?x with _ => _ end] => destruct x
         end; exact H.
Qed.

Lemma sendSystemMessage_counted (t : jsstring) (s : State) :
  counted s -> counted (sendSystemMessage t s).
Proof.
  intros H. unfold sendSystemMessage.
  destruct (sessionRef s) as [h|]; [|exact H]. destruct (sendThrows h); exact H.
Qed.

Lemma run_counted (es : list Event) (s : State) : counted s -> counted (run es s).
Proof.
  apply run_invariant.
  - intros tracks s0 H. exact H.
  - intros h s0 H. exact H.
  - intros s0 H. unfold onopen.
    destruct (negb (isMountedRef s0)); [exact H|].
    destruct (scriptProcessorRef _); exact H.
  - intros m now s0. apply onmessage_invariant.
    + intros calls s1 H. unfold handleToolCall. destruct (find _ _); [|exact H].
      apply handleTermination_counted. exact H.
    + intros s1 H. exact H.
    + intros s1 H. exact H.
    + intros s1 H. exact H.
    + intros t s1 H. unfold handleAiTranscript.
      destruct (negb (truthy t)); [exact H|].
      destruct (negb (truthy (trim t))); exact H.
    + intros t s1 H. unfold handleUserTranscript.
      destruct (negb (truthy t)); exact H.
    + intros now0 a s1 H. unfold enqueueAudio.
      destruct (negb (truthy (audioData a))); [exact H|].
      destruct (audioContextRef s1); exact H.
  - intros s0 H. exact H.
  - intros s0 H. unfold onclose. destruct (isConnectedRef s0); exact H.
  - intros inputData s0 H. unfold onaudioprocess.
    destruct (negb (isConnectedRef s0) || negb (isMountedRef s0)); [exact H|].
    unfold vad. destruct (_ <? _)%float; [|exact H].
    destruct H as (A & B & C & D & E). counted_parts.
  - intros id s0 H. exact H.
  - intros s0 _ H. unfold silenceTick.
    destruct (negb (isConnectedRef s0)); [exact H|].
    destruct (_ && _); [|exact H].
    destruct (_ >? 10000); [|exact H].
    cbn [silenceWarningCountRef set_silenceWarningCountRef set_isProcessingTimeoutRef].
    destruct (silenceWarningCountRef s0 + 1 >? 2) eqn:G;
      apply sendSystemMessage_counted;
      destruct H as (A & B & C & D & E); counted_parts.
  - intros s0 _ _ H. unfold countdownTick.
    destruct (timeLeft s0 <=? 1) eqn:G.
    + destruct (handleTermination_counted (js "Time Limit Exceeded")
                  (set_countdownInterval false s0) H) as ((A & B & C & D & E) & L).
      counted_parts.
    + destruct H as (A & B & C & D & E). counted_parts.
  - intros msg s0 _ H. rewrite triggerViolation_struck.
    unfold struck. cbn [warningCount set_violationMessage].
    assert (H1 : counted (set_violationMessage (Some msg) s0)) by exact H.
    destruct (warningCount s0 + 1 >=? 3) eqn:G.
    + destruct (handleTermination_counted securityViolation _ H1)
        as ((A & B & C & D & E) & L).
      counted_parts.
    + destruct H as (A & B & C & D & E). counted_parts.
  - intros s0 H. exact H.
  - intros s0 _ H. unfold toggleMute. destruct (streamRef s0); exact H.
  - intros ms s0 _. apply advance_invariant.
    + intros t q s1 H. exact H.
    + apply runTimeout_counted.
  - intros s0 _ H. unfold unmount, disconnect.
    repeat match goal with
           | |- context [if ?b then _ else _] => destruct b
           | |- context [match ?x with _ => _ end] => destruct x
           end; exact H.
  - intros before s0 H. unfold statusEffect.
    destruct before, (status s0); exact H.
Qed.

(** X1. Whatever happens to the component from its mounting on, the seconds
    left stay between 0 and 600, the silence strike count stays between 0 and
    2 and the proctoring strike count is never negative. *)
Theorem counters_in_range (t0 : Z) (es : list Event) :
  let s := run es (initial t0) in
  0 <= timeLeft s <= 600 /\ 0 <= silenceWarningCountRef s <= 2 /\ 0 <= warningCount s.
Proof.
  assert (H : counted (initial t0)).
  { unfold counted. cbn. repeat split; try lia; intros; discriminate. }
  destruct (run_counted es _ H) as (A & B & C & _). cbv zeta. auto.
Qed.

(** X2. Whatever happens to the component from its mounting on: when the
    clock shows zero, or when three proctoring strikes have been counted,
    the termination latch is set and exactly one termination is pending or
    done. *)
Theorem exhaustion_latched (t0 : Z) (es : list Event) :
  let s := run es (initial t0) in
  (timeLeft s = 0 \/ 3 <= warningCount s) ->
  terminationTriggeredRef s = true /\
  (List.length (pendingTerminations s) + List.length (completed s) = 1)%nat.
Proof.
  assert (H : counted (initial t0)).
  { unfold counted. cbn. repeat split; try lia; intros; discriminate. }
  destruct (run_counted es _ H) as (_ & _ & _ & D & E).
  destruct (run_once t0 es) as (O & _).
  cbv zeta. intros F.
  assert (L : terminationTriggeredRef (run es (initial t0)) = true)
    by (destruct F; auto).
  split; [exact L|]. unfold once in O. now rewrite L in O.
Qed.

Lemma exhaustion_latched_witness :
  let s := run (repeat EvCountdownTick 600) listening in
  timeLeft s = 0 /\ terminationTriggeredRef s = true /\
  (List.length (pendingTerminations s) + List.length (completed s) = 1)%nat.
Proof.
  assert (E : run (repeat EvCountdownTick 600) listening =
              run ([EvMediaReady [mkTrack audio true; mkTrack video true];
                    EvSessionResolved (mkSession false false); EvOpen]
                   ++ repeat EvCountdownTick 600) (initial 0)).
  { unfold listening, run. now rewrite fold_left_app. }
  assert (T : timeLeft (run (repeat EvCountdownTick 600) listening) = 0)
    by (vm_compute; reflexivity).
  cbv zeta. split; [exact T|].
  rewrite E in *. apply (exhaustion_latched 0). left. exact T.
Defined.

End Counters.

(** *** Teardown *)

Section Teardown.

Lemma closeContext_idempotent (c : option AudioContextState) :
  closeContext (closeContext c) = closeContext c.
Proof. now destruct c. Qed.

(** X3. [disconnect] tolerates being called again: the second call stops no
    further source and changes no ref. After it the capture callback, the
    silence monitor and the mute button do nothing. *)
Theorem disconnect_idempotent (s : State) :
  disconnect (disconnect s) =
    set_disconnectCalls (S (disconnectCalls (disconnect s))) (disconnect s) /\
  stoppedSources (disconnect (disconnect s)) = stoppedSources (disconnect s) /\
  silenceTick (disconnect s) = disconnect s /\
  (forall inputData, onaudioprocess inputData (disconnect s) = disconnect s) /\
  toggleMute (disconnect s) = disconnect s.
Proof.
  assert (E : disconnect (disconnect s) =
              set_disconnectCalls (S (disconnectCalls (disconnect s))) (disconnect s)).
  { destruct s.
    destruct sessionRef0 as [[st ct]|]; [destruct ct|];
      destruct audioContextRef0, inputAudioContextRef0;
      vm_compute; f_equal; apply app_nil_r. }
  assert (F : forall n s', stoppedSources (set_disconnectCalls n s') = stoppedSources s')
    by reflexivity.
  split; [exact E|].
  split; [exact (eq_trans (f_equal stoppedSources E) (F _ _))|].
  assert (C : isConnectedRef (disconnect s) = false).
  { unfold disconnect. destruct (sessionRef _) as [h|]; [destruct (closeThrows h)|];
      reflexivity. }
  assert (M : streamRef (disconnect s) = None).
  { unfold disconnect. destruct (sessionRef _) as [h|]; [destruct (closeThrows h)|];
      reflexivity. }
  split; [|split; [intros inputData|]];
    unfold silenceTick, onaudioprocess, toggleMute; rewrite ?C, ?M; reflexivity.
Qed.

End Teardown.

(** *** The lock of the silence monitor *)

Section Lock.

Lemma directives_app (l l' : list Outgoing) :
  directives (l ++ l') = directives l ++ directives l'.
Proof.
  induction l as [|[t|c] l IH]; simpl; [reflexivity | now rewrite IH | exact IH].
Qed.

Lemma sendSystemMessage_sent (t : jsstring) (s : State) :
  sent (sendSystemMessage t s) = sent s \/
  sent (sendSystemMessage t s) = sent s ++ [RealtimeText t].
Proof.
  unfold sendSystemMessage. destruct (sessionRef s) as [h|]; [|now left].
  destruct (sendThrows h); [now left | now right].
Qed.

Lemma silenceTick_wire (s : State) :
  (isProcessingTimeoutRef s = true -> silenceTick s = s) /\
  (silenceTick s = s \/
   isProcessingTimeoutRef (silenceTick s) = true /\
   (sent (silenceTick s) = sent s \/
    sent (silenceTick s) = sent s ++ [RealtimeText silentAlert] \/
    sent (silenceTick s) = sent s ++ [RealtimeText stillSilentAlert])).
Proof.
  unfold silenceTick.
  destruct (negb (isConnectedRef s)); [split; [reflexivity | now left]|].
  destruct (isProcessingTimeoutRef s) eqn:L.
  { rewrite !andb_false_r. split; [reflexivity | now left]. }
  split; [discriminate|].
  destruct (_ && _); [|now left].
  destruct (_ >? 10000); [|now left].
  right.
  cbn [silenceWarningCountRef set_silenceWarningCountRef set_isProcessingTimeoutRef].
  destruct (silenceWarningCountRef s + 1 >? 2).
  - match goal with
    | |- context [sendSystemMessage ?t ?x] =>
        destruct (sendSystemMessage_frame t x) as (_ & _ & _ & F);
        destruct (sendSystemMessage_sent t x) as [G|G]
    end; cbv zeta in F; rewrite F, G; (split; [reflexivity|]); [left | right; right];
      reflexivity.
  - match goal with
    | |- context [sendSystemMessage ?t ?x] =>
        destruct (sendSystemMessage_frame t x) as (_ & _ & _ & F);
        destruct (sendSystemMessage_sent t x) as [G|G]
    end; cbv zeta in F; rewrite F, G; (split; [reflexivity|]); [left | right; left];
      reflexivity.
Qed.

Lemma runTimeout_wire (c : bool) (l : list Outgoing) (cb : TimeoutCallback) (s : State) :
  isProcessingTimeoutRef s = c /\ sent s = l ->
  isProcessingTimeoutRef (runTimeout cb s) = c /\ sent (runTimeout cb s) = l.
Proof.
  intros H. destruct cb; [|exact H|exact H].
  unfold runTimeout, disconnect.
  repeat match goal with
         | |- context [if ?b then _ else _] => destruct b
         | |- context [match ?x with _ => _ end] => destruct x
         end; exact H.
Qed.

Lemma handle_wire (e : Event) (s : State) :
  isMessage e = false -> e <> EvSilenceTick ->
  isProcessingTimeoutRef (handle e s) = isProcessingTimeoutRef s /\
  sent (handle e s) = sent s.
Proof.
  intros M T. destruct e; try discriminate; try congruence; cbn [handle].
  - split; reflexivity.
  - split; reflexivity.
  - unfold onopen. destruct (negb _); [split; reflexivity|].
    destruct (scriptProcessorRef _); split; reflexivity.
  - split; reflexivity.
  - unfold onclose. destruct (isConnectedRef s); split; reflexivity.
  - destruct (scriptProcessorRef s) as [p|]; [|split; reflexivity].
    destruct (callbackInstalled p); [|split; reflexivity].
    unfold onaudioprocess. destruct (_ || _); [split; reflexivity|].
    unfold vad. destruct (_ <? _)%float; split; reflexivity.
  - split; reflexivity.
  - destruct (_ && _); [|split; reflexivity].
    unfold countdownTick. destruct (_ <=? _); [|split; reflexivity].
    unfold handleTermination. destruct (terminationTriggeredRef _); split; reflexivity.
  - destruct (isMountedRef s); [|split; reflexivity].
    destruct hidden; [|split; reflexivity].
    unfold handleVisibilityChange, triggerViolation.
    destruct (_ >=? _); [|split; reflexivity].
    unfold handleTermination. destruct (terminationTriggeredRef _); split; reflexivity.
  - destruct (isMountedRef s); split; reflexivity.
  - destruct (isMountedRef s); [|split; reflexivity].
    unfold toggleMute. destruct (streamRef s); split; reflexivity.
  - apply (advance_invariant
             (fun s' => isProcessingTimeoutRef s' = isProcessingTimeoutRef s /\
                        sent s' = sent s)).
    + intros t q s0 H. exact H.
    + intros cb s0. apply runTimeout_wire.
    + split; reflexivity.
  - destruct (isMountedRef s); [|split; reflexivity].
    unfold unmount, disconnect.
    repeat match goal with
           | |- context [if ?b then _ else _] => destruct b
           | |- context [match ?x with _ => _ end] => destruct x
           end; split; reflexivity.
Qed.

Lemma step_wire (e : Event) (s : State) :
  isMessage e = false ->
  (isProcessingTimeoutRef s = true ->
   isProcessingTimeoutRef (step e s) = true /\ sent (step e s) = sent s) /\
  (sent (step e s) = sent s \/
   isProcessingTimeoutRef (step e s) = true /\
   (sent (step e s) = sent s ++ [RealtimeText silentAlert] \/
    sent (step e s) = sent s ++ [RealtimeText stillSilentAlert])).
Proof.
  intros M. unfold step.
  assert (S : forall b s0,
             isProcessingTimeoutRef (statusEffect b s0) = isProcessingTimeoutRef s0 /\
             sent (statusEffect b s0) = sent s0).
  { intros b s0. unfold statusEffect. destruct b, (status s0); split; reflexivity. }
  destruct (S (status s) (handle e s)) as (S1 & S2). rewrite S1, S2. clear S S1 S2.
  assert (D : e = EvSilenceTick \/ e <> EvSilenceTick)
    by (destruct e; (now left) || (right; discriminate)).
  destruct D as [->|D].
  - cbn [handle]. destruct (isMountedRef s).
    + destruct (silenceTick_wire s) as (A & B). split.
      * intros L. rewrite (A L). split; [exact L | reflexivity].
      * destruct B as [B|(B & [C|C])].
        -- left. now rewrite B.
        -- left. exact C.
        -- right. split; assumption.
    + split; [intros L; split; [exact L | reflexivity] | now left].
  - destruct (handle_wire e s M D) as (A & B). rewrite A, B.
    split; [intros L; split; [exact L | reflexivity] | now left].
Qed.

Lemma run_wire (es : list Event) (s : State) :
  quiet es = true ->
  (isProcessingTimeoutRef s = true ->
   isProcessingTimeoutRef (run es s) = true /\ sent (run es s) = sent s) /\
  (sent (run es s) = sent s \/
   sent (run es s) = sent s ++ [RealtimeText silentAlert] \/
   sent (run es s) = sent s ++ [RealtimeText stillSilentAlert]).
Proof.
  revert s. induction es as [|e es IH]; intros s Q.
  { split; [intros L; split; [exact L | reflexivity] | now left]. }
  cbn [quiet forallb] in Q. apply andb_true_iff in Q. destruct Q as (M & Q).
  apply negb_true_iff in M.
  change (run (e :: es) s) with (run es (step e s)).
  destruct (step_wire e s M) as (A & B).
  destruct (IH (step e s) Q) as (C & D). split.
  - intros L. destruct (A L) as (L1 & E1). destruct (C L1) as (L2 & E2).
    split; [exact L2 | congruence].
  - destruct B as [B|(L1 & B)].
    + rewrite <- B. exact D.
    + destruct (C L1) as (_ & E2). rewrite E2.
      destruct B as [B|B]; [right; left | right; right]; exact B.
Qed.

(** X4. While the agent sends nothing, the silence monitor prompts it at most
    once, whatever else happens and however much time passes: no text
    directive goes out but possibly one of the two alerts, and none at all
    when the monitor was locked to begin with, in which case it stays
    locked. *)
Theorem silence_lock (es : list Event) (s : State) :
  quiet es = true ->
  let s' := run es s in
  (isProcessingTimeoutRef s = true ->
   isProcessingTimeoutRef s' = true /\ directives (sent s') = directives (sent s)) /\
  (directives (sent s') = directives (sent s) \/
   directives (sent s') = directives (sent s) ++ [silentAlert] \/
   directives (sent s') = directives (sent s) ++ [stillSilentAlert]).
Proof.
  intros Q. cbv zeta. destruct (run_wire es s Q) as (A & B). split.
  - intros L. destruct (A L) as (L' & E). split; [exact L' | now rewrite E].
  - destruct B as [B|[B|B]]; rewrite B; [now left | right; left | right; right];
      apply directives_app.
Qed.

Lemma silence_lock_witness :
  let es := [EvSilenceTick; EvAdvance 11000%N; EvSilenceTick; EvToggleMute;
             EvAdvance 11000%N; EvSilenceTick] in
  let s' := run es awaitingCandidate in
  quiet es = true /\
  (isProcessingTimeoutRef awaitingCandidate = true ->
   isProcessingTimeoutRef s' = true /\
   directives (sent s') = directives (sent awaitingCandidate)) /\
  (directives (sent s') = directives (sent awaitingCandidate) \/
   directives (sent s') = directives (sent awaitingCandidate) ++ [silentAlert] \/
   directives (sent s') = directives (sent awaitingCandidate) ++ [stillSilentAlert]).
Proof.
  split; [reflexivity|].
  exact (silence_lock [EvSilenceTick; EvAdvance 11000%N; EvSilenceTick; EvToggleMute;
                       EvAdvance 11000%N; EvSilenceTick] awaitingCandidate eq_refl).
Defined.

End Lock.

(** *** After the unmount *)

Section Unmounted.

(** X5. Once the component is unmounted nothing it listens to acts any more,
    whatever arrives afterwards: the session is never marked connected again,
    the countdown, the proctoring strikes, the noise floor, the speaking
    indicator and the silence strikes keep their values, and no directive is
    sent to the agent. *)
Theorem unmount_inert (s : State) (es : list Event) :
  let s' := run es (unmount s) in
  isMountedRef s' = false /\
  isConnectedRef s' = false /\
  timeLeft s' = timeLeft s /\
  warningCount s' = warningCount s /\
  noiseFloorRef s' = noiseFloorRef s /\
  isUserSpeaking s' = isUserSpeaking s /\
  silenceWarningCountRef s' = silenceWarningCountRef s /\
  directives (sent s') = directives (sent s).
Proof.
  cbv zeta.
  pose (P := fun s' : State =>
              isMountedRef s' = false /\
              isConnectedRef s' = false /\
              timeLeft s' = timeLeft s /\
              warningCount s' = warningCount s /\
              noiseFloorRef s' = noiseFloorRef s /\
              isUserSpeaking s' = isUserSpeaking s /\
              silenceWarningCountRef s' = silenceWarningCountRef s /\
              directives (sent s') = directives (sent s)).
  apply (run_invariant P).
  - intros tracks s0 H. exact H.
  - intros h s0 H. exact H.
  - intros s0 (M & H). unfold onopen. rewrite M. split; [exact M | exact H].
  - intros m now s0. apply (onmessage_invariant P).
    + intros calls s1 (H1 & H2 & H3 & H4 & H5 & H6 & H7 & H8).
      assert (F : directives (sent (handleToolCall calls s1)) = directives (sent s1)).
      { unfold handleToolCall. destruct (find _ _); [|reflexivity].
        unfold handleTermination.
        destruct (terminationTriggeredRef _);
          cbn [sent set_sent set_terminationTriggeredRef setTimeout set_timeouts];
          rewrite directives_app; cbn [directives]; apply app_nil_r. }
      unfold P. rewrite F. clear F. unfold handleToolCall.
      destruct (find _ _); [|repeat split; assumption].
      unfold handleTermination.
      destruct (terminationTriggeredRef _); repeat split; assumption.
    + intros s1 H. exact H.
    + intros s1 H. exact H.
    + intros s1 H. exact H.
    + intros t s1 H. unfold handleAiTranscript.
      destruct (negb (truthy t)); [exact H|].
      destruct (negb (truthy (trim t))); exact H.
    + intros t s1 H. unfold handleUserTranscript.
      destruct (negb (truthy t)); exact H.
    + intros now0 a s1 H. unfold enqueueAudio.
      destruct (negb (truthy (audioData a))); [exact H|].
      destruct (audioContextRef s1); exact H.
  - intros s0 H. exact H.
  - intros s0 H. unfold onclose. destruct (isConnectedRef s0); exact H.
  - intros inputData s0 (M & C & H). unfold onaudioprocess. rewrite C.
    split; [exact M|]. split; [exact C | exact H].
  - intros id s0 H. exact H.
  - intros s0 M (H & _). congruence.
  - intros s0 M _ (H & _). congruence.
  - intros msg s0 M (H & _). congruence.
  - intros s0 H. exact H.
  - intros s0 M (H & _). congruence.
  - intros ms s0 _. apply (advance_invariant P).
    + intros t q s1 H. exact H.
    + intros cb s1 (M & C & H). destruct cb.
      * unfold runTimeout, disconnect.
        repeat match goal with
               | |- context [if ?b then _ else _] => destruct b
               | |- context [match ?x with _ => _ end] => destruct x
               end; (split; [exact M|]; split; [reflexivity | exact H]).
      * split; [exact M|]. split; [exact C | exact H].
      * split; [exact M|]. split; [exact C | exact H].
  - intros s0 M (H & _). congruence.
  - intros before s0 H. unfold statusEffect. destruct before, (status s0); exact H.
  - unfold unmount, disconnect.
    repeat match goal with
           | |- context [if ?b then _ else _] => destruct b
           | |- context [match ?x with _ => _ end] => destruct x
           end; repeat split.
Qed.

End Unmounted.

(** *** Countdown *)

Section Countdown.

Lemma ticks_stopped (n : nat) (s : State) :
  status s = connected -> countdownInterval s = false ->
  run (repeat EvCountdownTick n) s = s.
Proof.
  intros C I. induction n as [|n IH]; [reflexivity|].
  change (run (repeat EvCountdownTick (S n)) s)
    with (run (repeat EvCountdownTick n) (step EvCountdownTick s)).
  assert (E : step EvCountdownTick s = s).
  { unfold step. cbn [handle]. rewrite I, andb_false_r.
    unfold statusEffect. now rewrite C. }
  rewrite E. exact IH.
Qed.

Lemma handleTermination_pending (r : jsstring) (s : State) :
  fresh s ->
  let s1 := handleTermination r s in
  terminationTriggeredRef s1 = true /\
  pendingTerminations s1 = [(nowMs s + 2000, r)] /\
  completed s1 = [] /\ disconnectCalls s1 = 0%nat /\
  fullTranscriptHistory s1 = fullTranscriptHistory s /\ nowMs s1 = nowMs s.
Proof.
  intros (L & P & C & D). cbv zeta. unfold handleTermination. rewrite L.
  unfold setTimeout, pendingTerminations in *. cbn.
  rewrite terminations_insert_first by exact P. repeat split; assumption.
Qed.

Lemma pending_terminating (r : jsstring) (s : State) :
  terminationTriggeredRef s = true ->
  pendingTerminations s = [(nowMs s + 2000, r)] ->
  completed s = [] -> disconnectCalls s = 0%nat ->
  terminating r (fullTranscriptHistory s) s.
Proof.
  intros L P C D. split; [exact L|]. split; [reflexivity|].
  left. exists (nowMs s + 2000). repeat split; try assumption. lia.
Qed.

Lemma countdown_ticks (n : nat) (s : State) :
  isMountedRef s = true -> countdownInterval s = true -> status s = connected ->
  fresh s -> 1 <= timeLeft s ->
  let s' := run (repeat EvCountdownTick n) s in
  (Z.of_nat n < timeLeft s ->
   timeLeft s' = timeLeft s - Z.of_nat n /\ fresh s' /\ countdownInterval s' = true /\
   fullTranscriptHistory s' = fullTranscriptHistory s /\ nowMs s' = nowMs s) /\
  (timeLeft s <= Z.of_nat n ->
   timeLeft s' = 0 /\ countdownInterval s' = false /\
   terminationTriggeredRef s' = true /\
   pendingTerminations s' = [(nowMs s + 2000, js "Time Limit Exceeded")] /\
   completed s' = [] /\ disconnectCalls s' = 0%nat /\
   fullTranscriptHistory s' = fullTranscriptHistory s /\ nowMs s' = nowMs s).
Proof.
  revert s. induction n as [|n IH]; intros s M I C F T; cbv zeta.
  { split; [intros _ | intros L; exfalso; cbn in L; lia].
    cbn [repeat run fold_left]. repeat split; try assumption; try apply F.
    cbn. lia. }
  change (run (repeat EvCountdownTick (S n)) s)
    with (run (repeat EvCountdownTick n) (step EvCountdownTick s)).
  assert (E : step EvCountdownTick s = countdownTick s).
  { unfold step. cbn [handle]. rewrite M, I. cbn [andb].
    unfold statusEffect, countdownTick.
    destruct (timeLeft s <=? 1).
    - unfold handleTermination. destruct (terminationTriggeredRef _);
        cbn [status set_timeLeft setTimeout set_timeouts set_terminationTriggeredRef
             set_countdownInterval]; now rewrite C.
    - cbn [status set_timeLeft]. now rewrite C. }
  rewrite E. clear E. unfold countdownTick.
  destruct (timeLeft s <=? 1) eqn:G.
  - apply Z.leb_le in G. assert (T1 : timeLeft s = 1) by lia.
    set (s1 := set_timeLeft 0
                 (handleTermination (js "Time Limit Exceeded")
                    (set_countdownInterval false s))).
    assert (F1 : fresh (set_countdownInterval false s)) by exact F.
    destruct (handleTermination_pending (js "Time Limit Exceeded") _ F1)
      as (H1 & H2 & H3 & H4 & H5 & H6).
    assert (L0 : terminationTriggeredRef (set_countdownInterval false s) = false)
      by apply F.
    assert (I1 : countdownInterval s1 = false).
    { unfold s1, handleTermination. rewrite L0. reflexivity. }
    assert (C1 : status s1 = connected).
    { unfold s1, handleTermination. rewrite L0. exact C. }
    rewrite (ticks_stopped n s1 C1 I1).
    split; [intros L; exfalso; lia | intros _].
    assert (L1 : terminationTriggeredRef s1 = true).
    { unfold s1, handleTermination. rewrite L0. reflexivity. }
    split; [reflexivity|]. split; [exact I1|]. split; [exact L1|].
    split; [exact H2|]. split; [exact H3|]. split; [exact H4|].
    split; [exact H5 | exact H6].
  - apply Z.leb_gt in G.
    set (s1 := set_timeLeft (timeLeft s - 1) s).
    assert (T1 : 1 <= timeLeft s1) by (cbn; lia).
    destruct (IH s1 M I C F T1) as (A & B).
    assert (L1 : timeLeft s1 = timeLeft s - 1) by reflexivity.
    split; intros L.
    + destruct A as (A1 & A2 & A3 & A4 & A5); [lia|].
      repeat split; try assumption; try apply A2. rewrite A1, L1. lia.
    + destruct B as (B1 & B2 & B3 & B4 & B5 & B6 & B7 & B8); [lia|].
      repeat split; assumption.
Qed.

(** X6. A connected session whose countdown shows [t] seconds and which has
    not been asked to terminate: after fewer than [t] ticks the countdown
    has gone down by one per tick and nothing else has happened; from the
    [t]-th tick on it shows zero, the interval is cleared, and two seconds
    later the parent is called once, with the history and the reason
    "Time Limit Exceeded". *)
Theorem countdown_expiry (n : nat) (s : State) :
  isMountedRef s = true -> countdownInterval s = true -> status s = connected ->
  fresh s -> 1 <= timeLeft s ->
  let s' := run (repeat EvCountdownTick n) s in
  (Z.of_nat n < timeLeft s ->
   timeLeft s' = timeLeft s - Z.of_nat n /\ fresh s' /\ countdownInterval s' = true) /\
  (timeLeft s <= Z.of_nat n ->
   timeLeft s' = 0 /\ countdownInterval s' = false /\
   terminationTriggeredRef s' = true /\
   completed s' = [] /\
   completed (advance 2000 s') =
     [(join newline (fullTranscriptHistory s), Some (js "Time Limit Exceeded"))] /\
   disconnectCalls (advance 2000 s') = 1%nat).
Proof.
  intros M I C F T. destruct (countdown_ticks n s M I C F T) as (A & B).
  cbv zeta. split; intros L.
  - destruct (A L) as (A1 & A2 & A3 & _). auto.
  - destruct (B L) as (B1 & B2 & B3 & B4 & B5 & B6 & B7 & B8).
    assert (B9 : nowMs (run (repeat EvCountdownTick n) s) + 2000 = nowMs s + 2000)
      by (rewrite B8; reflexivity).
    rewrite <- B9 in B4.
    pose proof (pending_terminating _ _ B3 B4 B5 B6) as H.
    destruct (advance_fires 2000 _ _ _ ltac:(lia) H) as (D1 & D2 & _).
    rewrite B7 in D1. auto 10.
Qed.

Lemma countdown_expiry_witness :
  let s' := run (repeat EvCountdownTick 600) listening in
  timeLeft s' = 0 /\ countdownInterval s' = false /\
  terminationTriggeredRef s' = true /\
  completed s' = [] /\
  completed (advance 2000 s') = [([], Some (js "Time Limit Exceeded"))] /\
  disconnectCalls (advance 2000 s') = 1%nat.
Proof.
  assert (F : fresh listening) by (repeat split).
  assert (T : 1 <= timeLeft listening) by (vm_compute; discriminate).
  destruct (countdown_expiry 600 listening eq_refl eq_refl eq_refl F T) as (_ & B).
  apply B. vm_compute. discriminate.
Defined.

Lemma ticks_idle (n : nat) (s : State) :
  status s <> connected -> countdownInterval s = false ->
  let s' := run (repeat EvCountdownTick n) s in
  status s' = status s /\ countdownInterval s' = false /\ timeLeft s' = timeLeft s /\
  sameTermination s s'.
Proof.
  intros C I. cbv zeta. induction n as [|n IH].
  { repeat split; assumption. }
  change (run (repeat EvCountdownTick (S n)) s)
    with (run (repeat EvCountdownTick n) (step EvCountdownTick s)).
  assert (E : step EvCountdownTick s = set_countdownInterval false s).
  { unfold step. cbn [handle]. rewrite I, andb_false_r.
    unfold statusEffect. destruct (status s); congruence. }
  rewrite E. clear E.
  revert IH. generalize (run (repeat EvCountdownTick n)). intros f IH.
  assert (E : set_countdownInterval false s = s).
  { destruct s. cbn in I. subst. reflexivity. }
  rewrite E. exact IH.
Qed.

(** X7. The countdown only runs while the status is [connected]: once the
    channel reports an error, or closes while the session was connected, the
    status leaves [connected], and from then on no tick changes the seconds
    left or can request the termination for the time limit. *)
Theorem countdown_stops (e : Event) (n : nat) (s : State) :
  e = EvError \/ (e = EvClose /\ isConnectedRef s = true) ->
  let s' := run (e :: repeat EvCountdownTick n) s in
  status s' <> connected /\ timeLeft s' = timeLeft s /\ sameTermination s s'.
Proof.
  intros H. cbv zeta.
  change (run (e :: repeat EvCountdownTick n) s)
    with (run (repeat EvCountdownTick n) (step e s)).
  assert (S1 : status (step e s) <> connected /\ countdownInterval (step e s) = false /\
               timeLeft (step e s) = timeLeft s /\ sameTermination s (step e s)).
  { destruct H as [->|(-> & C)]; unfold step; cbn [handle].
    - unfold statusEffect, onerror. cbn [status set_status].
      destruct (status s); repeat split; discriminate.
    - unfold statusEffect, onclose. rewrite C. cbn [status set_status].
      destruct (status s); repeat split; discriminate. }
  destruct S1 as (A & B & C & D).
  destruct (ticks_idle n (step e s) A B) as (A1 & B1 & C1 & D1). cbv zeta in *.
  split; [congruence|]. split; [congruence|].
  destruct D as (D2 & D3 & D4 & D5 & D6 & D7).
  destruct D1 as (E2 & E3 & E4 & E5 & E6 & E7).
  repeat split; congruence.
Qed.

Lemma countdown_stops_witness :
  let s' := run (EvClose :: repeat EvCountdownTick 700) listening in
  status s' <> connected /\ timeLeft s' = timeLeft listening /\
  sameTermination listening s'.
Proof.
  apply (countdown_stops EvClose 700 listening). right. split; reflexivity.
Defined.

End Countdown.

(** *** Tool calls *)

Section ToolCalls.

Lemma reasonOf_truthy (call : FunctionCall) : reasonOf call <> [].
Proof.
  unfold reasonOf. destruct (fc_reason call) as [[|c r]|]; cbn; discriminate.
Qed.

(** X8. A batch of tool calls received before any termination was requested.
    If none of its calls is [endInterview], nothing happens and nothing is
    acknowledged. Otherwise one response acknowledges every call of the
    batch, in order, and two seconds later the parent is called once with the
    history and the reason of the first [endInterview] call, which is
    "Completed" when the call carries no reason or an empty one; the reason
    is never empty. *)
Theorem toolCall_endInterview (calls : list FunctionCall) (s : State) :
  fresh s ->
  match find isEndInterview calls with
  | None => handleToolCall calls s = s
  | Some call =>
      let s' := handleToolCall calls s in
      sent s' = sent s ++ [ToolResponse (map (fun fc => (fc_id fc, fc_name fc)) calls)] /\
      terminationTriggeredRef s' = true /\
      completed s' = [] /\
      completed (advance 2000 s') =
        [(join newline (fullTranscriptHistory s), Some (reasonOf call))] /\
      reasonOf call <> [] /\
      (fc_reason call = None \/ fc_reason call = Some [] ->
       reasonOf call = js "Completed")
  end.
Proof.
  intros F. unfold handleToolCall.
  change (fun f => JSString.eqb (fc_name f) (js "endInterview")) with isEndInterview.
  destruct (find isEndInterview calls) as [call|]; [|reflexivity].
  cbv zeta.
  change (match fc_reason call with
          | Some r => if truthy r then r else js "Completed"
          | None => js "Completed"
          end) with (reasonOf call).
  set (s1 := set_sent _ s).
  assert (F1 : fresh s1) by exact F.
  destruct (handleTermination_pending (reasonOf call) s1 F1)
    as (H1 & H2 & H3 & H4 & H5 & H6).
  assert (S1 : sent (handleTermination (reasonOf call) s1) = sent s1).
  { unfold handleTermination. destruct (terminationTriggeredRef s1); reflexivity. }
  split; [rewrite S1; reflexivity|]. split; [exact H1|]. split; [exact H3|].
  split.
  - rewrite <- H6 in H2.
    pose proof (pending_terminating _ _ H1 H2 H3 H4) as T.
    destruct (advance_fires 2000 _ _ _ ltac:(lia) T) as (D1 & _).
    rewrite H5 in D1. exact D1.
  - split; [apply reasonOf_truthy|].
    intros [E|E]; unfold reasonOf; rewrite E; reflexivity.
Qed.

Lemma toolCall_endInterview_witness :
  let calls := [mkCall (js "call-1") (js "lookup") None;
                mkCall (js "call-2") (js "endInterview") (Some [])] in
  let s' := handleToolCall calls listening in
  sent s' = [ToolResponse [(js "call-1", js "lookup"); (js "call-2", js "endInterview")]] /\
  completed (advance 2000 s') = [([], Some (js "Completed"))].
Proof.
  assert (F : fresh listening) by (repeat split).
  pose proof (toolCall_endInterview
                [mkCall (js "call-1") (js "lookup") None;
                 mkCall (js "call-2") (js "endInterview") (Some [])] listening F) as H.
  cbn [find isEndInterview fc_name] in H.
  destruct H as (H1 & _ & _ & H4 & _). split; [exact H1 | exact H4].
Defined.

End ToolCalls.

(** *** Turn taking *)

Section Turns.

(** What the transcript and audio branches of [onmessage] leave alone. *)
Lemma onmessage_tail (P : State -> Prop) (c : option ServerContent) (now : Q) (s : State) :
  (forall t s, P s -> P (handleAiTranscript t s)) ->
  (forall t s, P s -> P (handleUserTranscript t s)) ->
  (forall a s, P s -> P (enqueueAudio now a s)) ->
  P s ->
  P (whenSome (chain c inlineData) (enqueueAudio now)
       (whenSome (chain c inputTranscriptionText) handleUserTranscript
          (whenSome (chain c modelTurnText) handleAiTranscript s))).
Proof.
  intros H1 H2 H3 H.
  apply whenSome_invariant; [exact H3|].
  apply whenSome_invariant; [exact H2|].
  apply whenSome_invariant; [exact H1 | exact H].
Qed.

Lemma handleToolCall_nowMs (calls : list FunctionCall) (s : State) :
  nowMs (handleToolCall calls s) = nowMs s.
Proof.
  unfold handleToolCall. destruct (find _ _); [|reflexivity].
  cbv zeta. rewrite handleTermination_nowMs. reflexivity.
Qed.

(** X9. A message of the agent that completes its turn arms the silence
    monitor, whatever else the message carries: afterwards the agent is no
    longer speaking, the candidate's answer is awaited from this instant,
    the monitor is unlocked and the prompt indicator is cleared. *)
Theorem turnComplete_arms (m : Message) (now : Q) (c : ServerContent) (s : State) :
  serverContent m = Some c -> turnComplete c = true ->
  let s' := onmessage m now s in
  isWaitingForResponseRef s' = true /\
  isAiSpeakingRef s' = false /\
  lastAiTurnEndTimeRef s' = nowMs s /\
  isProcessingTimeoutRef s' = false /\
  systemMessageStatus s' = None.
Proof.
  intros C T. cbv zeta. unfold onmessage. rewrite C. cbn [option_map flag chain].
  rewrite T.
  pose (P := fun s' : State =>
               isWaitingForResponseRef s' = true /\
               isAiSpeakingRef s' = false /\
               lastAiTurnEndTimeRef s' = nowMs s /\
               isProcessingTimeoutRef s' = false /\
               systemMessageStatus s' = None).
  apply (onmessage_tail P (Some c)).
  - intros t s0 H. unfold handleAiTranscript.
    destruct (negb (truthy t)); [exact H|].
    destruct (negb (truthy (trim t))); exact H.
  - intros t s0 H. unfold handleUserTranscript.
    destruct (negb (truthy t)); exact H.
  - intros a s0 H. unfold enqueueAudio.
    destruct (negb (truthy (audioData a))); [exact H|].
    destruct (audioContextRef s0); exact H.
  - unfold P. cbn [when].
    generalize (handleToolCall_nowMs (match toolCall m with
                                      | Some f => f
                                      | None => []
                                      end) s).
    unfold whenSome. destruct (toolCall m) as [calls|].
    + intros N. destruct (interrupted c); cbn [when];
        repeat split; exact N.
    + intros _. destruct (interrupted c); cbn [when]; repeat split.
Qed.

Lemma turnComplete_arms_witness :
  let s' := onmessage agentTurn 0%Q listening in
  isWaitingForResponseRef s' = true /\
  isAiSpeakingRef s' = false /\
  lastAiTurnEndTimeRef s' = nowMs listening /\
  isProcessingTimeoutRef s' = false /\
  systemMessageStatus s' = None.
Proof.
  exact (turnComplete_arms agentTurn 0%Q _ listening eq_refl eq_refl).
Defined.

(** X10. A message with content that does not complete the agent's turn
    disarms the silence monitor, whatever else it carries: the next tick of
    the monitor does nothing. *)
Theorem midturn_disarms (m : Message) (now : Q) (c : ServerContent) (s : State) :
  serverContent m = Some c -> turnComplete c = false ->
  let s' := onmessage m now s in
  isWaitingForResponseRef s' = false /\
  isProcessingTimeoutRef s' = false /\
  silenceTick s' = s'.
Proof.
  intros C T. cbv zeta.
  assert (H : isWaitingForResponseRef (onmessage m now s) = false /\
              isProcessingTimeoutRef (onmessage m now s) = false).
  { unfold onmessage. rewrite C. cbn [option_map flag chain]. rewrite T.
    pose (P := fun s' : State =>
                 isWaitingForResponseRef s' = false /\
                 isProcessingTimeoutRef s' = false).
    apply (onmessage_tail P (Some c)).
    - intros t s0 H. unfold handleAiTranscript.
      destruct (negb (truthy t)); [exact H|].
      destruct (negb (truthy (trim t))); exact H.
    - intros t s0 H. unfold handleUserTranscript.
      destruct (negb (truthy t)); exact H.
    - intros a s0 H. unfold enqueueAudio.
      destruct (negb (truthy (audioData a))); [exact H|].
      destruct (audioContextRef s0); exact H.
    - unfold P. cbn [when]. split; reflexivity. }
  destruct H as (W & L). split; [exact W|]. split; [exact L|].
  revert W. generalize (onmessage m now s). intros s' W.
  unfold silenceTick. rewrite W. cbn [andb].
  destruct (negb (isConnectedRef s')); reflexivity.
Qed.

Lemma midturn_disarms_witness :
  let s' := onmessage (audioMessage (js "UklGRg") 2) 3 awaitingCandidate in
  isWaitingForResponseRef awaitingCandidate = true /\
  isWaitingForResponseRef s' = false /\
  isProcessingTimeoutRef s' = false /\
  silenceTick s' = s'.
Proof.
  split; [reflexivity|].
  exact (midturn_disarms (audioMessage (js "UklGRg") 2) 3 _ awaitingCandidate
           eq_refl eq_refl).
Defined.

End Turns.

(** *** Speech *)

Section Speech.

(** X11. A frame in which the candidate is detected speaking answers the
    agent: the answer is no longer awaited, the silence strikes start again
    from zero, the prompt indicator is cleared, and the next tick of the
    silence monitor does nothing. The lock of the monitor is left as it
    was. *)
Theorem speech_answers (rms : float) (s : State) :
  isUserSpeaking (vad rms s) = true ->
  let s' := vad rms s in
  isWaitingForResponseRef s' = false /\
  silenceWarningCountRef s' = 0 /\
  systemMessageStatus s' = None /\
  lastUserSpeechTimeRef s' = nowMs s /\
  isProcessingTimeoutRef s' = isProcessingTimeoutRef s /\
  silenceTick s' = s'.
Proof.
  intros U. cbv zeta.
  assert (H : isWaitingForResponseRef (vad rms s) = false /\
              silenceWarningCountRef (vad rms s) = 0 /\
              systemMessageStatus (vad rms s) = None /\
              lastUserSpeechTimeRef (vad rms s) = nowMs s /\
              isProcessingTimeoutRef (vad rms s) = isProcessingTimeoutRef s).
  { revert U. unfold vad. destruct (_ <? _)%float; [|discriminate].
    intros _. repeat split. }
  destruct H as (W & H). split; [exact W|].
  repeat (split; [apply H|]).
  revert W. generalize (vad rms s). intros s' W.
  unfold silenceTick. rewrite W. cbn [andb].
  destruct (negb (isConnectedRef s')); reflexivity.
Qed.

Lemma speech_answers_witness :
  let s' := vad 0.5%float awaitingCandidate in
  isWaitingForResponseRef awaitingCandidate = true /\
  isWaitingForResponseRef s' = false /\
  silenceWarningCountRef s' = 0 /\
  systemMessageStatus s' = None /\
  lastUserSpeechTimeRef s' = nowMs awaitingCandidate /\
  isProcessingTimeoutRef s' = isProcessingTimeoutRef awaitingCandidate /\
  silenceTick s' = s'.
Proof.
  split; [reflexivity|].
  apply (speech_answers 0.5%float awaitingCandidate). vm_compute. reflexivity.
Defined.

End Speech.

(** *** The shape of the display list *)

Section Lines.

Lemma startsWith_app (p a b : jsstring) :
  startsWith p a = true -> startsWith p (a ++ b) = true.
Proof.
  revert a. induction p as [|x p IH]; intros [|y a] H; cbn in *;
    [reflexivity | reflexivity | discriminate |].
  apply andb_true_iff in H. destruct H as (H1 & H2).
  now rewrite H1, (IH a H2).
Qed.

Lemma startsWith_refl (p : jsstring) : startsWith p p = true.
Proof. induction p as [|x p IH]; cbn; [reflexivity|]. now rewrite N.eqb_refl. Qed.

Lemma lastOf_removelast {A : Type} (l : list A) (x : A) :
  lastOf l = Some x -> l = removelast l ++ [x].
Proof.
  induction l as [|a l IH]; [discriminate|].
  destruct l as [|b l]; [intros [= ->]; reflexivity|].
  intros H. change (a :: b :: l = a :: (removelast (b :: l) ++ [x])).
  f_equal. apply IH. exact H.
Qed.

Lemma alternating_snoc (l : list TranscriptLine) (x : TranscriptLine) :
  alternating (l ++ [x]) =
  alternating l && match lastOf l with
                   | Some a => follows a x
                   | None => true
                   end.
Proof.
  induction l as [|a l IH]; [reflexivity|].
  destruct l as [|b l].
  - cbn. now rewrite !andb_true_r.
  - change (follows a b && alternating ((b :: l) ++ [x]) =
            follows a b && alternating (b :: l) &&
            match lastOf (b :: l) with
            | Some a0 => follows a0 x
            | None => true
            end).
    rewrite IH. now rewrite andb_assoc.
Qed.

Lemma follows_extended (a x x' : TranscriptLine) (t : jsstring) :
  speaker x' = speaker x -> text x' = text x ++ t ->
  follows a x = true -> follows a x' = true.
Proof.
  unfold follows. intros -> ->. destruct (speaker a), (speaker x); auto.
  apply startsWith_app.
Qed.

(** Appending a line, and extending the last one. *)
Lemma wellFormed_push (l : list TranscriptLine) (x : TranscriptLine) :
  Forall (fun line => text line <> []) l /\ alternating l = true ->
  text x <> [] ->
  (forall a, lastOf l = Some a -> follows a x = true) ->
  Forall (fun line => text line <> []) (l ++ [x]) /\ alternating (l ++ [x]) = true.
Proof.
  intros (F & A) T H. split.
  - apply Forall_app. split; [exact F | now constructor].
  - rewrite alternating_snoc, A. destruct (lastOf l); [now apply H | reflexivity].
Qed.

Lemma wellFormed_extend (l : list TranscriptLine) (x : TranscriptLine) (t : jsstring) :
  Forall (fun line => text line <> []) l /\ alternating l = true ->
  lastOf l = Some x ->
  Forall (fun line => text line <> []) (replaceLast l (mkLine (speaker x) (text x ++ t))) /\
  alternating (replaceLast l (mkLine (speaker x) (text x ++ t))) = true.
Proof.
  intros (F & A) L. unfold replaceLast.
  pose proof (lastOf_removelast l x L) as E.
  rewrite E in F, A. apply Forall_app in F. destruct F as (F1 & F2).
  rewrite alternating_snoc in A. apply andb_true_iff in A. destruct A as (A1 & A2).
  apply wellFormed_push.
  - split; assumption.
  - cbn. inversion F2 as [|? ? T _]; subst. destruct (text x); [congruence|discriminate].
  - intros a La. rewrite La in A2.
    now apply (follows_extended a x _ t).
Qed.

Lemma handleAiTranscript_wellFormed (t : jsstring) (s : State) :
  wellFormed s -> wellFormed (handleAiTranscript t s).
Proof.
  intros H. unfold handleAiTranscript.
  destruct (negb (truthy t)); [exact H|].
  destruct (truthy (trim t)) eqn:T; [|exact H]. cbn [negb].
  unfold wellFormed. cbn [transcriptLines set_transcriptLines set_fullTranscriptHistory].
  assert (N : trim t <> []) by (destruct (trim t); [discriminate | discriminate]).
  destruct (lastOf (transcriptLines s)) as [last|] eqn:L.
  - destruct (speaker last) eqn:Sp.
    + apply wellFormed_push; [exact H | exact N|].
      intros a La. assert (a = last) by congruence. subst a.
      unfold follows. now rewrite Sp.
    + pose proof (wellFormed_extend _ last (js " " ++ trim t) H L) as W.
      rewrite Sp in W. exact W.
  - apply wellFormed_push; [exact H | exact N|]. intros a La. congruence.
Qed.

Lemma handleUserTranscript_wellFormed (t : jsstring) (s : State) :
  wellFormed s -> wellFormed (handleUserTranscript t s).
Proof.
  intros H. unfold handleUserTranscript.
  destruct (truthy t) eqn:T; [|exact H]. cbn [negb].
  unfold wellFormed. cbn [transcriptLines set_transcriptLines set_fullTranscriptHistory].
  assert (N : t <> []) by (destruct t; [discriminate | discriminate]).
  destruct (lastOf (transcriptLines s)) as [last|] eqn:L.
  - destruct (speaker last) eqn:Sp.
    + pose proof (wellFormed_extend _ last t H L) as W.
      rewrite Sp in W. exact W.
    + apply wellFormed_push; [exact H | exact N|].
      intros a La. assert (a = last) by congruence. subst a.
      unfold follows. now rewrite Sp.
  - apply wellFormed_push; [exact H | exact N|]. intros a La. congruence.
Qed.

Lemma silenceTick_wellFormed (s : State) : wellFormed s -> wellFormed (silenceTick s).
Proof.
  intros H. unfold silenceTick.
  destruct (negb (isConnectedRef s)); [exact H|].
  destruct (_ && _); [|exact H].
  destruct (_ >? 10000); [|exact H].
  cbn [silenceWarningCountRef set_silenceWarningCountRef set_isProcessingTimeoutRef].
  destruct (silenceWarningCountRef s + 1 >? 2).
  - match goal with
    | |- wellFormed (sendSystemMessage ?t ?x) =>
        destruct (sendSystemMessage_frame t x) as (F & _); cbv zeta in F;
        unfold wellFormed; rewrite F
    end.
    cbn [transcriptLines set_transcriptLines set_fullTranscriptHistory
         set_silenceWarningCountRef set_isProcessingTimeoutRef].
    apply wellFormed_push; [exact H | discriminate|].
    intros a _. unfold follows. cbn [speaker text].
    destruct (speaker a); [apply startsWith_refl | reflexivity].
  - match goal with
    | |- wellFormed (sendSystemMessage ?t ?x) =>
        destruct (sendSystemMessage_frame t x) as (F & _); cbv zeta in F;
        unfold wellFormed; rewrite F
    end.
    exact H.
Qed.

Lemma run_wellFormed (es : list Event) (s : State) :
  wellFormed s -> wellFormed (run es s).
Proof.
  apply run_invariant.
  - intros tracks s0 H. exact H.
  - intros h s0 H. exact H.
  - intros s0 H. unfold onopen.
    destruct (negb (isMountedRef s0)); [exact H|].
    destruct (scriptProcessorRef _); exact H.
  - intros m now s0. apply onmessage_invariant.
    + intros calls s1 H. unfold handleToolCall. destruct (find _ _); [|exact H].
      unfold handleTermination. destruct (terminationTriggeredRef _); exact H.
    + intros s1 H. exact H.
    + intros s1 H. exact H.
    + intros s1 H. exact H.
    + apply handleAiTranscript_wellFormed.
    + apply handleUserTranscript_wellFormed.
    + intros now0 a s1 H. unfold enqueueAudio.
      destruct (negb (truthy (audioData a))); [exact H|].
      destruct (audioContextRef s1); exact H.
  - intros s0 H. exact H.
  - intros s0 H. unfold onclose. destruct (isConnectedRef s0); exact H.
  - intros inputData s0 H. unfold onaudioprocess.
    destruct (_ || _); [exact H|].
    unfold vad. destruct (_ <? _)%float; exact H.
  - intros id s0 H. exact H.
  - intros s0 _. apply silenceTick_wellFormed.
  - intros s0 _ _ H. unfold countdownTick.
    destruct (timeLeft s0 <=? 1); [|exact H].
    unfold handleTermination. destruct (terminationTriggeredRef _); exact H.
  - intros msg s0 _ H. unfold triggerViolation.
    destruct (_ >=? 3); [|exact H].
    unfold handleTermination. destruct (terminationTriggeredRef _); exact H.
  - intros s0 H. exact H.
  - intros s0 _ H. unfold toggleMute. destruct (streamRef s0); exact H.
  - intros ms s0 _. apply advance_invariant.
    + intros t q s1 H. exact H.
    + intros cb s1 H. destruct cb; [|exact H|exact H].
      unfold runTimeout, disconnect.
      repeat match goal with
             | |- context [if ?b then _ else _] => destruct b
             | |- context [match ?x with _ => _ end] => destruct x
             end; exact H.
  - intros s0 _ H. unfold unmount, disconnect.
    repeat match goal with
           | |- context [if ?b then _ else _] => destruct b
           | |- context [match ?x with _ => _ end] => destruct x
           end; exact H.
  - intros before s0 H. unfold statusEffect.
    destruct before, (status s0); exact H.
Qed.

(** X12. Whatever happens to the component from its mounting on, no line of
    the display list is empty, two agent lines never follow one another, and
    a candidate line follows another candidate line only when it begins with
    the skip marker of the silence monitor. *)
Theorem transcript_turns (t0 : Z) (es : list Event) :
  let s := run es (initial t0) in
  Forall (fun line => text line <> []) (transcriptLines s) /\
  alternating (transcriptLines s) = true.
Proof.
  apply run_wellFormed. split; [constructor | reflexivity].
Qed.

(** X13. When the silence monitor skips a question, the marker it adds is an
    ordinary candidate line: a fragment of the candidate's speech
    transcribed next is glued to the marker, in the display list and in the
    history. *)
Theorem marker_merges (t : jsstring) (s : State) :
  isConnectedRef s = true ->
  isWaitingForResponseRef s = true ->
  isAiSpeakingRef s = false ->
  isProcessingTimeoutRef s = false ->
  nowMs s - lastAiTurnEndTimeRef s > 10000 ->
  silenceWarningCountRef s + 1 > 2 ->
  t <> [] ->
  let s' := handleUserTranscript t (silenceTick s) in
  transcriptLines s' = transcriptLines s ++ [mkLine user (silentEntry ++ t)] /\
  fullTranscriptHistory s' =
    fullTranscriptHistory s ++ [js "User: " ++ silentEntry ++ t].
Proof.
  intros C W A L E K T. cbv zeta.
  assert (H : transcriptLines (silenceTick s) = transcriptLines s ++ [mkLine user silentEntry] /\
              fullTranscriptHistory (silenceTick s) =
                fullTranscriptHistory s ++ [js "User: " ++ silentEntry]).
  { unfold silenceTick. rewrite C, W, A, L. cbn [negb andb].
    rewrite Z.gtb_ltb.
    replace (10000 <? nowMs s - lastAiTurnEndTimeRef s) with true
      by (symmetry; apply Z.ltb_lt; lia).
    cbn [silenceWarningCountRef set_silenceWarningCountRef set_isProcessingTimeoutRef].
    rewrite Z.gtb_ltb.
    replace (2 <? silenceWarningCountRef s + 1) with true
      by (symmetry; apply Z.ltb_lt; lia).
    match goal with
    | |- context [sendSystemMessage ?t ?x] =>
        destruct (sendSystemMessage_frame t x) as (F1 & F2 & _); cbv zeta in F1, F2;
        rewrite F1, F2
    end.
    split; reflexivity. }
  destruct H as (H1 & H2). revert H1 H2. generalize (silenceTick s). intros s1 H1 H2.
  unfold handleUserTranscript. rewrite (truthy_true t T). cbn [negb].
  cbn [transcriptLines set_transcriptLines fullTranscriptHistory set_fullTranscriptHistory].
  rewrite H1, H2. unfold historyEndsWith, appendToLast, replaceLast.
  rewrite !lastOf_app_last, !removelast_last. cbn [speaker text].
  split; [reflexivity|].
  change (startsWith (js "User:") (js "User: " ++ silentEntry)) with true.
  cbv iota. now rewrite <- app_assoc.
Qed.

Lemma marker_merges_witness :
  let s := run [EvSilenceTick; EvMessage agentTurn 0%Q; EvAdvance 11000%N;
                EvSilenceTick; EvMessage agentTurn 0%Q; EvAdvance 11000%N]
             awaitingCandidate in
  let s' := handleUserTranscript (js "Sorry") (silenceTick s) in
  transcriptLines s' = [mkLine user (js "[No Answer - Time Limit Exceeded]Sorry")] /\
  fullTranscriptHistory s' = [js "User: [No Answer - Time Limit Exceeded]Sorry"].
Proof.
  apply (marker_merges (js "Sorry")
           (run [EvSilenceTick; EvMessage agentTurn 0%Q; EvAdvance 11000%N;
                 EvSilenceTick; EvMessage agentTurn 0%Q; EvAdvance 11000%N]
              awaitingCandidate));
    vm_compute; (reflexivity || discriminate).
Defined.

End Lines.

(** *** The reason handed to the parent *)

Section Reasons.

Lemma terminations_insert_Forall (Q : Z * jsstring -> Prop) (due : Z) (r : jsstring)
  (q : list (Z * TimeoutCallback)) :
  Forall Q (terminations q) -> Q (due, r) ->
  Forall Q (terminations (insertTimeout (due, TerminationTimeout r) q)).
Proof.
  intros H Hr. induction q as [|[d cb] q IH]; [now repeat constructor|].
  cbn [insertTimeout fst]. destruct (due <? d).
  - cbn [terminations]. constructor; [exact Hr | exact H].
  - destruct cb; cbn [terminations] in *.
    + inversion H; subst. constructor; [assumption | now apply IH].
    + now apply IH.
    + now apply IH.
Qed.

Lemma sameLog_reasoned (s s' : State) : sameLog s s' -> reasoned s -> reasoned s'.
Proof. unfold reasoned. intros (_ & B & C) H. now rewrite B, C. Qed.

Lemma handleTermination_reasoned (r : jsstring) (s : State) :
  r <> [] -> reasoned s -> reasoned (handleTermination r s).
Proof.
  intros R (A & B). unfold handleTermination.
  destruct (terminationTriggeredRef s); [split; assumption|].
  split; [|exact B].
  unfold pendingTerminations, setTimeout. cbn [timeouts set_timeouts].
  apply terminations_insert_Forall; [exact A | exact R].
Qed.

Lemma advance_reasoned (ms : Z) (s : State) : reasoned s -> reasoned (advance ms s).
Proof.
  intros (A & B). destruct (advance_log ms s) as (Hc & _ & _ & _ & Hp & _).
  unfold reasoned. rewrite Hc, Hp. rewrite Forall_forall in A. split.
  - apply Forall_forall. intros p Hin. apply filter_In in Hin. now apply A.
  - apply Forall_app. split; [exact B|].
    apply Forall_forall. intros c Hin. apply in_map_iff in Hin.
    destruct Hin as (p & <- & Hin). apply filter_In in Hin.
    exists (snd p). split; [reflexivity | now apply A].
Qed.

Lemma run_reasoned (es : list Event) (s : State) : reasoned s -> reasoned (run es s).
Proof.
  apply run_invariant.
  - intros tracks s0 H. exact H.
  - intros h s0 H. exact H.
  - intros s0 H. unfold onopen.
    destruct (negb (isMountedRef s0)); [exact H|].
    destruct (scriptProcessorRef _); exact H.
  - intros m now s0. apply onmessage_invariant.
    + intros calls s1 H. unfold handleToolCall.
      destruct (find _ _) as [call|]; [|exact H].
      apply (handleTermination_reasoned (reasonOf call)); [apply reasonOf_truthy | exact H].
    + intros s1 H. exact H.
    + intros s1 H. exact H.
    + intros s1 H. exact H.
    + intros t s1 H. unfold handleAiTranscript.
      destruct (negb (truthy t)); [exact H|].
      destruct (negb (truthy (trim t))); exact H.
    + intros t s1 H. unfold handleUserTranscript.
      destruct (negb (truthy t)); exact H.
    + intros now0 a s1 H. unfold enqueueAudio.
      destruct (negb (truthy (audioData a))); [exact H|].
      destruct (audioContextRef s1); exact H.
  - intros s0 H. exact H.
  - intros s0 H. unfold onclose. destruct (isConnectedRef s0); exact H.
  - intros inputData s0 H. unfold onaudioprocess.
    destruct (_ || _); [exact H|].
    unfold vad. destruct (_ <? _)%float; exact H.
  - intros id s0 H. exact H.
  - intros s0 _. apply sameLog_reasoned, silenceTick_sameLog.
  - intros s0 _ _ H. unfold countdownTick.
    destruct (timeLeft s0 <=? 1); [|exact H].
    apply (handleTermination_reasoned (js "Time Limit Exceeded")
             (set_countdownInterval false s0)); [discriminate | exact H].
  - intros msg s0 _ H. rewrite triggerViolation_struck.
    apply (sameLog_reasoned (struck msg s0)).
    { destruct (setTimeout_clear_sameTermination 3000 (struck msg s0)) as (A & B & C & _).
      repeat split; assumption. }
    unfold struck. cbn [warningCount set_violationMessage].
    destruct (warningCount s0 + 1 >=? 3); [|exact H].
    apply (handleTermination_reasoned securityViolation
             (set_violationMessage (Some msg) s0)); [discriminate | exact H].
  - intros s0 H. exact H.
  - intros s0 _ H. unfold toggleMute. destruct (streamRef s0); exact H.
  - intros ms s0 _. apply advance_reasoned.
  - intros s0 _ H. unfold unmount.
    apply (sameLog_reasoned (set_isMountedRef false s0)); [apply disconnect_sameLog|].
    exact H.
  - intros before s0 H. unfold statusEffect.
    destruct before, (status s0); exact H.
Qed.

(** X14. Whatever happens to the component from its mounting on, the parent
    is called at most once, and always with a reason that is not empty. *)
Theorem onComplete_reasoned (t0 : Z) (es : list Event) :
  let s := run es (initial t0) in
  (List.length (completed s) <= 1)%nat /\
  Forall (fun c => exists r, snd c = Some r /\ r <> []) (completed s).
Proof.
  cbv zeta. split; [apply (run_once t0 es)|].
  apply run_reasoned. split; constructor.
Qed.

End Reasons.

(** *** The active sources *)

Section Sources.

Lemma Add_snoc {A : Type} (a : A) (l : list A) : Add a l (l ++ [a]).
Proof.
  pose proof (Add_app a l []) as H. now rewrite app_nil_r in H.
Qed.

Lemma NoDup_app_filter {A B : Type} (f : A -> B) (g : A -> bool) (a : list B) (l : list A) :
  NoDup (a ++ map f l) -> NoDup (a ++ map f (filter g l)).
Proof.
  induction l as [|x l IH]; [auto|]. cbn [map filter]. intros H.
  assert (H' : NoDup (a ++ map f l)) by (eapply NoDup_remove_1; exact H).
  destruct (g x); [|now apply IH].
  cbn [map]. apply NoDup_remove_2 in H as N.
  apply NoDup_Add with (l := a ++ map f (filter g l)) (a := f x).
  - apply Add_app.
  - split; [now apply IH|].
    intros I. apply N. apply in_app_iff in I. apply in_app_iff.
    destruct I as [I|I]; [now left | right].
    apply in_map_iff in I. destruct I as (y & E & I). apply filter_In in I.
    apply in_map_iff. exists y. tauto.
Qed.

Lemma Forall_app_filter {A B : Type} (Q : B -> Prop) (f : A -> B) (g : A -> bool)
  (a : list B) (l : list A) :
  Forall Q (a ++ map f l) -> Forall Q (a ++ map f (filter g l)).
Proof.
  rewrite !Forall_app. intros (H1 & H2). split; [exact H1|].
  rewrite Forall_forall in *. intros y I. apply H2.
  apply in_map_iff in I. destruct I as (x & E & I). apply filter_In in I.
  apply in_map_iff. exists x. tauto.
Qed.

Lemma flush_tracked (s s' : State) :
  stoppedSources s' = stoppedSources s ++ map source_id (sourcesRef s) ->
  sourcesRef s' = [] -> nextSourceId s' = nextSourceId s ->
  tracked s -> tracked s'.
Proof.
  unfold tracked. intros -> -> -> (A & B & _). cbn [map]. rewrite app_nil_r.
  split; [exact A|]. split; [exact B|]. intros x [].
Qed.

Lemma same_tracked (s s' : State) :
  stoppedSources s' = stoppedSources s -> sourcesRef s' = sourcesRef s ->
  nextSourceId s' = nextSourceId s -> scheduled s' = scheduled s ->
  tracked s -> tracked s'.
Proof. unfold tracked. now intros -> -> -> ->. Qed.

Lemma disconnect_tracked (s : State) : tracked s -> tracked (disconnect s).
Proof.
  apply flush_tracked; unfold disconnect;
    repeat match goal with
           | |- context [if ?b then _ else _] => destruct b
           | |- context [match ?x with _ => _ end] => destruct x
           end; reflexivity.
Qed.

Lemma enqueueAudio_tracked (now : Q) (a : InlineAudio) (s : State) :
  tracked s -> tracked (enqueueAudio now a s).
Proof.
  intros H. unfold enqueueAudio.
  destruct (negb (truthy (audioData a))); [exact H|].
  destruct (audioContextRef s); [|exact H].
  destruct H as (A & B & C).
  set (source := mkSource (nextSourceId s) (Qmax now (nextAudioStartTimeRef s))
                   (bufferDuration a)).
  match goal with |- tracked ?x => set (s' := x) end.
  assert (E1 : stoppedSources s' = stoppedSources s) by reflexivity.
  assert (E2 : sourcesRef s' = sourcesRef s ++ [source]) by reflexivity.
  assert (E3 : scheduled s' = scheduled s ++ [source]) by reflexivity.
  assert (E4 : nextSourceId s' = S (nextSourceId s)) by reflexivity.
  clearbody s'. unfold tracked. rewrite E1, E2, E3, E4.
  rewrite map_app, app_assoc. cbn [map source_id source].
  split; [|split].
  - apply NoDup_Add with (l := stoppedSources s ++ map source_id (sourcesRef s))
                         (a := nextSourceId s).
    + apply Add_snoc.
    + split; [exact A|]. intros I. rewrite Forall_forall in B. apply B in I. lia.
  - apply Forall_app. split.
    + eapply Forall_impl; [|exact B]. cbn. intros; lia.
    + repeat constructor.
  - intros x I. apply in_app_iff in I. apply in_app_iff.
    destruct I as [I|I]; [left; now apply C | now right].
Qed.

Lemma sendSystemMessage_tracked (t : jsstring) (s : State) :
  tracked s -> tracked (sendSystemMessage t s).
Proof.
  intros H. unfold sendSystemMessage.
  destruct (sessionRef s) as [h|]; [|exact H]. destruct (sendThrows h); exact H.
Qed.

Lemma runTimeout_tracked (cb : TimeoutCallback) (s : State) :
  tracked s -> tracked (runTimeout cb s).
Proof.
  destruct cb; [|exact (fun H => H)|exact (fun H => H)].
  apply flush_tracked; unfold runTimeout, disconnect;
    repeat match goal with
           | |- context [if ?b then _ else _] => destruct b
           | |- context [match ?x with _ => _ end] => destruct x
           end; reflexivity.
Qed.

Lemma run_tracked (es : list Event) (s : State) : tracked s -> tracked (run es s).
Proof.
  apply run_invariant.
  - intros tracks s0 H. exact H.
  - intros h s0 H. exact H.
  - intros s0 H. unfold onopen.
    destruct (negb (isMountedRef s0)); [exact H|].
    destruct (scriptProcessorRef _); exact H.
  - intros m now s0. apply onmessage_invariant.
    + intros calls s1 H. unfold handleToolCall. destruct (find _ _); [|exact H].
      unfold handleTermination. destruct (terminationTriggeredRef _); exact H.
    + intros s1. apply flush_tracked; reflexivity.
    + intros s1 H. exact H.
    + intros s1 H. exact H.
    + intros t s1 H. unfold handleAiTranscript.
      destruct (negb (truthy t)); [exact H|].
      destruct (negb (truthy (trim t))); exact H.
    + intros t s1 H. unfold handleUserTranscript.
      destruct (negb (truthy t)); exact H.
    + apply enqueueAudio_tracked.
  - intros s0 H. exact H.
  - intros s0 H. unfold onclose. destruct (isConnectedRef s0); exact H.
  - intros inputData s0 H. unfold onaudioprocess.
    destruct (_ || _); [exact H|].
    unfold vad. destruct (_ <? _)%float; exact H.
  - intros id s0 (A & B & C). unfold tracked, onended.
    cbn [stoppedSources sourcesRef scheduled nextSourceId set_sourcesRef].
    split; [now apply NoDup_app_filter|]. split; [now apply Forall_app_filter|].
    intros x I. apply filter_In in I. now apply C.
  - intros s0 _ H. unfold silenceTick.
    destruct (negb (isConnectedRef s0)); [exact H|].
    destruct (_ && _); [|exact H].
    destruct (_ >? 10000); [|exact H].
    destruct (_ >? 2); apply sendSystemMessage_tracked; exact H.
  - intros s0 _ _ H. unfold countdownTick.
    destruct (timeLeft s0 <=? 1); [|exact H].
    unfold handleTermination. destruct (terminationTriggeredRef _); exact H.
  - intros msg s0 _ H. unfold triggerViolation.
    destruct (_ >=? 3); [|exact H].
    unfold handleTermination. destruct (terminationTriggeredRef _); exact H.
  - intros s0 H. exact H.
  - intros s0 _ H. unfold toggleMute. destruct (streamRef s0); exact H.
  - intros ms s0 _. apply advance_invariant.
    + intros t q s1 H. exact H.
    + apply runTimeout_tracked.
  - intros s0 _ H. unfold unmount.
    apply (disconnect_tracked (set_isMountedRef false s0)). exact H.
  - intros before s0 H. unfold statusEffect.
    destruct before, (status s0); exact H.
Qed.

(** X15. Whatever happens to the component from its mounting on: no audio
    source is stopped twice, a source that was stopped is never again in the
    active set, the active set holds no source twice, and every active
    source is one that was scheduled. *)
Theorem sources_tracked (t0 : Z) (es : list Event) :
  let s := run es (initial t0) in
  NoDup (stoppedSources s ++ map source_id (sourcesRef s)) /\
  (forall src, In src (sourcesRef s) -> In src (scheduled s)).
Proof.
  assert (H : tracked (initial t0)).
  { split; [constructor|]. split; [constructor|]. intros x []. }
  destruct (run_tracked es _ H) as (A & _ & C). cbv zeta. auto.
Qed.

End Sources.

(** *** The prompt indicators *)

Section Indicators.

Lemma runTimeout_indicators (cb : TimeoutCallback) (s : State) :
  systemMessageStatus (runTimeout cb s) = systemMessageStatus s /\
  silenceTriggered (runTimeout cb s) =
  match cb with
  | ClearSilenceTriggered => false
  | _ => silenceTriggered s
  end.
Proof.
  destruct cb; unfold runTimeout; try (split; reflexivity).
  unfold disconnect. destruct (sessionRef _) as [h|]; [destruct (closeThrows h)|];
    split; reflexivity.
Qed.

Lemma runTimeouts_indicators (l : list (Z * TimeoutCallback)) (s : State) :
  let s' := fold_left (fun s p => runTimeout (snd p) s) l s in
  systemMessageStatus s' = systemMessageStatus s /\
  (In ClearSilenceTriggered (map snd l) -> silenceTriggered s' = false).
Proof.
  revert s. induction l as [|[d cb] l IH]; intros s; cbv zeta; [split; [reflexivity|intros []]|].
  cbn [fold_left snd map]. destruct (IH (runTimeout cb s)) as (A & B). cbv zeta in A, B.
  destruct (runTimeout_indicators cb s) as (C & D).
  split; [now rewrite A|].
  intros [E|E]; [|now apply B]. subst cb.
  clear B. revert D. generalize (runTimeout ClearSilenceTriggered s). intros s1 D.
  clear - D. revert s1 D. induction l as [|[d cb] l IH]; intros s1 D; [exact D|].
  cbn [fold_left snd]. apply IH.
  destruct (runTimeout_indicators cb s1) as (_ & F). rewrite F. now destruct cb.
Qed.

(** X16. A directive that goes out raises the two indicators of the silence
    monitor. Three seconds later the "silence detected" flag is down again,
    while the status line stays: time alone never clears it. *)
Theorem prompt_indicators (t : jsstring) (s : State) (h : LiveSession) :
  sessionRef s = Some h -> sendThrows h = false ->
  let s1 := sendSystemMessage t s in
  silenceTriggered s1 = true /\
  systemMessageStatus s1 <> None /\
  silenceTriggered (advance 3000 s1) = false /\
  (forall ms, systemMessageStatus (advance ms s1) = systemMessageStatus s1).
Proof.
  intros H T. cbv zeta.
  destruct (sendSystemMessage_ok t s h H T) as (_ & B & C & _). cbv zeta in B, C.
  split; [exact C|]. split; [rewrite B; discriminate|].
  assert (Q : In (nowMs s + 3000, ClearSilenceTriggered)
                (timeouts (sendSystemMessage t s)) /\
              nowMs (sendSystemMessage t s) = nowMs s).
  { unfold sendSystemMessage. rewrite H, T. split; [|reflexivity].
    unfold setTimeout. cbn [timeouts set_timeouts]. apply In_insertTimeout. }
  destruct Q as (Q & N). revert Q N. generalize (sendSystemMessage t s). intros s1 Q N.
  split.
  - unfold advance. apply runTimeouts_indicators.
    apply in_map_iff. exists (nowMs s + 3000, ClearSilenceTriggered).
    split; [reflexivity|]. apply filter_In. split; [exact Q|].
    unfold isDue. cbn [fst]. apply Z.leb_le. lia.
  - intros ms. unfold advance.
    match goal with
    | |- systemMessageStatus (fold_left _ ?l ?b) = _ =>
        destruct (runTimeouts_indicators l b) as (E & _)
    end.
    cbv zeta in E. rewrite E. reflexivity.
Qed.

Lemma prompt_indicators_witness :
  let s1 := sendSystemMessage silentAlert awaitingCandidate in
  silenceTriggered s1 = true /\
  systemMessageStatus s1 <> None /\
  silenceTriggered (advance 3000 s1) = false /\
  (forall ms, systemMessageStatus (advance ms s1) = systemMessageStatus s1).
Proof.
  exact (prompt_indicators silentAlert awaitingCandidate (mkSession false false)
           eq_refl eq_refl).
Defined.

End Indicators.

End SessionProperties.

(** ** The playback scheduler *)

Module SchedulerProperties.

Import Scheduler Binary64.

Local Open Scope float_scope.

Lemma enqueue_step (now d : float) (s : State) :
  (0 <=? nextAudioStartTimeRef s) = true -> (0 <=? now) = true -> (0 <=? d) = true ->
  let start := InterviewSession.Math_max now (nextAudioStartTimeRef s) in
  (now <=? start) = true /\
  (nextAudioStartTimeRef s <=? start) = true /\
  (0 <=? start) = true /\
  (start <=? nextAudioStartTimeRef (enqueue now d s)) = true /\
  (0 <=? nextAudioStartTimeRef (enqueue now d s)) = true.
Proof.
  intros Hc Hn Hd start.
  destruct (Math_max_cases now (nextAudioStartTimeRef s) Hn Hc) as (E & L1 & L2).
  assert (P : (0 <=? start) = true) by (subst start; destruct E as [-> | ->]; assumption).
  destruct (add_ge start d P Hd) as (A1 & A2).
  repeat split; assumption.
Qed.

Lemma operate_nonneg (o : Operation) (s : State) :
  sound o = true -> (0 <=? nextAudioStartTimeRef s) = true ->
  (0 <=? nextAudioStartTimeRef (operate o s)) = true.
Proof.
  destruct o as [now d| | |]; cbn [sound operate]; intros S H; try reflexivity.
  apply andb_prop in S. destruct S as (Hn & Hd).
  now apply enqueue_step.
Qed.

Lemma run_nonneg (os : list Operation) (s : State) :
  forallb sound os = true -> (0 <=? nextAudioStartTimeRef s) = true ->
  (0 <=? nextAudioStartTimeRef (run os s)) = true.
Proof.
  revert s. induction os as [|o os IH]; intros s S H; [exact H|].
  cbn [forallb] in S. apply andb_prop in S. destruct S as (So & S).
  apply (IH (operate o s) S), operate_nonneg; assumption.
Qed.

Lemma enqueues_ordered (batch : list (float * float)) (s : State) :
  forallb sound (enqueues batch) = true -> (0 <=? nextAudioStartTimeRef s) = true ->
  let s' := run (enqueues batch) s in
  exists new,
    started s' = started s ++ new /\
    List.length new = List.length batch /\
    ForallOrdPairs (fun a b => (storedEnd a <=? startTime b) = true) new /\
    Forall (fun a => (nextAudioStartTimeRef s <=? startTime a) = true /\
                     (storedEnd a <=? nextAudioStartTimeRef s') = true) new /\
    (nextAudioStartTimeRef s <=? nextAudioStartTimeRef s') = true.
Proof.
  revert s. induction batch as [|[now d] batch IH]; intros s S H; cbv zeta.
  - exists []. rewrite app_nil_r. repeat split; try constructor.
    apply leb_refl, H.
  - cbn [enqueues map forallb sound fst snd] in S.
    apply andb_prop in S. destruct S as (So & S).
    apply andb_prop in So. destruct So as (Hn & Hd).
    destruct (enqueue_step now d s H Hn Hd) as (L1 & L2 & L3 & L4 & L5).
    destruct (IH (enqueue now d s) S L5) as (new & E & N & O & F & C).
    change (run (enqueues ((now, d) :: batch)) s)
      with (run (enqueues batch) (enqueue now d s)).
    set (s1 := enqueue now d s) in *. set (s' := run (enqueues batch) s1) in *.
    set (src := mkSource (InterviewSession.Math_max now (nextAudioStartTimeRef s)) d).
    assert (E1 : started s1 = started s ++ [src]) by reflexivity.
    assert (C1 : storedEnd src = nextAudioStartTimeRef s1) by reflexivity.
    assert (T : (nextAudioStartTimeRef s <=? nextAudioStartTimeRef s1) = true)
      by (eapply leb_trans; [exact L2 | exact L4]).
    exists (src :: new). split; [rewrite E, E1, <- app_assoc; reflexivity|].
    split; [cbn [List.length]; now rewrite N|].
    split; [|split].
    + constructor; [|exact O].
      eapply Forall_impl; [|exact F]. intros a (A & _). now rewrite C1.
    + constructor.
      * split; [exact L2 | now rewrite C1].
      * eapply Forall_impl; [|exact F]. intros a (A & B).
        split; [eapply leb_trans; [exact T | exact A] | exact B].
    + eapply leb_trans; [exact T | exact C].
Qed.

(** C6, as stated, fails. An interruption takes the cursor from 5 back to 0,
    behind the audio clock, which reads 4. And the cursor is a rounded sum:
    of three buffers scheduled back to back, the third starts at 0.4, before
    the second, started at 0.30000000000000004 and 0.1 long, has played to
    its end. *)
Lemma playback_cursor_counterexample :
  (let s := run [Enqueue 3 2] initial in
   let s' := operate Interrupted s in
   nextAudioStartTimeRef s = 5 /\ nextAudioStartTimeRef s' = 0 /\
   (nextAudioStartTimeRef s <=? nextAudioStartTimeRef s') = false /\
   (4 <=? nextAudioStartTimeRef s') = false) /\
  (let s := run [Enqueue 0.1 0.2; Enqueue 0.1 0.1; Enqueue 0.1 0.1] initial in
   let second := mkSource 0.30000000000000004 0.1 in
   let third := mkSource 0.4 0.1 in
   started s = [mkSource 0.1 0.2; second; third] /\
   Qle_bool (exactEnd second) (exact (startTime third)) = false).
Proof. vm_compute. repeat split; reflexivity. Qed.

(** C6, amended. With the clock, the cursor and the duration at or above 0,
    as they are in a session, enqueueing a buffer never moves the cursor back
    and leaves it at or after the clock read at that enqueue: the buffer
    starts at [Math.max] of clock and cursor, so not before either, and at the
    cursor (back to back with its predecessor) when the clock has not passed
    it; the cursor becomes the sum of start and duration, in binary64. So in
    any run of enqueues, after whatever operations, the cursor never moves
    back and no buffer starts before the cursor was, nor before the end
    computed for any buffer that the run scheduled before it. An interruption
    flush and the session opening reset the cursor to 0, whatever the clock,
    as the teardown does. *)
Theorem playback_cursor :
  (forall s now d,
      (0 <=? nextAudioStartTimeRef s) = true -> (0 <=? now) = true -> (0 <=? d) = true ->
      let s' := enqueue now d s in
      let start := InterviewSession.Math_max now (nextAudioStartTimeRef s) in
      started s' = started s ++ [mkSource start d] /\
      nextAudioStartTimeRef s' = start + d /\
      (now <=? start) = true /\
      (nextAudioStartTimeRef s <=? start) = true /\
      ((now <=? nextAudioStartTimeRef s) = true ->
       (start =? nextAudioStartTimeRef s) = true) /\
      (nextAudioStartTimeRef s <=? nextAudioStartTimeRef s') = true /\
      (now <=? nextAudioStartTimeRef s') = true) /\
  (forall os batch,
      forallb sound os = true -> forallb sound (enqueues batch) = true ->
      let s := run os initial in
      let s' := run (enqueues batch) s in
      exists new,
        started s' = started s ++ new /\
        List.length new = List.length batch /\
        ForallOrdPairs (fun a b => (storedEnd a <=? startTime b) = true) new /\
        Forall (fun a => (nextAudioStartTimeRef s <=? startTime a) = true /\
                         (storedEnd a <=? nextAudioStartTimeRef s') = true) new /\
        (nextAudioStartTimeRef s <=? nextAudioStartTimeRef s') = true) /\
  (forall s, nextAudioStartTimeRef (operate Interrupted s) = 0) /\
  (forall s, nextAudioStartTimeRef (operate Opened s) = 0) /\
  (forall s, nextAudioStartTimeRef (operate Disconnected s) = 0).
Proof.
  split.
  { intros s now d Hc Hn Hd s' start.
    destruct (enqueue_step now d s Hc Hn Hd) as (L1 & L2 & L3 & L4 & L5).
    split; [reflexivity|]. split; [reflexivity|].
    split; [exact L1|]. split; [exact L2|].
    split; [intros H; now apply Math_max_r|].
    split; eapply leb_trans; eassumption. }
  split.
  { intros os batch So Sb. apply enqueues_ordered; [exact Sb|].
    apply run_nonneg; [exact So | reflexivity]. }
  repeat split; reflexivity.
Qed.

(** Three buffers arriving with jitter play back to back. *)
Example playback_back_to_back :
  let s := run (enqueues [(0, 0.5); (0.1, 0.5); (0.9, 0.5)]) initial in
  map startTime (started s) = [0; 0.5; 1] /\
  nextAudioStartTimeRef s = 1.5.
Proof. vm_compute. split; reflexivity. Qed.

End SchedulerProperties.

(** ** The completion handler *)

Module AppProperties.

Import App.

Section Completion.

Variable JSON_parse : jsstring -> option JSValue.
Variable coerce : JSValue -> float.

Lemma disqualifying_other (x : jsstring) :
  x <> [] -> x <> js "Completed" -> disqualifying (Some x) = Some x.
Proof.
  intros Hne Hc. unfold disqualifying. rewrite (truthy_true x Hne).
  destruct (JSString.eqb x (js "Completed")) eqn:E; [|reflexivity].
  apply StringProperties.eqb_eq in E. contradiction.
Qed.

Lemma disqualifying_scoring (r : option jsstring) :
  r = None \/ r = Some [] \/ r = Some (js "Completed") -> disqualifying r = None.
Proof. intros [-> | [-> | ->]]; reflexivity. Qed.

(** C8, as stated, fails for the empty reason: it is neither absent nor
    "Completed", yet the scoring request is issued and no disqualification is
    reported. *)
Lemma scoring_gate_counterexample :
  let a := handleInterviewComplete parseSample coerceSample
             (Responds (Some scoreText)) (js "AI: Welcome.") (Some []) (interviewing jane) in
  scoringRequests a = [mkRequest (Some jane) (js "AI: Welcome.")] /\
  disqualifications a = [] /\
  step a = RESULT /\
  result a = Some (mkResult (JNumber 8) (JString (js "Solid.")) true (JArray []) None).
Proof. vm_compute. repeat split; reflexivity. Qed.

(** C8, amended. When the termination reason is absent, empty or equal to
    "Completed", the scoring request is issued, for the candidate and the
    transcript given, and how it settles determines the result that is set.
    For any other reason no scoring request is attempted: the handler leaves
    the evaluating screen up and, 1.5 s later, reports the disqualification
    result, which carries that reason verbatim with rating 0 and passed
    false. *)
Theorem scoring_gate :
  (forall (o : Outcome) (transcript : jsstring) (r : option jsstring) (a : AppState),
      r = None \/ r = Some [] \/ r = Some (js "Completed") ->
      let a' := handleInterviewComplete JSON_parse coerce o transcript r a in
      scoringRequests a' = scoringRequests a ++ [mkRequest (candidate a) transcript] /\
      disqualifications a' = disqualifications a /\
      result a' = Some (evaluate JSON_parse coerce o) /\
      step a' = RESULT) /\
  (forall (o : Outcome) (transcript x : jsstring) (a : AppState),
      x <> [] -> x <> js "Completed" ->
      let a' := handleInterviewComplete JSON_parse coerce o transcript (Some x) a in
      scoringRequests a' = scoringRequests a /\
      result a' = result a /\
      step a' = EVALUATING /\
      (disqualifications a = [] ->
       let a'' := elapse 1500 a' in
       scoringRequests a'' = scoringRequests a /\
       disqualifications a'' = [] /\
       step a'' = RESULT /\
       result a'' =
         Some (mkResult (JNumber 0) (JString (js "Interview terminated early."))
                 false (JArray []) (Some x)))).
Proof.
  split.
  - intros o transcript r a Hr a'. subst a'. unfold handleInterviewComplete.
    rewrite (disqualifying_scoring r Hr). repeat split.
  - intros o transcript x a Hne Hc a'. subst a'. unfold handleInterviewComplete.
    rewrite (disqualifying_other x Hne Hc).
    split; [reflexivity|]. split; [reflexivity|]. split; [reflexivity|].
    intros Hq. unfold elapse. cbn. rewrite Hq. cbn.
    assert (E : (appNow a + 1500 <=? appNow a + 1500) = true) by (apply Z.leb_refl).
    rewrite E. cbn. repeat split.
Qed.

(** Three tab switches end the interview: no scoring request, and the
    security reason on the report. *)
Example scoring_gate_disqualified :
  let a := elapse 1500
             (handleInterviewComplete parseSample coerceSample RequestThrows []
                (Some InterviewSession.securityViolation) (interviewing jane)) in
  scoringRequests a = [] /\
  step a = RESULT /\
  option_map terminationReason (result a) =
    Some (Some InterviewSession.securityViolation).
Proof. vm_compute. repeat split; reflexivity. Qed.

(** C10, as stated, fails for an empty response: the text handed to
    [JSON.parse] is then "{}", which parses, and the result carries the
    default feedback "No feedback provided.", not the error feedback of the
    fallback result. *)
Lemma evaluation_counterexample :
  let a := handleInterviewComplete parseSample coerceSample
             (Responds None) (js "AI: Welcome.") (Some (js "Completed"))
             (interviewing jane) in
  result a =
    Some (mkResult (JNumber 0) (JString (js "No feedback provided.")) false
            (JArray []) None) /\
  feedback errorResult =
    JString (js "An error occurred during evaluation. Please try again.") /\
  JSString.eqb (js "No feedback provided.")
    (js "An error occurred during evaluation. Please try again.") = false.
Proof. vm_compute. repeat split; reflexivity. Qed.

(** C10, amended. For a session that completes with reason "Completed" or
    with no reason, the evaluation step always sets a result and advances to
    the result screen. If the scoring request raises, or its text does not
    parse, or parses to [null], the fallback result is set: rating 0, passed
    false, and the error feedback "An error occurred during evaluation.
    Please try again.". If the response has no text or an empty one, "{}" is
    parsed instead and the result has rating 0, passed false and the default
    feedback "No feedback provided.". A parsed response without a rating
    field yields rating 0 and passed false, passed being rating > 6. *)
Theorem evaluation_always_results
  (o : Outcome) (transcript : jsstring) (r : option jsstring) (a : AppState) :
  r = None \/ r = Some (js "Completed") ->
  let a' := handleInterviewComplete JSON_parse coerce o transcript r a in
  step a' = RESULT /\
  result a' = Some (evaluate JSON_parse coerce o) /\
  (o = RequestThrows -> result a' = Some errorResult) /\
  (forall text,
      o = Responds text -> JSON_parse (jsonTextOf text) = None ->
      result a' = Some errorResult) /\
  (forall text,
      o = Responds text -> JSON_parse (jsonTextOf text) = Some JNull ->
      result a' = Some errorResult) /\
  (forall text,
      o = Responds text -> text = None \/ text = Some [] ->
      jsonTextOf text = js "{}" /\
      (JSON_parse (js "{}") = Some (JObject []) ->
       result a' =
         Some (mkResult (JNumber 0) (JString (js "No feedback provided.")) false
                 (JArray []) None))) /\
  (forall text data get,
      o = Responds text -> JSON_parse (jsonTextOf text) = Some data ->
      properties data = Some get -> get (js "rating") = None ->
      exists res,
        result a' = Some res /\ rating res = JNumber 0 /\ passed res = false) /\
  rating errorResult = JNumber 0 /\
  passed errorResult = false /\
  feedback errorResult =
    JString (js "An error occurred during evaluation. Please try again.").
Proof.
  intros Hr a'.
  assert (Hres : result a' = Some (evaluate JSON_parse coerce o) /\ step a' = RESULT).
  { subst a'. unfold handleInterviewComplete.
    rewrite disqualifying_scoring by (destruct Hr; auto). split; reflexivity. }
  destruct Hres as [Hres Hstep]. rewrite Hres.
  split; [exact Hstep|]. split; [reflexivity|].
  split; [intros ->; reflexivity|].
  split; [intros text -> Hp; unfold evaluate; now rewrite Hp|].
  split; [intros text -> Hp; unfold evaluate; now rewrite Hp|].
  split.
  { intros text -> Ht.
    assert (Hj : jsonTextOf text = js "{}") by (destruct Ht as [-> | ->]; reflexivity).
    split; [exact Hj|]. intros Hp. unfold evaluate. rewrite Hj, Hp. reflexivity. }
  split.
  { intros text data get -> Hp Hd Hg. unfold evaluate. rewrite Hp, Hd, Hg.
    eexists. split; [reflexivity|]. split; reflexivity. }
  repeat split.
Qed.

End Completion.

(** The agent ended the interview and the scoring service answered. *)
Lemma evaluation_always_results_witness :
  let a := handleInterviewComplete parseSample coerceSample
             (Responds (Some scoreText)) (js "AI: Welcome.") (Some (js "Completed"))
             (interviewing jane) in
  step a = RESULT /\
  result a = Some (mkResult (JNumber 8) (JString (js "Solid.")) true (JArray []) None).
Proof.
  destruct (evaluation_always_results parseSample coerceSample
              (Responds (Some scoreText)) (js "AI: Welcome.") (Some (js "Completed"))
              (interviewing jane) (or_intror eq_refl)) as (Hstep & Hres & _).
  split; [exact Hstep | exact Hres].
Defined.

End AppProperties.

(** ** The application *)

Module ScreensProperties.

Import App Screens.

Section Navigation.

Variable JSON_parse : jsstring -> option JSValue.
Variable coerce : JSValue -> float.

Lemma eqStep_eq (x y : AppStep) : eqStep x y = true <-> x = y.
Proof. destruct x, y; cbn; split; congruence. Qed.

Lemma shown_form (a : AppState) : existsb isForm (main a) = true -> step a = FORM.
Proof.
  unfold main. destruct (step a), (candidate a), (result a); cbn; congruence.
Qed.

Lemma shown_instructions (a : AppState) :
  existsb isInstructions (main a) = true -> step a = INSTRUCTIONS.
Proof.
  unfold main. destruct (step a), (candidate a), (result a); cbn; congruence.
Qed.

Lemma shown_interview (a : AppState) :
  existsb isInterview (main a) = true ->
  step a = INTERVIEW /\ exists c, candidate a = Some c.
Proof.
  unfold main. destruct (step a), (candidate a), (result a); cbn;
    try discriminate; eauto.
Qed.

Lemma shown_result (a : AppState) :
  existsb isResult (main a) = true -> step a = RESULT.
Proof.
  unfold main. destruct (step a), (candidate a), (result a); cbn; congruence.
Qed.

Lemma disqualifying_some (reason : option jsstring) (r : jsstring) :
  disqualifying reason = Some r -> r <> [] /\ r <> js "Completed".
Proof.
  unfold disqualifying. destruct reason as [x|]; [|discriminate].
  destruct (truthy x) eqn:T; [|discriminate]. cbn [andb].
  destruct (JSString.eqb x (js "Completed")) eqn:E; [discriminate|].
  intros [= <-]. split.
  - intros ->. discriminate.
  - intros ->. discriminate.
Qed.

Lemma handleSubmit_settled (f : CandidateForm.Form) (a : AppState) :
  step a = FORM -> settled JSON_parse coerce a ->
  settled JSON_parse coerce (CandidateForm.handleSubmit f handleFormSubmit a).
Proof.
  intros F H. unfold CandidateForm.handleSubmit.
  destruct (truthy (CandidateForm.name f)) eqn:T1; [|exact H].
  destruct (truthy (CandidateForm.jobDescription f)) eqn:T2; [|exact H].
  destruct (truthy (CandidateForm.field f)) eqn:T3; [|exact H].
  destruct (truthy (CandidateForm.language f)) eqn:T4; [|exact H].
  cbn [andb]. destruct H as (H1 & H2 & H3 & H4 & H5 & H6 & H7 & H8).
  unfold settled, handleFormSubmit. cbn.
  split; [right; eauto|]. split.
  { intros c [= <-]. unfold filled. cbn.
    repeat split; intros E; rewrite E in *; discriminate. }
  split; [discriminate|]. split; [exact H4|].
  split; [intros _; apply H5; congruence|]. auto.
Qed.

Lemma handleInterviewComplete_settled (o : Outcome) (transcript : jsstring)
  (reason : option jsstring) (a : AppState) :
  step a = INTERVIEW -> settled JSON_parse coerce a ->
  settled JSON_parse coerce
    (handleInterviewComplete JSON_parse coerce o transcript reason a).
Proof.
  intros F (H1 & H2 & H3 & H4 & H5 & H6 & H7 & H8).
  assert (D : disqualifications a = []) by (apply H5; congruence).
  destruct H1 as [H1|(c & C)]; [congruence|].
  unfold handleInterviewComplete.
  destruct (disqualifying reason) as [r|] eqn:E.
  - apply disqualifying_some in E. unfold settled. cbn. rewrite D. cbn.
    split; [right; eauto|]. split; [exact H2|]. split; [discriminate|].
    split; [exact H4|]. split; [congruence|]. split; [lia|].
    split; [repeat constructor; apply E | exact H8].
  - unfold settled. cbn.
    split; [right; eauto|]. split; [exact H2|]. split; [eauto|].
    split; [intros r [= <-]; right; eauto|].
    split; [intros _; exact D|]. split; [exact H6|]. split; [exact H7|].
    apply Forall_app. split; [exact H8|]. repeat constructor.
    exists c. split; [exact C | now apply H2].
Qed.

Lemma elapse_settled (ms : Z) (a : AppState) :
  settled JSON_parse coerce a -> settled JSON_parse coerce (elapse ms a).
Proof.
  intros (H1 & H2 & H3 & H4 & H5 & H6 & H7 & H8). unfold elapse.
  destruct (disqualifications a) as [|[due r] [|p q]] eqn:D.
  - unfold settled. cbn.
    split; [exact H1|]. split; [exact H2|]. split; [exact H3|]. split; [exact H4|].
    split; [reflexivity|]. split; [lia|]. split; [constructor | exact H8].
  - assert (S : step a = EVALUATING).
    { destruct (step a) eqn:S; try reflexivity;
        (assert (N : [(due, r)] = @nil (Z * jsstring)) by (apply H5; discriminate));
        discriminate. }
    destruct H1 as [H1|H1]; [congruence|].
    inversion H7 as [|? ? (R1 & R2) _]; subst. cbn [snd] in *.
    cbn [filter fst]. destruct (due <=? appNow a + ms); cbn [negb fold_left snd].
    + unfold settled, showDisqualification. cbn.
      split; [right; exact H1|]. split; [exact H2|]. split; [eauto|].
      split; [intros x [= <-]; left; eauto|]. auto.
    + unfold settled. cbn. rewrite ?S.
      split; [right; exact H1|]. split; [exact H2|]. split; [discriminate|].
      split; [exact H4|]. split; [congruence|]. split; [cbn; lia|].
      split; [exact H7 | exact H8].
  - cbn in H6. lia.
Qed.

Lemma act_settled (x : Action) (a : AppState) :
  settled JSON_parse coerce a -> settled JSON_parse coerce (act JSON_parse coerce x a).
Proof.
  intros H. destruct x as [f| |o transcript reason| |ms]; cbn [act].
  - destruct (existsb isForm (main a)) eqn:E; [|exact H].
    apply handleSubmit_settled; [now apply shown_form | exact H].
  - destruct (existsb isInstructions (main a)) eqn:E; [|exact H].
    apply shown_instructions in E.
    destruct H as (H1 & H2 & H3 & H4 & H5 & H6 & H7 & H8).
    unfold settled, startInterview. cbn.
    split; [destruct H1 as [H1|H1]; [congruence | right; exact H1]|].
    split; [exact H2|]. split; [discriminate|]. split; [exact H4|].
    split; [intros _; apply H5; congruence|]. auto.
  - destruct (existsb isInterview (main a)) eqn:E; [|exact H].
    apply shown_interview in E. destruct E as (E & _).
    now apply handleInterviewComplete_settled.
  - destruct (existsb isResult (main a)) eqn:E; [|exact H].
    apply shown_result in E.
    destruct H as (H1 & H2 & H3 & H4 & H5 & H6 & H7 & H8).
    unfold settled, resetApp. cbn.
    split; [now left|]. split; [discriminate|]. split; [discriminate|].
    split; [discriminate|]. split; [intros _; apply H5; congruence|]. auto.
  - apply elapse_settled, H.
Qed.

Lemma acts_settled (xs : list Action) (a : AppState) :
  settled JSON_parse coerce a -> settled JSON_parse coerce (acts JSON_parse coerce xs a).
Proof.
  revert a. induction xs as [|x xs IH]; intros a H; [exact H|].
  apply IH, act_settled, H.
Qed.

Lemma initialApp_settled (t0 : Z) : settled JSON_parse coerce (initialApp t0).
Proof.
  unfold settled. cbn. split; [now left|]. split; [discriminate|].
  split; [discriminate|]. split; [discriminate|]. split; [reflexivity|].
  split; [lia|]. split; constructor.
Qed.

(** X17. Whatever the screens do from the start of the application on,
    [main] renders exactly one of them: the guards on the candidate and on
    the result never leave the page empty. *)
Theorem main_one_screen (t0 : Z) (xs : list Action) :
  exists screen, main (acts JSON_parse coerce xs (initialApp t0)) = [screen].
Proof.
  destruct (acts_settled xs _ (initialApp_settled t0)) as (H1 & _ & H3 & _).
  revert H1 H3. generalize (acts JSON_parse coerce xs (initialApp t0)). intros a H1 H3.
  unfold main. destruct (step a) eqn:S; cbn.
  - eexists; reflexivity.
  - eexists; reflexivity.
  - destruct H1 as [H1|(c & ->)]; [discriminate | eexists; reflexivity].
  - eexists; reflexivity.
  - destruct H1 as [H1|(c & ->)]; [discriminate|].
    destruct H3 as (r & ->); [reflexivity | eexists; reflexivity].
Qed.

(** X18. Whatever the screens do from the start of the application on, every
    scoring request is built from a profile that the form has let through,
    none of whose fields is empty. *)
Theorem scoring_profile (t0 : Z) (xs : list Action) :
  Forall (fun q => exists c, req_candidate q = Some c /\
                             name c <> [] /\ field c <> [] /\
                             jobDescription c <> [] /\ language c <> [])
    (scoringRequests (acts JSON_parse coerce xs (initialApp t0))).
Proof.
  destruct (acts_settled xs _ (initialApp_settled t0)) as (_ & _ & _ & _ & _ & _ & _ & H).
  exact H.
Qed.

(** X19. Whatever the screens do from the start of the application on, the
    result screen tells a disqualification from an evaluation: a result
    shown as disqualified is that of a termination whose reason is neither
    empty nor "Completed", with rating 0 and not passed; any other result is
    that of an evaluation, and carries no termination reason. *)
Theorem result_verdict (t0 : Z) (xs : list Action) :
  match result (acts JSON_parse coerce xs (initialApp t0)) with
  | None => True
  | Some r =>
      if ResultScreen.isDisqualified r
      then (exists reason, r = disqualification reason /\ reason <> [] /\
                           reason <> js "Completed") /\
           rating r = JNumber 0 /\ passed r = false /\
           ResultScreen.verdict r = js "Disqualified"
      else (exists o, r = evaluate JSON_parse coerce o) /\
           terminationReason r = None /\ ResultScreen.showsScore r = true
  end.
Proof.
  destruct (acts_settled xs _ (initialApp_settled t0)) as (_ & _ & _ & H & _).
  destruct (result _) as [r|]; [|exact I].
  destruct (H r eq_refl) as [(reason & -> & R1 & R2)|(o & ->)].
  - unfold ResultScreen.isDisqualified, ResultScreen.verdict, ResultScreen.isDisqualified.
    cbn. rewrite (truthy_true reason R1). eauto 10.
  - assert (T : terminationReason (evaluate JSON_parse coerce o) = None).
    { unfold evaluate. destruct o as [|text]; [reflexivity|].
      destruct (JSON_parse _) as [data|]; [|reflexivity].
      destruct (properties data); reflexivity. }
    unfold ResultScreen.showsScore, ResultScreen.isDisqualified. rewrite T. eauto.
Qed.

Lemma elapse_step (ms : Z) (a : AppState) :
  step (elapse ms a) = step a \/ step (elapse ms a) = RESULT.
Proof.
  unfold elapse.
  generalize (filter (fun p : Z * jsstring => fst p <=? appNow a + ms) (disqualifications a)).
  intros l.
  assert (H : forall b, step (fold_left (fun a p => showDisqualification (snd p) a) l b)
                        = step b \/
                        step (fold_left (fun a p => showDisqualification (snd p) a) l b)
                        = RESULT).
  { induction l as [|p l IH]; intros b; [now left|].
    cbn [fold_left]. destruct (IH (showDisqualification (snd p) b)) as [E|E];
      right; [rewrite E; reflexivity | exact E]. }
  cbv zeta. match goal with |- context [fold_left _ l ?b] => destruct (H b) as [E|E] end;
    [left; rewrite E; reflexivity | right; exact E].
Qed.

Lemma currentStepIndex_step (a : AppState) :
  currentStepIndex a =
  match step a with
  | FORM => 0 | INSTRUCTIONS => 1 | INTERVIEW => 2 | EVALUATING => 3 | RESULT => 4
  end.
Proof. unfold currentStepIndex. destruct (step a); reflexivity. Qed.

(** X20. The stepper of the header follows the application: it always finds
    the current step among its five entries, and no action of a screen moves
    it backwards, except the reset of the result screen, which takes it from
    the last entry to the first. *)
Theorem stepper_forward (x : Action) (a : AppState) :
  let i := currentStepIndex a in
  let j := currentStepIndex (act JSON_parse coerce x a) in
  option_map fst (nth_error steps (Z.to_nat i)) = Some (step a) /\
  0 <= i <= 4 /\
  (i <= j \/ (x = Reset /\ i = 4 /\ j = 0)).
Proof.
  cbv zeta. rewrite !currentStepIndex_step.
  split; [destruct (step a); reflexivity|].
  split; [destruct (step a); lia|].
  destruct x as [f| |o transcript reason| |ms]; cbn [act].
  - destruct (existsb isForm (main a)) eqn:E; [|left; lia].
    apply shown_form in E. rewrite E. unfold CandidateForm.handleSubmit.
    destruct (_ && _); [|rewrite E]; cbn; left; lia.
  - destruct (existsb isInstructions (main a)) eqn:E; [|left; lia].
    apply shown_instructions in E. rewrite E. cbn. left; lia.
  - destruct (existsb isInterview (main a)) eqn:E; [|left; lia].
    apply shown_interview in E. destruct E as (E & _). rewrite E.
    unfold handleInterviewComplete. destruct (disqualifying reason); cbn; left; lia.
  - destruct (existsb isResult (main a)) eqn:E; [|left; lia].
    apply shown_result in E. rewrite E. cbn. right. auto.
  - destruct (elapse_step (Z.of_N ms) a) as [E|E]; rewrite E; left;
      [lia | destruct (step a); lia].
Qed.

Local Open Scope float_scope.

Lemma leb_8_ltb_6 (x : float) : (8 <=? x) = true -> (6 <? x) = true.
Proof.
  rewrite FloatAxioms.leb_spec, FloatAxioms.ltb_spec.
  change (FloatOps.Prim2SF 8) with (SpecFloat.S754_finite false 4503599627370496 (-49)).
  change (FloatOps.Prim2SF 6) with (SpecFloat.S754_finite false 6755399441055744 (-50)).
  unfold SpecFloat.SFleb, SpecFloat.SFltb, SpecFloat.SFcompare.
  destruct (FloatOps.Prim2SF x) as [s|s| |s m e].
  - destruct s; intros H; discriminate H.
  - destruct s; intros H; [discriminate H | reflexivity].
  - intros H; discriminate H.
  - destruct s; [intros H; discriminate H|].
    destruct (Z.compare_spec (-49) e) as [E|E|E];
      destruct (Z.compare_spec (-50) e) as [F|F|F]; lia.
Qed.

Lemma ltb_6_leb_5 (x : float) : (6 <? x) = true -> (5 <=? x) = true.
Proof.
  rewrite FloatAxioms.leb_spec, FloatAxioms.ltb_spec.
  change (FloatOps.Prim2SF 5) with (SpecFloat.S754_finite false 5629499534213120 (-50)).
  change (FloatOps.Prim2SF 6) with (SpecFloat.S754_finite false 6755399441055744 (-50)).
  set (m6 := 6755399441055744%positive). set (m5 := 5629499534213120%positive).
  assert (L : (m5 < m6)%positive) by reflexivity.
  clearbody m5 m6.
  unfold SpecFloat.SFleb, SpecFloat.SFltb, SpecFloat.SFcompare.
  destruct (FloatOps.Prim2SF x) as [s|s| |s m e].
  - destruct s; intros H; discriminate H.
  - destruct s; intros H; [discriminate H | reflexivity].
  - intros H; discriminate H.
  - destruct s; [intros H; discriminate H|].
    destruct (Z.compare_spec (-50) e) as [F|F|F].
    + change (PosDef.Pos.compare_cont Eq m6 m) with (Pos.compare m6 m).
      change (PosDef.Pos.compare_cont Eq m5 m) with (Pos.compare m5 m).
      destruct (Pos.compare_spec m6 m) as [G|G|G];
        destruct (Pos.compare_spec m5 m) as [K|K|K]; lia.
    + intros _. reflexivity.
    + intros H. discriminate H.
Qed.

Lemma produced_passed (r : InterviewResult) :
  produced JSON_parse coerce r -> passed r = (6 <? toNumber coerce (rating r)).
Proof.
  intros [(reason & -> & _)|(o & ->)]; [reflexivity|].
  unfold evaluate. destruct o as [|text]; [reflexivity|].
  destruct (JSON_parse _) as [data|]; [|reflexivity].
  destruct (properties data); reflexivity.
Qed.

(** X21. Whatever the screens do from the start of the application on, the
    confidence label of the result screen agrees with the verdict: a
    candidate who passed is never shown a low confidence, and a high
    confidence is only shown for a candidate who passed. *)
Theorem confidence_agrees (t0 : Z) (xs : list Action) :
  match result (acts JSON_parse coerce xs (initialApp t0)) with
  | None => True
  | Some r =>
      (passed r = true -> ResultScreen.confidence coerce r <> ResultScreen.Low) /\
      (ResultScreen.confidence coerce r = ResultScreen.High -> passed r = true)
  end.
Proof.
  destruct (acts_settled xs _ (initialApp_settled t0)) as (_ & _ & _ & H & _).
  destruct (result _) as [r|]; [|exact I].
  rewrite (produced_passed r (H r eq_refl)). unfold ResultScreen.confidence.
  generalize (toNumber coerce (rating r)). intros x. split.
  - intros P. apply ltb_6_leb_5 in P. rewrite P.
    destruct (8 <=? x); discriminate.
  - destruct (8 <=? x) eqn:E; [intros _; now apply leb_8_ltb_6|].
    destruct (5 <=? x); discriminate.
Qed.

End Navigation.

End ScreensProperties.

(** ** The instructions screen *)

Module InstructionsProperties.

Import Instructions.

Lemma draw_frames (dataArray : list Z) (s : State) :
  0 <= frameCountRef s /\ (frameCountRef s < 30 -> noiseStatus s = noise_checking) ->
  0 <= frameCountRef (draw dataArray s) /\
  (frameCountRef (draw dataArray s) < 30 -> noiseStatus (draw dataArray s) = noise_checking).
Proof.
  intros (A & B). unfold draw. cbn [frameCountRef noiseStatus]. split; [lia|].
  intros C. destruct (Z.eqb_spec (Z.rem (frameCountRef s + 1) 30) 0) as [E|E].
  - exfalso. pose proof (Z.rem_small (frameCountRef s + 1) 30). lia.
  - apply B. lia.
Qed.

Lemma handle_frames (e : Event) (s : State) :
  0 <= frameCountRef s /\ (frameCountRef s < 30 -> noiseStatus s = noise_checking) ->
  0 <= frameCountRef (handle e s) /\
  (frameCountRef (handle e s) < 30 -> noiseStatus (handle e s) = noise_checking).
Proof.
  intros H. destruct e as [m|probe|dataArray]; cbn [handle].
  - destruct m as [|[dataArray|]]; cbn [initMedia drawVisualizer analyserRef];
      [exact H | apply draw_frames; exact H | exact H].
  - destruct probe; exact H.
  - destruct (animationRef s); [apply draw_frames|]; exact H.
Qed.

(** X22. Whatever happens on the instructions screen, the noise status stays
    "checking" during the first 29 frames of the visualizer, so that until
    the thirtieth frame the start button is enabled as soon as the media
    permission is granted, however loud the room is. *)
Theorem noise_check_delay (es : list Event) :
  let s := run es initial in
  0 <= frameCountRef s /\
  (frameCountRef s < 30 ->
   noiseStatus s = noise_checking /\
   (permissionGranted s = Some true -> startDisabled s = false)).
Proof.
  assert (H : forall s,
             0 <= frameCountRef s /\
             (frameCountRef s < 30 -> noiseStatus s = noise_checking) ->
             0 <= frameCountRef (run es s) /\
             (frameCountRef (run es s) < 30 -> noiseStatus (run es s) = noise_checking)).
  { induction es as [|e es IH]; intros s H; [exact H|].
    apply IH, handle_frames, H. }
  destruct (H initial) as (A & B); [split; [cbn; lia | reflexivity]|].
  cbv zeta. split; [exact A|]. intros C. split; [exact (B C)|].
  intros P. unfold startDisabled. now rewrite P, (B C).
Qed.

(** The first frame is drawn as soon as the stream is granted. In a loud room
    the status turns "bad" at the thirtieth frame, and the start button is
    disabled from then on; without a canvas no frame is ever drawn. *)
Example loud_room :
  let frame := repeat 200 256 in
  let s1 := run [EvMedia (Granted (Some frame))] initial in
  let s30 := run (repeat (EvFrame frame) 29) s1 in
  frameCountRef s1 = 1 /\ animationRef s1 = true /\ startDisabled s1 = false /\
  frameCountRef s30 = 30 /\ noiseStatus s30 = bad /\ startDisabled s30 = true /\
  frameCountRef (run [EvMedia (Granted None); EvFrame frame] initial) = 0.
Proof. vm_compute. repeat split; reflexivity. Qed.

End InstructionsProperties.

(** ** End-to-end scenarios *)

Module ScenarioChecks.

Import InterviewSession Scenarios.

(** The candidate answers, the agent ends the interview with "Completed":
    [onComplete] receives the transcript and the reason, and the scoring
    request is issued. *)
Example completed_interview :
  let s := run [agentSays (js "What is a mutex?"); candidateSays (js "A lock ");
                candidateSays (js "for threads."); agentSays (js " Good. ");
                agentSays (js "This concludes our interview.");
                agentEnds (js "Completed"); EvAdvance 2000%N] listening in
  let transcript := js "AI: What is a mutex?" ++ newline ++
                    js "User: A lock for threads." ++ newline ++
                    js "AI: Good. This concludes our interview." in
  let a := report (App.Responds (Some App.scoreText)) s (App.interviewing App.jane) in
  completed s = [(transcript, Some (js "Completed"))] /\
  disconnectCalls s = 1%nat /\
  App.scoringRequests a = [App.mkRequest (Some App.jane) transcript] /\
  App.step a = App.RESULT /\
  option_map App.passed (App.result a) = Some true.
Proof. vm_compute. repeat split; reflexivity. Qed.

(** The candidate switches tabs three times: [onComplete] is called with the
    security reason and no scoring request is attempted. *)
Example disqualified_interview :
  let s := run [agentSays (js "What is a mutex?"); EvVisibilityChange true;
                EvVisibilityChange false; EvVisibilityChange true;
                EvVisibilityChange false; EvVisibilityChange true;
                EvAdvance 2000%N] listening in
  let a := App.elapse 1500
             (report App.RequestThrows s (App.interviewing App.jane)) in
  completed s = [(js "AI: What is a mutex?", Some securityViolation)] /\
  App.scoringRequests a = [] /\
  App.result a = Some (App.disqualification securityViolation).
Proof. vm_compute. repeat split; reflexivity. Qed.

(** The candidate stays silent for the whole budget: the countdown reaches
    zero and the session ends with "Time Limit Exceeded". *)
Example expired_interview :
  let s := run (repeat EvCountdownTick 600 ++ [EvAdvance 2000%N]) listening in
  timeLeft s = 0 /\
  countdownInterval s = false /\
  completed s = [([], Some (js "Time Limit Exceeded"))] /\
  disconnectCalls s = 1%nat.
Proof. vm_compute. repeat split; reflexivity. Qed.

End ScenarioChecks.
